(** * mcba_usb: SocketCAN driver for the Microchip CAN BUS Analyzer Tool

    A shallow embedding of [mcba_usb.c] and the properties of its wire
    decoding, transmit context pool, receive dispatcher, keep-alive handlers
    and bit-timing table, of the start of the device, the termination
    attribute and the unlinking of the URBs.

    Conventions of the embedding:
    - C integers are [Z]; a store into a [u8]/[u32]/[unsigned long] object
      wraps with [u8]/[u32]/[ulong];
    - the driver's private data ([struct mcba_priv]) is a record, threaded
      through the functions by a state monad [M] over a [world];
    - calls into the kernel that only have an effect (logging, queue control,
      frame delivery) are appended to a [trace]; calls whose result the driver
      branches on (allocations, [usb_submit_urb], [netif_device_present]) read
      their result from the oracle [ext] of the world, one entry per call;
    - a pointer to raw message memory is the list of bytes stored from the
      pointer on; a context pointer [&priv->tx_context[i]] is the index [i]. *)

From stdpp Require Import base numbers list strings pretty relations.

(** ** Machine integers *)

Definition u8 (x : Z) : Z := (x mod 2 ^ 8)%Z.
Definition u16 (x : Z) : Z := (x mod 2 ^ 16)%Z.
Definition u32 (x : Z) : Z := (x mod 2 ^ 32)%Z.
(** [unsigned long] of the 64-bit kernel, the type of the netdev counters. *)
Definition ulong (x : Z) : Z := (x mod 2 ^ 64)%Z.

(** errno values of the kernel used by the driver *)
Definition ENOENT : Z := 2.
Definition ENODEV : Z := 19.
Definition EINVAL : Z := 22.
Definition ESHUTDOWN : Z := 108.

Inductive netdev_tx_t := NETDEV_TX_OK | NETDEV_TX_BUSY.

(** [memcpy(dst, src, n)]: the memory from [dst] on after the copy.  Both
    arguments are the bytes stored from the pointer on, so a copy longer than
    the destination array shows as a result longer than the array. *)
Definition memcpy (dst src : list Z) (n : nat) : list Z :=
  take n src ++ drop n dst.

(** ** Kernel structures used by the driver *)

(** [struct can_frame]; [data] is the array [__u8 data[8]] at the end of the
    structure, as the memory from its first byte on. *)
Record can_frame := mk_can_frame {
  can_id : Z;
  can_dlc : Z;
  cf_data : list Z
}.

(** The frame [alloc_can_skb] hands out: zero-filled. *)
Definition CAN_MAX_DLEN : nat := 8.
Definition zeroed_can_frame : can_frame :=
  {| can_id := 0; can_dlc := 0; cf_data := replicate CAN_MAX_DLEN 0%Z |}.

(** [struct can_bittiming], all fields [__u32]. *)
Record can_bittiming := mk_can_bittiming {
  bitrate : Z;
  sample_point : Z;
  tq : Z;
  prop_seg : Z;
  phase_seg1 : Z;
  phase_seg2 : Z;
  sjw : Z;
  brp : Z
}.

(** [struct can_berr_counter] *)
Record can_berr_counter := mk_can_berr_counter {
  txerr : Z;
  rxerr : Z
}.

(** The fields of [struct net_device_stats] the driver updates. *)
Record net_device_stats := mk_net_device_stats {
  rx_packets : Z;
  rx_bytes : Z;
  tx_packets : Z;
  tx_bytes : Z;
  tx_dropped : Z
}.

(** ** Driver structures *)

(** A raw protocol record, [struct mcba_usb_msg *]: the bytes from the
    pointer on. *)
Definition mcba_usb_msg := list Z.

(** [struct mcba_usb_msg_can]; [data] is the memory from [msg->data] on (the
    payload array first, then whatever follows it in the buffer). *)
Record mcba_usb_msg_can := mk_mcba_usb_msg_can {
  cmdId : Z;
  eidh : Z;
  eidl : Z;
  sidh : Z;
  sidl : Z;
  dlc : Z;
  data : list Z
}.

Record mcba_usb_msg_keep_alive_usb := mk_mcba_usb_msg_keep_alive_usb {
  ka_usb_termination_state : Z;
  ka_usb_soft_ver_major : Z;
  ka_usb_soft_ver_minor : Z
}.

Record mcba_usb_msg_keep_alive_can := mk_mcba_usb_msg_keep_alive_can {
  tx_err_cnt : Z;
  rx_err_cnt : Z;
  rx_buff_ovfl : Z;
  tx_bus_off : Z;
  can_bitrate_hi : Z;
  can_bitrate_lo : Z;
  rx_lost_hi : Z;
  rx_lost_lo : Z;
  can_stat : Z;
  soft_ver_major : Z;
  soft_ver_minor : Z;
  debug_mode : Z;
  test_complete : Z;
  test_result : Z
}.

Record mcba_usb_msg_change_bitrate := mk_mcba_usb_msg_change_bitrate {
  cmd_id : Z;
  bitrate_hi : Z;
  bitrate_lo : Z
}.

Record mcba_usb_msg_fw_ver := mk_mcba_usb_msg_fw_ver {
  fw_cmdId : Z;
  pic : Z
}.

Record mcba_usb_msg_terminaton := mk_mcba_usb_msg_terminaton {
  term_cmdId : Z;
  termination : Z
}.

(** [struct mcba_usb_ctx]; [ctx_priv] tells whether the back pointer
    [ctx->priv] is set. *)
Record mcba_usb_ctx := mk_mcba_usb_ctx {
  ndx : Z;
  ctx_priv : bool;
  ctx_dlc : Z;
  can : bool
}.

(** A USB request block: [context] is the index of the transmit context a
    write URB carries (unused by read URBs). *)
Record urb := mk_urb {
  context : nat;
  transfer_buffer : list Z;
  actual_length : Z;
  status : Z
}.

(** [struct mcba_priv], with the parts of [priv->can] and [priv->netdev] the
    modelled functions touch.  [tx_submitted] is the anchor of the write
    URBs in flight. *)
Record mcba_priv := mk_mcba_priv {
  tx_context : list mcba_usb_ctx;
  tx_submitted : list urb;
  pic_usb_sw_ver_major : Z;
  pic_usb_sw_ver_minor : Z;
  pic_can_sw_ver_major : Z;
  pic_can_sw_ver_minor : Z;
  termination_state : Z;
  bec : can_berr_counter;
  bittiming : can_bittiming;
  stats : net_device_stats
}.

(** ** The header [mcba_usb.h]

    The header is not part of the sources at hand.  Its constants, macros and
    structure layouts are the fields of this class; every function below is
    defined for an arbitrary header. *)
Class mcba_usb_h := {
  (* transmit context pool *)
  MCBA_MAX_TX_URBS : nat;
  MCBA_CTX_FREE : Z;
  (* firmware versions *)
  MCBA_VER_UNDEFINED : Z;
  MCBA_VER_USB_MAJOR : Z;
  MCBA_VER_USB_MINOR : Z;
  MCBA_VER_CAN_MAJOR : Z;
  MCBA_VER_CAN_MINOR : Z;
  MCBA_VER_REQ_USB : Z;
  MCBA_VER_REQ_CAN : Z;
  (* debug macros, reading the module parameter [debug] *)
  MCBA_IS_USB_DEBUG : Z → bool;
  MCBA_IS_CAN_DEBUG : Z → bool;
  (* command identifiers *)
  MBCA_CMD_I_AM_ALIVE_FROM_CAN : Z;
  MBCA_CMD_I_AM_ALIVE_FROM_USB : Z;
  MBCA_CMD_RECEIVE_MESSAGE : Z;
  MBCA_CMD_NOTHING_TO_SEND : Z;
  MBCA_CMD_TRANSMIT_MESSAGE_RSP : Z;
  MBCA_CMD_TRANSMIT_MESSAGE_EV : Z;
  MBCA_CMD_CHANGE_BIT_RATE : Z;
  MBCA_CMD_READ_FW_VERSION : Z;
  MBCA_CMD_SETUP_TERMINATION_RESISTANCE : Z;
  (* CAN frame fields *)
  MCBA_DLC_MASK : Z;
  MCBA_DLC_RTR_MASK : Z;
  MCBA_CAN_RTR_MASK : Z;
  MCBA_RX_IS_EXID : mcba_usb_msg_can → bool;
  MCBA_RX_IS_RTR : mcba_usb_msg_can → bool;
  MCBA_CAN_GET_EID : mcba_usb_msg_can → Z;
  MCBA_CAN_GET_SID : mcba_usb_msg_can → Z;
  MCBA_TX_IS_EXID : can_frame → bool;
  MCBA_TX_IS_RTR : can_frame → bool;
  MCBA_SET_E_SIDL : Z → Z;
  MCBA_SET_E_SIDH : Z → Z;
  MCBA_SET_EIDL : Z → Z;
  MCBA_SET_EIDH : Z → Z;
  MCBA_SET_S_SIDL : Z → Z;
  MCBA_SET_S_SIDH : Z → Z;
  (* sizes; [sizeof_mcba_usb_msg] is [sizeof(struct mcba_usb_msg)] and
     [sizeof_usb_msg_data] is [sizeof(usb_msg.data)] *)
  sizeof_mcba_usb_msg : Z;
  sizeof_usb_msg_data : nat;
  MCBA_USB_TX_BUFF_SIZE : nat;
  MCBA_USB_RX_BUFF_SIZE : Z;
  (* structure layouts: reading a record through a cast pointer, and the
     memory of a message built on the stack *)
  msg_cmdId : mcba_usb_msg → Z;
  cast_msg_can : mcba_usb_msg → mcba_usb_msg_can;
  cast_msg_keep_alive_usb : mcba_usb_msg → mcba_usb_msg_keep_alive_usb;
  cast_msg_keep_alive_can : mcba_usb_msg → mcba_usb_msg_keep_alive_can;
  msg_of_can : mcba_usb_msg_can → mcba_usb_msg;
  msg_of_change_bitrate : mcba_usb_msg_change_bitrate → mcba_usb_msg;
  msg_of_fw_ver : mcba_usb_msg_fw_ver → mcba_usb_msg;
  msg_of_terminaton : mcba_usb_msg_terminaton → mcba_usb_msg
}.

(** The bitrate constants [MCBA_BITRATE_*_40MHZ] belong to the absent header.
    Their values are the 18 bitrates, 20 kbps through 1000 kbps, that the
    spec documents and that the message of the [default] branch of
    [mcba_net_set_bittiming] lists. *)

(** Modelled from the spec: the header constant for 20000 bit/s. *)
Definition MCBA_BITRATE_20_KBPS_40MHZ : Z := 20000.

(** Modelled from the spec: the header constant for 33333 bit/s. *)
Definition MCBA_BITRATE_33_3KBPS_40MHZ : Z := 33333.

(** Modelled from the spec: the header constant for 50000 bit/s. *)
Definition MCBA_BITRATE_50KBPS_40MHZ : Z := 50000.

(** Modelled from the spec: the header constant for 80000 bit/s. *)
Definition MCBA_BITRATE_80KBPS_40MHZ : Z := 80000.

(** Modelled from the spec: the header constant for 83333 bit/s. *)
Definition MCBA_BITRATE_83_3KBPS_40MHZ : Z := 83333.

(** Modelled from the spec: the header constant for 100000 bit/s. *)
Definition MCBA_BITRATE_100KBPS_40MHZ : Z := 100000.

(** Modelled from the spec: the header constant for 125000 bit/s. *)
Definition MCBA_BITRATE_125KBPS_40MHZ : Z := 125000.

(** Modelled from the spec: the header constant for 150000 bit/s. *)
Definition MCBA_BITRATE_150KBPS_40MHZ : Z := 150000.

(** Modelled from the spec: the header constant for 175000 bit/s. *)
Definition MCBA_BITRATE_175KBPS_40MHZ : Z := 175000.

(** Modelled from the spec: the header constant for 200000 bit/s. *)
Definition MCBA_BITRATE_200KBPS_40MHZ : Z := 200000.

(** Modelled from the spec: the header constant for 225000 bit/s. *)
Definition MCBA_BITRATE_225KBPS_40MHZ : Z := 225000.

(** Modelled from the spec: the header constant for 250000 bit/s. *)
Definition MCBA_BITRATE_250KBPS_40MHZ : Z := 250000.

(** Modelled from the spec: the header constant for 275000 bit/s. *)
Definition MCBA_BITRATE_275KBPS_40MHZ : Z := 275000.

(** Modelled from the spec: the header constant for 300000 bit/s. *)
Definition MCBA_BITRATE_300KBPS_40MHZ : Z := 300000.

(** Modelled from the spec: the header constant for 500000 bit/s. *)
Definition MCBA_BITRATE_500KBPS_40MHZ : Z := 500000.

(** Modelled from the spec: the header constant for 625000 bit/s. *)
Definition MCBA_BITRATE_625KBPS_40MHZ : Z := 625000.

(** Modelled from the spec: the header constant for 800000 bit/s. *)
Definition MCBA_BITRATE_800KBPS_40MHZ : Z := 800000.

(** Modelled from the spec: the header constant for 1000000 bit/s. *)
Definition MCBA_BITRATE_1000KBPS_40MHZ : Z := 1000000.

(** Modelled from the spec: the constant [MCBA_CAN_CLOCK] of the absent
    header, the 40 MHz clock of the bit-timing formulas. *)
Definition MCBA_CAN_CLOCK : Z := 40000000.

(** ** The world the driver runs in *)

(** Calls into the kernel made for their effect only. *)
Inductive event :=
| NetdevInfo (fmt : string) (args : list Z)
| NetdevWarn (fmt : string) (args : list Z)
| NetdevErr (fmt : string) (args : list Z)
| NetifRx (cf : can_frame)
| NetifStopQueue
| NetifWakeQueue
| NetifDeviceDetach
| CanPutEchoSkb (idx : Z)
| CanGetEchoSkb (idx : Z)
| CanFreeEchoSkb (idx : Z)
| DevKfreeSkb (skb : option can_frame)
| UsbSubmitUrb (u : urb).

(** [debug] is the module parameter; [ext n] is the result of the [n]-th call
    whose result the driver uses, [tick] counts those calls. *)
Record world := mk_world {
  priv : mcba_priv;
  debug : Z;
  trace : list event;
  ext : nat → Z;
  tick : nat
}.

Definition M (A : Type) : Type := world → A * world.

Definition ret {A} (a : A) : M A := λ w, (a, w).

Definition bind {A B} (m : M A) (k : A → M B) : M B :=
  λ w, k (m w).1 (m w).2.

Notation "x <- m ;; k" := (bind m (λ x, k))
  (at level 100, m at next level, right associativity).
Notation "m ;; k" := (bind m (λ _, k))
  (at level 100, right associativity).

Definition when (b : bool) (m : M unit) : M unit := if b then m else ret tt.

Definition get_priv : M mcba_priv := λ w, (priv w, w).

Definition modify_priv (f : mcba_priv → mcba_priv) : M unit :=
  λ w, (tt, {| priv := f (priv w); debug := debug w; trace := trace w;
               ext := ext w; tick := tick w |}).

Definition get_debug : M Z := λ w, (debug w, w).

Definition emit (e : event) : M unit :=
  λ w, (tt, {| priv := priv w; debug := debug w; trace := trace w ++ [e];
               ext := ext w; tick := tick w |}).

Definition extern : M Z :=
  λ w, (ext w (tick w),
        {| priv := priv w; debug := debug w; trace := trace w;
           ext := ext w; tick := S (tick w) |}).

(** *** Kernel interface *)

Definition netdev_info (fmt : string) (args : list Z) : M unit :=
  emit (NetdevInfo fmt args).
Definition netdev_warn (fmt : string) (args : list Z) : M unit :=
  emit (NetdevWarn fmt args).
Definition netdev_err (fmt : string) (args : list Z) : M unit :=
  emit (NetdevErr fmt args).

(** Calls that return a pointer: [true] when it is not [NULL]. *)
Definition alloc_can_skb : M bool := r <- extern ;; ret (negb (r =? 0)%Z).
Definition usb_alloc_urb : M bool := r <- extern ;; ret (negb (r =? 0)%Z).
Definition usb_alloc_coherent : M bool := r <- extern ;; ret (negb (r =? 0)%Z).
Definition netif_device_present : M bool := r <- extern ;; ret (negb (r =? 0)%Z).
(** [usb_submit_urb] returns 0 or a negative errno. *)
Definition usb_submit_urb (u : urb) : M Z := emit (UsbSubmitUrb u) ;; extern.

(** *** Field updates of [struct mcba_priv] *)

Definition set_tx_context (v : list mcba_usb_ctx) (p : mcba_priv) : mcba_priv :=
  {| tx_context := v; tx_submitted := tx_submitted p;
     pic_usb_sw_ver_major := pic_usb_sw_ver_major p;
     pic_usb_sw_ver_minor := pic_usb_sw_ver_minor p;
     pic_can_sw_ver_major := pic_can_sw_ver_major p;
     pic_can_sw_ver_minor := pic_can_sw_ver_minor p;
     termination_state := termination_state p; bec := bec p;
     bittiming := bittiming p; stats := stats p |}.

Definition set_tx_submitted (v : list urb) (p : mcba_priv) : mcba_priv :=
  {| tx_context := tx_context p; tx_submitted := v;
     pic_usb_sw_ver_major := pic_usb_sw_ver_major p;
     pic_usb_sw_ver_minor := pic_usb_sw_ver_minor p;
     pic_can_sw_ver_major := pic_can_sw_ver_major p;
     pic_can_sw_ver_minor := pic_can_sw_ver_minor p;
     termination_state := termination_state p; bec := bec p;
     bittiming := bittiming p; stats := stats p |}.

Definition set_pic_usb_sw_ver (major minor : Z) (p : mcba_priv) : mcba_priv :=
  {| tx_context := tx_context p; tx_submitted := tx_submitted p;
     pic_usb_sw_ver_major := major;
     pic_usb_sw_ver_minor := minor;
     pic_can_sw_ver_major := pic_can_sw_ver_major p;
     pic_can_sw_ver_minor := pic_can_sw_ver_minor p;
     termination_state := termination_state p; bec := bec p;
     bittiming := bittiming p; stats := stats p |}.

Definition set_pic_can_sw_ver (major minor : Z) (p : mcba_priv) : mcba_priv :=
  {| tx_context := tx_context p; tx_submitted := tx_submitted p;
     pic_usb_sw_ver_major := pic_usb_sw_ver_major p;
     pic_usb_sw_ver_minor := pic_usb_sw_ver_minor p;
     pic_can_sw_ver_major := major;
     pic_can_sw_ver_minor := minor;
     termination_state := termination_state p; bec := bec p;
     bittiming := bittiming p; stats := stats p |}.

Definition set_termination_state (v : Z) (p : mcba_priv) : mcba_priv :=
  {| tx_context := tx_context p; tx_submitted := tx_submitted p;
     pic_usb_sw_ver_major := pic_usb_sw_ver_major p;
     pic_usb_sw_ver_minor := pic_usb_sw_ver_minor p;
     pic_can_sw_ver_major := pic_can_sw_ver_major p;
     pic_can_sw_ver_minor := pic_can_sw_ver_minor p;
     termination_state := v; bec := bec p;
     bittiming := bittiming p; stats := stats p |}.

Definition set_bec (v : can_berr_counter) (p : mcba_priv) : mcba_priv :=
  {| tx_context := tx_context p; tx_submitted := tx_submitted p;
     pic_usb_sw_ver_major := pic_usb_sw_ver_major p;
     pic_usb_sw_ver_minor := pic_usb_sw_ver_minor p;
     pic_can_sw_ver_major := pic_can_sw_ver_major p;
     pic_can_sw_ver_minor := pic_can_sw_ver_minor p;
     termination_state := termination_state p; bec := v;
     bittiming := bittiming p; stats := stats p |}.

Definition set_can_bittiming (v : can_bittiming) (p : mcba_priv) : mcba_priv :=
  {| tx_context := tx_context p; tx_submitted := tx_submitted p;
     pic_usb_sw_ver_major := pic_usb_sw_ver_major p;
     pic_usb_sw_ver_minor := pic_usb_sw_ver_minor p;
     pic_can_sw_ver_major := pic_can_sw_ver_major p;
     pic_can_sw_ver_minor := pic_can_sw_ver_minor p;
     termination_state := termination_state p; bec := bec p;
     bittiming := v; stats := stats p |}.

Definition set_stats (v : net_device_stats) (p : mcba_priv) : mcba_priv :=
  {| tx_context := tx_context p; tx_submitted := tx_submitted p;
     pic_usb_sw_ver_major := pic_usb_sw_ver_major p;
     pic_usb_sw_ver_minor := pic_usb_sw_ver_minor p;
     pic_can_sw_ver_major := pic_can_sw_ver_major p;
     pic_can_sw_ver_minor := pic_can_sw_ver_minor p;
     termination_state := termination_state p; bec := bec p;
     bittiming := bittiming p; stats := v |}.

(** ** The driver *)

Section driver.
Context `{hdr : mcba_usb_h}.

(** *** Receive path *)

(** [mcba_usb_process_can] *)
Definition mcba_usb_process_can (msg : mcba_usb_msg_can) : M unit :=
  skb <- alloc_can_skb ;;
  if negb skb then ret tt
  else
    let id0 := if MCBA_RX_IS_EXID msg then MCBA_CAN_GET_EID msg
               else MCBA_CAN_GET_SID msg in
    let id1 := if MCBA_RX_IS_RTR msg then Z.lor (u32 id0) MCBA_CAN_RTR_MASK
               else id0 in
    let len := u8 (Z.land (dlc msg) MCBA_DLC_MASK) in
    let cf := {| can_id := u32 id1;
                 can_dlc := len;
                 cf_data := memcpy (cf_data zeroed_can_frame) (data msg)
                                   (Z.to_nat len) |} in
    modify_priv (λ p, set_stats
      {| rx_packets := ulong (rx_packets (stats p) + 1);
         rx_bytes := ulong (rx_bytes (stats p) + len);
         tx_packets := tx_packets (stats p);
         tx_bytes := tx_bytes (stats p);
         tx_dropped := tx_dropped (stats p) |} p) ;;
    emit (NetifRx cf).

(** [mcba_usb_process_keep_alive_usb] *)
Definition mcba_usb_process_keep_alive_usb
    (msg : mcba_usb_msg_keep_alive_usb) : M unit :=
  d <- get_debug ;;
  when (MCBA_IS_USB_DEBUG d)
    (netdev_info "USB_KA: termination %hhu, ver_maj %hhu, soft_min %hhu"
       [ka_usb_termination_state msg; ka_usb_soft_ver_major msg;
        ka_usb_soft_ver_minor msg]) ;;
  p <- get_priv ;;
  when ((MCBA_VER_UNDEFINED =? pic_usb_sw_ver_major p)%Z &&
        (MCBA_VER_UNDEFINED =? pic_usb_sw_ver_minor p)%Z)
    (netdev_info "PIC USB version %hhu.%hhu"
       [ka_usb_soft_ver_major msg; ka_usb_soft_ver_minor msg] ;;
     when (negb (MCBA_VER_USB_MAJOR =? ka_usb_soft_ver_major msg)%Z &&
           (MCBA_VER_USB_MINOR =? ka_usb_soft_ver_minor msg)%Z)
       (netdev_warn "Driver tested against PIC USB %hhu.%hhu version only"
          [MCBA_VER_USB_MAJOR; MCBA_VER_USB_MINOR])) ;;
  modify_priv (λ p,
    set_termination_state (ka_usb_termination_state msg)
      (set_pic_usb_sw_ver (ka_usb_soft_ver_major msg)
         (ka_usb_soft_ver_minor msg) p)).

(** [mcba_usb_process_keep_alive_can] *)
Definition mcba_usb_process_keep_alive_can
    (msg : mcba_usb_msg_keep_alive_can) : M unit :=
  d <- get_debug ;;
  when (MCBA_IS_CAN_DEBUG d)
    (netdev_info
       ("CAN_KA: tx_err_cnt %hhu, rx_err_cnt %hhu, " +:+
        "rx_buff_ovfl %hhu, tx_bus_off %hhu, can_bitrate %hu, " +:+
        "rx_lost %hu, can_stat %hhu, soft_ver %hhu.%hhu, " +:+
        "debug_mode %hhu, test_complete %hhu, test_result %hhu")
       [tx_err_cnt msg; rx_err_cnt msg; rx_buff_ovfl msg; tx_bus_off msg;
        (Z.shiftl (can_bitrate_hi msg) 8 + can_bitrate_lo msg)%Z;
        (Z.shiftr (rx_lost_hi msg) 8 + rx_lost_lo msg)%Z;
        can_stat msg; soft_ver_major msg; soft_ver_minor msg;
        debug_mode msg; test_complete msg; test_result msg]) ;;
  p <- get_priv ;;
  when ((MCBA_VER_UNDEFINED =? pic_can_sw_ver_major p)%Z &&
        (MCBA_VER_UNDEFINED =? pic_can_sw_ver_minor p)%Z)
    (netdev_info "PIC CAN version %hhu.%hhu"
       [soft_ver_major msg; soft_ver_minor msg] ;;
     when (negb (MCBA_VER_CAN_MAJOR =? soft_ver_major msg)%Z &&
           (MCBA_VER_CAN_MINOR =? soft_ver_minor msg)%Z)
       (netdev_warn "Driver tested against PIC CAN %hhu.%hhu version only"
          [MCBA_VER_CAN_MAJOR; MCBA_VER_CAN_MINOR])) ;;
  modify_priv (λ p,
    set_pic_can_sw_ver (soft_ver_major msg) (soft_ver_minor msg)
      (set_bec {| txerr := tx_err_cnt msg; rxerr := rx_err_cnt msg |} p)).

(** [mcba_usb_process_rx]: the [switch] on the command identifier. *)
Definition mcba_usb_process_rx (msg : mcba_usb_msg) : M unit :=
  let c := msg_cmdId msg in
  if (c =? MBCA_CMD_I_AM_ALIVE_FROM_CAN)%Z then
    mcba_usb_process_keep_alive_can (cast_msg_keep_alive_can msg)
  else if (c =? MBCA_CMD_I_AM_ALIVE_FROM_USB)%Z then
    mcba_usb_process_keep_alive_usb (cast_msg_keep_alive_usb msg)
  else if (c =? MBCA_CMD_RECEIVE_MESSAGE)%Z then
    mcba_usb_process_can (cast_msg_can msg)
  else if (c =? MBCA_CMD_NOTHING_TO_SEND)%Z then ret tt
  else if (c =? MBCA_CMD_TRANSMIT_MESSAGE_RSP)%Z then ret tt
  else netdev_warn "Unsupported msg (0x%hhX)" [c].

(** The [while] loop of [mcba_usb_read_bulk_callback], from position [pos];
    [fuel] bounds the number of iterations. *)
Fixpoint read_bulk_loop (fuel : nat) (u : urb) (pos : Z) : M unit :=
  match fuel with
  | O => ret tt
  | S fuel' =>
      if (pos <? actual_length u)%Z then
        if (pos + sizeof_mcba_usb_msg >? actual_length u)%Z then
          netdev_err "format error" []
        else
          mcba_usb_process_rx (drop (Z.to_nat pos) (transfer_buffer u)) ;;
          read_bulk_loop fuel' u (pos + sizeof_mcba_usb_msg)%Z
      else ret tt
  end.

(** The part of [mcba_usb_read_bulk_callback] after the label
    [resubmit_urb]. *)
Definition resubmit_urb (u : urb) : M unit :=
  retval <- usb_submit_urb u ;;
  if (retval =? - ENODEV)%Z then emit NetifDeviceDetach
  else if negb (retval =? 0)%Z then
    netdev_err "failed resubmitting read bulk urb: %d" [retval]
  else ret tt.

(** [mcba_usb_read_bulk_callback].  Every iteration of the loop advances
    [pos] by the record size, so [actual_length] iterations are enough for a
    record size of at least one byte.  In the source [pos] is an [int] that
    is compared with the unsigned [actual_length]; the length of a transfer
    is far below [INT_MAX], so the conversions change no value. *)
Definition mcba_usb_read_bulk_callback (u : urb) : M unit :=
  present <- netif_device_present ;;
  if negb present then ret tt
  else if (status u =? 0)%Z then
    read_bulk_loop (Z.to_nat (actual_length u)) u 0 ;;
    resubmit_urb u
  else if (status u =? - ENOENT)%Z || (status u =? - ESHUTDOWN)%Z then ret tt
  else
    netdev_info "Rx URB aborted (%d)" [status u] ;;
    resubmit_urb u.

(** *** Transmit context pool *)

(** [mcba_init_ctx]: iterations [i .. i + n - 1] of the loop. *)
Fixpoint init_ctx_loop (n i : nat) (tx : list mcba_usb_ctx) : list mcba_usb_ctx :=
  match n with
  | O => tx
  | S n' =>
      init_ctx_loop n' (S i)
        (alter (λ c, {| ndx := MCBA_CTX_FREE; ctx_priv := ctx_priv c;
                        ctx_dlc := ctx_dlc c; can := can c |}) i tx)
  end.

Definition init_ctx (tx : list mcba_usb_ctx) : list mcba_usb_ctx :=
  init_ctx_loop MCBA_MAX_TX_URBS 0 tx.

Definition mcba_init_ctx : M unit :=
  modify_priv (λ p, set_tx_context (init_ctx (tx_context p)) p).

(** [mcba_usb_get_free_ctx]: iterations [i .. i + n - 1] of the loop.  The
    result is the context pointer (an index, [None] for the null pointer)
    and the array after the call.  The array has [MCBA_MAX_TX_URBS] elements;
    the loop never looks past them. *)
Fixpoint get_free_ctx_loop (n i : nat) (tx : list mcba_usb_ctx)
    : option nat * list mcba_usb_ctx :=
  match n with
  | O => (None, tx)
  | S n' =>
      match tx !! i with
      | Some c =>
          if (ndx c =? MCBA_CTX_FREE)%Z then
            (Some i, <[i := {| ndx := Z.of_nat i; ctx_priv := true;
                               ctx_dlc := ctx_dlc c; can := can c |}]> tx)
          else get_free_ctx_loop n' (S i) tx
      | None => (None, tx)
      end
  end.

Definition get_free_ctx (tx : list mcba_usb_ctx) : option nat * list mcba_usb_ctx :=
  get_free_ctx_loop MCBA_MAX_TX_URBS 0 tx.

Definition mcba_usb_get_free_ctx : M (option nat) :=
  p <- get_priv ;;
  let r := get_free_ctx (tx_context p) in
  modify_priv (set_tx_context r.2) ;;
  ret r.1.

(** [mcba_usb_free_ctx] on the context [&priv->tx_context[i]]. *)
Definition free_ctx (i : nat) (tx : list mcba_usb_ctx) : list mcba_usb_ctx :=
  alter (λ _, {| ndx := MCBA_CTX_FREE; ctx_priv := false;
                 ctx_dlc := 0; can := false |}) i tx.

Definition mcba_usb_free_ctx (i : nat) : M unit :=
  modify_priv (λ p, set_tx_context (free_ctx i (tx_context p)) p).

(** *** Transmit path *)

(** Assignment to the fields [dlc] and [can] of [priv->tx_context[i]]. *)
Definition ctx_set_dlc (v : Z) (c : mcba_usb_ctx) : mcba_usb_ctx :=
  {| ndx := ndx c; ctx_priv := ctx_priv c; ctx_dlc := v; can := can c |}.
Definition ctx_set_can (v : bool) (c : mcba_usb_ctx) : mcba_usb_ctx :=
  {| ndx := ndx c; ctx_priv := ctx_priv c; ctx_dlc := ctx_dlc c; can := v |}.

Definition modify_ctx (i : nat) (f : mcba_usb_ctx → mcba_usb_ctx) : M unit :=
  modify_priv (λ p, set_tx_context (alter f i (tx_context p)) p).

(** [ctx->ndx] for the context [&priv->tx_context[i]]. *)
Definition ctx_ndx (i : nat) : M Z :=
  p <- get_priv ;;
  ret (from_option ndx 0%Z (tx_context p !! i)).

(** The statements of [mcba_usb_xmit] from the label [nomem] on. *)
Definition xmit_nomem (i : nat) (skb : option can_frame) : M netdev_tx_t :=
  n <- ctx_ndx i ;;
  emit (CanFreeEchoSkb n) ;;
  emit (DevKfreeSkb skb) ;;
  modify_priv (λ p, set_stats
    {| rx_packets := rx_packets (stats p);
       rx_bytes := rx_bytes (stats p);
       tx_packets := tx_packets (stats p);
       tx_bytes := tx_bytes (stats p);
       tx_dropped := ulong (tx_dropped (stats p) + 1) |} p) ;;
  ret NETDEV_TX_OK.

(** [mcba_usb_xmit]; [skb] is [None] for the null pointer of a bare command.
    [usb_anchor_urb] puts the URB on [priv->tx_submitted] and the path
    through [failed] takes it off again with [usb_unanchor_urb], so the
    anchor changes on a successful submission only. *)
Definition mcba_usb_xmit (usb_msg : mcba_usb_msg) (skb : option can_frame)
    : M netdev_tx_t :=
  ctx <- mcba_usb_get_free_ctx ;;
  match ctx with
  | None =>
      emit NetifStopQueue ;;
      ret NETDEV_TX_BUSY
  | Some i =>
      match skb with
      | Some _ =>
          modify_ctx i (ctx_set_dlc (dlc (cast_msg_can usb_msg))) ;;
          n <- ctx_ndx i ;;
          emit (CanPutEchoSkb n) ;;
          modify_ctx i (ctx_set_can true)
      | None => modify_ctx i (ctx_set_can false)
      end ;;
      urb_ok <- usb_alloc_urb ;;
      if negb urb_ok then
        netdev_err "No memory left for URBs" [] ;;
        xmit_nomem i skb
      else
        buf_ok <- usb_alloc_coherent ;;
        if negb buf_ok then
          netdev_err "No memory left for USB buffer" [] ;;
          xmit_nomem i skb
        else
          let u := {| context := i;
                      transfer_buffer := take MCBA_USB_TX_BUFF_SIZE usb_msg;
                      actual_length := 0; status := 0 |} in
          err <- usb_submit_urb u ;;
          if negb (err =? 0)%Z then
            (if (err =? - ENODEV)%Z then emit NetifDeviceDetach
             else netdev_warn "failed tx_urb %d" [err]) ;;
            xmit_nomem i skb
          else
            modify_priv (λ p, set_tx_submitted (tx_submitted p ++ [u]) p) ;;
            ret NETDEV_TX_OK
  end.

(** [mcba_usb_xmit_cmd] *)
Definition mcba_usb_xmit_cmd (usb_msg : mcba_usb_msg) : M unit :=
  mcba_usb_xmit usb_msg None ;; ret tt.

(** [mcba_usb_start_xmit]; the socket buffer is the CAN frame it carries. *)
Definition mcba_usb_start_xmit (cf : can_frame) : M netdev_tx_t :=
  let ext_id := MCBA_TX_IS_EXID cf in
  let dlc0 := u8 (can_dlc cf) in
  let usb_msg :=
    {| cmdId := MBCA_CMD_TRANSMIT_MESSAGE_EV;
       data := take sizeof_usb_msg_data (cf_data cf);
       sidl := u8 (if ext_id then MCBA_SET_E_SIDL (can_id cf)
                   else MCBA_SET_S_SIDL (can_id cf));
       sidh := u8 (if ext_id then MCBA_SET_E_SIDH (can_id cf)
                   else MCBA_SET_S_SIDH (can_id cf));
       eidl := u8 (if ext_id then MCBA_SET_EIDL (can_id cf) else 0%Z);
       eidh := u8 (if ext_id then MCBA_SET_EIDH (can_id cf) else 0%Z);
       dlc := if MCBA_TX_IS_RTR cf then u8 (Z.lor dlc0 MCBA_DLC_RTR_MASK)
              else dlc0 |} in
  mcba_usb_xmit (msg_of_can usb_msg) (Some cf).

(** [mcba_usb_xmit_change_bitrate]; [bitrate] is a [u16]. *)
Definition mcba_usb_xmit_change_bitrate (bitrate : Z) : M unit :=
  mcba_usb_xmit_cmd (msg_of_change_bitrate
    {| cmd_id := MBCA_CMD_CHANGE_BIT_RATE;
       bitrate_hi := u8 (Z.shiftr (Z.land 0xff00 (u16 bitrate)) 8);
       bitrate_lo := u8 (Z.land 0xff (u16 bitrate)) |}).

(** [mcba_usb_xmit_read_fw_ver] *)
Definition mcba_usb_xmit_read_fw_ver (pic : Z) : M unit :=
  mcba_usb_xmit_cmd (msg_of_fw_ver
    {| fw_cmdId := MBCA_CMD_READ_FW_VERSION; pic := u8 pic |}).

(** [mcba_usb_xmit_termination] *)
Definition mcba_usb_xmit_termination (termination : Z) : M unit :=
  mcba_usb_xmit_cmd (msg_of_terminaton
    {| term_cmdId := MBCA_CMD_SETUP_TERMINATION_RESISTANCE;
       termination := u8 termination |}).

(** [mcba_usb_write_bulk_callback] for a completed write URB.  The statements
    after the [if (ctx->can)] block run unless that block returned. *)
Definition mcba_usb_write_bulk_callback (u : urb) : M unit :=
  let i := context u in
  p <- get_priv ;;
  let ctx := tx_context p !! i in
  go_on <-
    (if from_option can false ctx then
       present <- netif_device_present ;;
       if negb present then ret false
       else
         modify_priv (λ p, set_stats
           {| rx_packets := rx_packets (stats p);
              rx_bytes := rx_bytes (stats p);
              tx_packets := ulong (tx_packets (stats p) + 1);
              tx_bytes := ulong (tx_bytes (stats p)
                                 + from_option ctx_dlc 0%Z ctx);
              tx_dropped := tx_dropped (stats p) |} p) ;;
         emit (CanGetEchoSkb (from_option ndx 0%Z ctx)) ;;
         emit NetifWakeQueue ;;
         ret true
     else ret true) ;;
  if go_on then
    when (negb (status u =? 0)%Z) (netdev_info "Tx URB aborted (%d)" [status u]) ;;
    mcba_usb_free_ctx i
  else ret tt.

(** The USB core gives a write URB in flight back to the driver: the URB
    leaves the anchor and its completion handler runs with the final
    status. *)
Definition usb_giveback_tx_urb (k : nat) (st : Z) : M unit :=
  p <- get_priv ;;
  match tx_submitted p !! k with
  | None => ret tt
  | Some u =>
      modify_priv (set_tx_submitted (delete k (tx_submitted p))) ;;
      mcba_usb_write_bulk_callback
        {| context := context u; transfer_buffer := transfer_buffer u;
           actual_length := actual_length u; status := st |}
  end.

(** [termination_store].  [sscanf(buf, "%hhu", &tmp_termination)] is a call
    into the kernel: [scanned] is the number the conversion read from the
    text, [None] when the text does not begin with a number.  The number is
    stored as an [unsigned char]; when nothing was converted the variable
    keeps the 0 it was initialised with. *)
Definition termination_store (scanned : option Z) : M unit :=
  let tmp_termination := from_option u8 0%Z scanned in
  when ((0 =? tmp_termination)%Z || (1 =? tmp_termination)%Z)
    (modify_priv (set_termination_state tmp_termination) ;;
     p <- get_priv ;;
     mcba_usb_xmit_termination (termination_state p)).

(** [mcba_net_get_berr_counter]: the return value and [*bec]. *)
Definition mcba_net_get_berr_counter : M (Z * can_berr_counter) :=
  p <- get_priv ;;
  ret (0%Z, {| txerr := txerr (bec p); rxerr := rxerr (bec p) |}).

(** *** Bit timing *)

(** [mcba_net_calc_bittiming].  The parameters and the fields are [u32]; a
    product or sum wraps before it is divided.  Division by zero is undefined
    in C; [calc_bittiming_defined] tells when both divisors are nonzero, and
    the quotients below mean something then only. *)
Definition mcba_net_calc_bittiming (sjw_ prop seg1 seg2 brp_ : Z)
    (bt : can_bittiming) : can_bittiming :=
  let bt1 := {| bitrate := bitrate bt; sample_point := sample_point bt;
                tq := tq bt; prop_seg := u32 prop; phase_seg1 := u32 seg1;
                phase_seg2 := u32 seg2; sjw := u32 sjw_; brp := u32 brp_ |} in
  let bt2 := {| bitrate := bitrate bt1; sample_point := sample_point bt1;
                tq := u32 (u32 (brp bt1 * 1000) / (MCBA_CAN_CLOCK / 1000000));
                prop_seg := prop_seg bt1; phase_seg1 := phase_seg1 bt1;
                phase_seg2 := phase_seg2 bt1; sjw := sjw bt1;
                brp := brp bt1 |} in
  let bt3 := {| bitrate :=
                  u32 (1000000000 /
                       u32 (u32 (sjw bt2 + prop_seg bt2 + phase_seg1 bt2
                                 + phase_seg2 bt2) * tq bt2));
                sample_point := sample_point bt2;
                tq := tq bt2; prop_seg := prop_seg bt2;
                phase_seg1 := phase_seg1 bt2; phase_seg2 := phase_seg2 bt2;
                sjw := sjw bt2; brp := brp bt2 |} in
  {| bitrate := bitrate bt3;
     sample_point :=
       u32 (u32 (u32 (sjw bt3 + prop_seg bt3 + phase_seg1 bt3) * 1000) /
            u32 (sjw bt3 + prop_seg bt3 + phase_seg1 bt3 + phase_seg2 bt3));
     tq := tq bt3; prop_seg := prop_seg bt3; phase_seg1 := phase_seg1 bt3;
     phase_seg2 := phase_seg2 bt3; sjw := sjw bt3; brp := brp bt3 |}%Z.

Definition calc_bittiming_defined (sjw_ prop seg1 seg2 brp_ : Z) : bool :=
  (negb (u32 (u32 (u32 sjw_ + u32 prop + u32 seg1 + u32 seg2)
              * u32 (u32 (u32 brp_ * 1000) / (MCBA_CAN_CLOCK / 1000000))) =? 0)
   && negb (u32 (u32 sjw_ + u32 prop + u32 seg1 + u32 seg2) =? 0))%Z.

(** One [case] of the [switch] in [mcba_net_set_bittiming]: the two calls,
    [break] and [return 0]. *)
Definition bittiming_case (sjw_ prop seg1 seg2 brp_ kbps : Z) : M Z :=
  modify_priv (λ p, set_can_bittiming
    (mcba_net_calc_bittiming sjw_ prop seg1 seg2 brp_ (bittiming p)) p) ;;
  mcba_usb_xmit_change_bitrate kbps ;;
  ret 0%Z.

(** [mcba_net_set_bittiming] *)
Definition mcba_net_set_bittiming : M Z :=
  p <- get_priv ;;
  let b := bitrate (bittiming p) in
  if (b =? MCBA_BITRATE_20_KBPS_40MHZ)%Z then bittiming_case 1 5 8 6 100 20
  else if (b =? MCBA_BITRATE_33_3KBPS_40MHZ)%Z then bittiming_case 1 8 8 8 48 33
  else if (b =? MCBA_BITRATE_50KBPS_40MHZ)%Z then bittiming_case 1 8 7 4 40 50
  else if (b =? MCBA_BITRATE_80KBPS_40MHZ)%Z then bittiming_case 1 8 8 8 20 80
  else if (b =? MCBA_BITRATE_83_3KBPS_40MHZ)%Z then bittiming_case 1 8 8 7 20 83
  else if (b =? MCBA_BITRATE_100KBPS_40MHZ)%Z then bittiming_case 1 1 5 3 40 100
  else if (b =? MCBA_BITRATE_125KBPS_40MHZ)%Z then bittiming_case 1 3 8 8 16 125
  else if (b =? MCBA_BITRATE_150KBPS_40MHZ)%Z then bittiming_case 1 8 6 4 14 150
  else if (b =? MCBA_BITRATE_175KBPS_40MHZ)%Z then bittiming_case 1 8 6 4 12 175
  else if (b =? MCBA_BITRATE_200KBPS_40MHZ)%Z then bittiming_case 1 8 8 8 8 200
  else if (b =? MCBA_BITRATE_225KBPS_40MHZ)%Z then bittiming_case 1 8 8 5 8 225
  else if (b =? MCBA_BITRATE_250KBPS_40MHZ)%Z then bittiming_case 1 3 8 8 8 250
  else if (b =? MCBA_BITRATE_275KBPS_40MHZ)%Z then bittiming_case 1 8 8 7 6 275
  else if (b =? MCBA_BITRATE_300KBPS_40MHZ)%Z then bittiming_case 1 8 8 5 6 300
  else if (b =? MCBA_BITRATE_500KBPS_40MHZ)%Z then bittiming_case 1 3 8 8 4 500
  else if (b =? MCBA_BITRATE_625KBPS_40MHZ)%Z then bittiming_case 1 1 4 2 8 625
  else if (b =? MCBA_BITRATE_800KBPS_40MHZ)%Z then bittiming_case 1 8 8 8 2 800
  else if (b =? MCBA_BITRATE_1000KBPS_40MHZ)%Z then bittiming_case 1 3 8 8 2 1000
  else
    netdev_err
      ("Unsupported bittrate (%u). Use one of: 20000, " +:+
       "33333, 50000, 80000, 83333, 100000, 125000, 150000, " +:+
       "175000, 200000, 225000, 250000, 275000, 300000, 500000, " +:+
       "625000, 800000, 1000000") [b] ;;
    ret (- EINVAL)%Z.

(** The rows of the [switch]: the requested bitrate, the arguments of
    [mcba_net_calc_bittiming] and the argument of
    [mcba_usb_xmit_change_bitrate]. *)
Definition bittiming_table : list (Z * (Z * Z * Z * Z * Z) * Z) :=
  [ (MCBA_BITRATE_20_KBPS_40MHZ, (1, 5, 8, 6, 100), 20);
    (MCBA_BITRATE_33_3KBPS_40MHZ, (1, 8, 8, 8, 48), 33);
    (MCBA_BITRATE_50KBPS_40MHZ, (1, 8, 7, 4, 40), 50);
    (MCBA_BITRATE_80KBPS_40MHZ, (1, 8, 8, 8, 20), 80);
    (MCBA_BITRATE_83_3KBPS_40MHZ, (1, 8, 8, 7, 20), 83);
    (MCBA_BITRATE_100KBPS_40MHZ, (1, 1, 5, 3, 40), 100);
    (MCBA_BITRATE_125KBPS_40MHZ, (1, 3, 8, 8, 16), 125);
    (MCBA_BITRATE_150KBPS_40MHZ, (1, 8, 6, 4, 14), 150);
    (MCBA_BITRATE_175KBPS_40MHZ, (1, 8, 6, 4, 12), 175);
    (MCBA_BITRATE_200KBPS_40MHZ, (1, 8, 8, 8, 8), 200);
    (MCBA_BITRATE_225KBPS_40MHZ, (1, 8, 8, 5, 8), 225);
    (MCBA_BITRATE_250KBPS_40MHZ, (1, 3, 8, 8, 8), 250);
    (MCBA_BITRATE_275KBPS_40MHZ, (1, 8, 8, 7, 6), 275);
    (MCBA_BITRATE_300KBPS_40MHZ, (1, 8, 8, 5, 6), 300);
    (MCBA_BITRATE_500KBPS_40MHZ, (1, 3, 8, 8, 4), 500);
    (MCBA_BITRATE_625KBPS_40MHZ, (1, 1, 4, 2, 8), 625);
    (MCBA_BITRATE_800KBPS_40MHZ, (1, 8, 8, 8, 2), 800);
    (MCBA_BITRATE_1000KBPS_40MHZ, (1, 3, 8, 8, 2), 1000) ]%Z.

Definition supported_bitrates : list Z := (λ r, r.1.1) <$> bittiming_table.

End driver.

(** ** Life of the pool and of the driver *)

Section lifecycle.
Context `{hdr : mcba_usb_h}.

(** A context is live while its slot is not marked free. *)
Definition ctx_live (c : mcba_usb_ctx) : Prop := ndx c ≠ MCBA_CTX_FREE.

Definition slot_occupied (i : nat) (tx : list mcba_usb_ctx) : Prop :=
  ∃ c, tx !! i = Some c ∧ ctx_live c.

(** [n] calls of [mcba_usb_get_free_ctx] in a row: the pointers returned and
    the array after the last call. *)
Fixpoint acquire_many (n : nat) (tx : list mcba_usb_ctx)
    : list (option nat) * list mcba_usb_ctx :=
  match n with
  | O => ([], tx)
  | S n' =>
      let r := get_free_ctx tx in
      let rs := acquire_many n' r.2 in
      (r.1 :: rs.1, rs.2)
  end.

(** The states of the context array: [mcba_init_ctx] on an array of
    [MCBA_MAX_TX_URBS] elements, then any sequence of
    [mcba_usb_get_free_ctx], [mcba_usb_free_ctx] on an element of the array,
    and assignments to fields of an element other than [ndx]. *)
Inductive pool_reachable : list mcba_usb_ctx → Prop :=
| pool_init tx :
    length tx = MCBA_MAX_TX_URBS → pool_reachable (init_ctx tx)
| pool_acquire tx :
    pool_reachable tx → pool_reachable (get_free_ctx tx).2
| pool_release tx i :
    pool_reachable tx → i < MCBA_MAX_TX_URBS → pool_reachable (free_ctx i tx)
| pool_assign tx i f :
    pool_reachable tx → (∀ c, ndx (f c) = ndx c) →
    pool_reachable (alter f i tx).

(** The marker of a free slot is not the index of a slot. *)
Definition free_marker_ok : Prop :=
  ∀ i : nat, i < MCBA_MAX_TX_URBS → Z.of_nat i ≠ MCBA_CTX_FREE.

(** Every slot holds the free marker or its own index. *)
Definition pool_inv (tx : list mcba_usb_ctx) : Prop :=
  length tx = MCBA_MAX_TX_URBS ∧
  ∀ i c, tx !! i = Some c → ndx c = MCBA_CTX_FREE ∨ ndx c = Z.of_nat i.

(** Slots below [k] are taken, the others are free. *)
Definition pool_filled (k : nat) (tx : list mcba_usb_ctx) : Prop :=
  length tx = MCBA_MAX_TX_URBS ∧
  ∀ j c, tx !! j = Some c →
    ndx c = if decide (j < k) then Z.of_nat j else MCBA_CTX_FREE.

(** One step of a running driver: an entry point is called, a write URB in
    flight completes, or the rest of the kernel changes something that is not
    the context array or the anchor of the write URBs (both are private to
    the functions above). *)
Inductive driver_step : world → world → Prop :=
| step_start_xmit w cf :
    driver_step w (mcba_usb_start_xmit cf w).2
| step_xmit_cmd w usb_msg :
    driver_step w (mcba_usb_xmit_cmd usb_msg w).2
| step_termination_store w v :
    driver_step w (termination_store v w).2
| step_set_can_bittiming w :
    driver_step w (mcba_net_set_bittiming w).2
| step_read_bulk_callback w u :
    driver_step w (mcba_usb_read_bulk_callback u w).2
| step_write_bulk_callback w k st :
    k < length (tx_submitted (priv w)) →
    driver_step w (usb_giveback_tx_urb k st w).2
| step_kernel w w' :
    tx_context (priv w') = tx_context (priv w) →
    tx_submitted (priv w') = tx_submitted (priv w) →
    driver_step w w'.

(** The states of a started driver: [mcba_usb_start] has run [mcba_init_ctx]
    on the array, no write URB is in flight yet. *)
Inductive driver_reachable : world → Prop :=
| reach_start w :
    length (tx_context (priv w)) = MCBA_MAX_TX_URBS →
    tx_submitted (priv w) = [] →
    driver_reachable (mcba_init_ctx w).2
| reach_step w w' :
    driver_reachable w → driver_step w w' → driver_reachable w'.

(** The three ways [mcba_usb_xmit] fails after it got a context, read off the
    oracle: [usb_alloc_urb] returns null, [usb_alloc_coherent] returns null,
    or [usb_submit_urb] returns an error. *)
Definition xmit_fails (w : world) : Prop :=
  ext w (tick w) = 0%Z ∨
  (ext w (tick w) ≠ 0%Z ∧ ext w (S (tick w)) = 0%Z) ∨
  (ext w (tick w) ≠ 0%Z ∧ ext w (S (tick w)) ≠ 0%Z ∧
   ext w (S (S (tick w))) ≠ 0%Z).

(** The device state other than the context array, the anchor and the
    counters is the same in [p] and [p']. *)
Definition same_device_state (p p' : mcba_priv) : Prop :=
  pic_usb_sw_ver_major p' = pic_usb_sw_ver_major p ∧
  pic_usb_sw_ver_minor p' = pic_usb_sw_ver_minor p ∧
  pic_can_sw_ver_major p' = pic_can_sw_ver_major p ∧
  pic_can_sw_ver_minor p' = pic_can_sw_ver_minor p ∧
  termination_state p' = termination_state p ∧
  bec p' = bec p ∧
  bittiming p' = bittiming p.

(** Slot [i] is taken and no write URB in flight refers to it. *)
Definition leaked (i : nat) (w : world) : Prop :=
  slot_occupied i (tx_context (priv w)) ∧
  ∀ u, u ∈ tx_submitted (priv w) → context u ≠ i.

(** The invariant of a running driver: the array is well formed, and the
    write URBs in flight refer to distinct, taken slots. *)
Definition driver_inv (w : world) : Prop :=
  pool_inv (tx_context (priv w)) ∧
  NoDup (context <$> tx_submitted (priv w)) ∧
  ∀ u, u ∈ tx_submitted (priv w) →
    slot_occupied (context u) (tx_context (priv w)).

(** The URB [mcba_usb_xmit] submits for a message on context [i]. *)
Definition tx_urb (i : nat) (usb_msg : mcba_usb_msg) : urb :=
  {| context := i; transfer_buffer := take MCBA_USB_TX_BUFF_SIZE usb_msg;
     actual_length := 0; status := 0 |}.

(** The complete records of a receive buffer of [len] bytes: the memory from
    each multiple of the record size on, as [mcba_usb_process_rx] gets it. *)
Definition records (buf : list Z) (len : Z) : list mcba_usb_msg :=
  (λ k : nat, drop (Z.to_nat (Z.of_nat k * sizeof_mcba_usb_msg)) buf)
    <$> seq 0 (Z.to_nat (len / sizeof_mcba_usb_msg)).

(** Running [mcba_usb_process_rx] on a list of records in order. *)
Fixpoint process_all (msgs : list mcba_usb_msg) : M unit :=
  match msgs with
  | [] => ret tt
  | m :: msgs' => mcba_usb_process_rx m ;; process_all msgs'
  end.

(** The events [netdev_err("format error")] of a trace. *)
Definition is_format_error (e : event) : bool :=
  match e with
  | NetdevErr fmt _ => bool_decide (fmt = "format error")
  | _ => false
  end.

Definition format_errors (t : list event) : nat :=
  length (filter (λ e, is_format_error e = true) t).

(** The first-sighting notifications of a trace: the firmware version
    lines the keep-alive handlers print when the stored version is still
    undefined. *)
Definition is_version_notice (e : event) : bool :=
  match e with
  | NetdevInfo fmt _ =>
      bool_decide (fmt = "PIC USB version %hhu.%hhu") ||
      bool_decide (fmt = "PIC CAN version %hhu.%hhu")
  | _ => false
  end.

Definition version_notices (t : list event) : list event :=
  filter (λ e, is_version_notice e = true) t.

(** The warnings of a trace. *)
Definition is_warning (e : event) : bool :=
  match e with
  | NetdevWarn _ _ => true
  | _ => false
  end.

Definition warnings (t : list event) : list event :=
  filter (λ e, is_warning e = true) t.

(** The stored firmware versions. *)
Definition usb_version (w : world) : Z * Z :=
  (pic_usb_sw_ver_major (priv w), pic_usb_sw_ver_minor (priv w)).

Definition can_version (w : world) : Z * Z :=
  (pic_can_sw_ver_major (priv w), pic_can_sw_ver_minor (priv w)).

(** Both fields of a stored version still hold the sentinel. *)
Definition version_undefined (v : Z * Z) : bool :=
  ((MCBA_VER_UNDEFINED =? v.1)%Z && (MCBA_VER_UNDEFINED =? v.2)%Z).

End lifecycle.

(** ** A concrete header *)

Definition byte_at (m : list Z) (i : nat) : Z := nth i m 0%Z.

Definition pad_to (n : nat) (l : list Z) : list Z :=
  take n (l ++ replicate n 0%Z).

(** Modelled from the spec: the header [mcba_usb.h] is absent, so this
    instance fixes one for running the functions on concrete inputs.  From
    the spec: a record of 20 bytes whose first byte is the command
    identifier, a pool of 32 contexts, a 4-bit DLC field with a separate bit
    for a remote request, payload arrays of 8 bytes.  The spec does not give
    the marker of a free slot, the undefined-version sentinel, the tested
    firmware versions, the command bytes, the identifier packing or the
    offsets of the fields; the values below stand in for them, and no theorem
    relies on them except to run an example. *)
Definition spec_header : mcba_usb_h := {|
  MCBA_MAX_TX_URBS := 32;
  MCBA_CTX_FREE := 32;
  MCBA_VER_UNDEFINED := 0xff;
  MCBA_VER_USB_MAJOR := 2;
  MCBA_VER_USB_MINOR := 0;
  MCBA_VER_CAN_MAJOR := 2;
  MCBA_VER_CAN_MINOR := 3;
  MCBA_VER_REQ_USB := 1;
  MCBA_VER_REQ_CAN := 2;
  MCBA_IS_USB_DEBUG := λ d, Z.testbit d 0;
  MCBA_IS_CAN_DEBUG := λ d, Z.testbit d 1;
  MBCA_CMD_I_AM_ALIVE_FROM_CAN := 0xf5;
  MBCA_CMD_I_AM_ALIVE_FROM_USB := 0xf7;
  MBCA_CMD_RECEIVE_MESSAGE := 0xe3;
  MBCA_CMD_NOTHING_TO_SEND := 0xff;
  MBCA_CMD_TRANSMIT_MESSAGE_RSP := 0xe2;
  MBCA_CMD_TRANSMIT_MESSAGE_EV := 0xa3;
  MBCA_CMD_CHANGE_BIT_RATE := 0xa1;
  MBCA_CMD_READ_FW_VERSION := 0xa9;
  MBCA_CMD_SETUP_TERMINATION_RESISTANCE := 0xa8;
  MCBA_DLC_MASK := 0xf;
  MCBA_DLC_RTR_MASK := 0x40;
  MCBA_CAN_RTR_MASK := 0x40000000;
  MCBA_RX_IS_EXID := λ m, Z.testbit (sidl m) 3;
  MCBA_RX_IS_RTR := λ m, Z.testbit (dlc m) 6;
  MCBA_CAN_GET_EID := λ m,
    Z.lor 0x80000000
      (Z.lor (Z.shiftl (sidh m) 21)
         (Z.lor (Z.shiftl (Z.shiftr (sidl m) 5) 18)
            (Z.lor (Z.shiftl (Z.land (sidl m) 3) 16)
               (Z.lor (Z.shiftl (eidh m) 8) (eidl m)))));
  MCBA_CAN_GET_SID := λ m, Z.lor (Z.shiftl (sidh m) 3) (Z.shiftr (sidl m) 5);
  MCBA_TX_IS_EXID := λ cf, Z.testbit (can_id cf) 31;
  MCBA_TX_IS_RTR := λ cf, Z.testbit (can_id cf) 30;
  MCBA_SET_E_SIDL := λ id,
    Z.lor (Z.shiftl (Z.land (Z.shiftr id 18) 7) 5)
      (Z.lor 8 (Z.land (Z.shiftr id 16) 3));
  MCBA_SET_E_SIDH := λ id, Z.land (Z.shiftr id 21) 0xff;
  MCBA_SET_EIDL := λ id, Z.land id 0xff;
  MCBA_SET_EIDH := λ id, Z.land (Z.shiftr id 8) 0xff;
  MCBA_SET_S_SIDL := λ id, Z.shiftl (Z.land id 7) 5;
  MCBA_SET_S_SIDH := λ id, Z.land (Z.shiftr id 3) 0xff;
  sizeof_mcba_usb_msg := 20;
  sizeof_usb_msg_data := 8;
  MCBA_USB_TX_BUFF_SIZE := 20;
  MCBA_USB_RX_BUFF_SIZE := 64;
  msg_cmdId := λ m, byte_at m 0;
  cast_msg_can := λ m,
    {| cmdId := byte_at m 0; eidh := byte_at m 1; eidl := byte_at m 2;
       sidh := byte_at m 3; sidl := byte_at m 4; dlc := byte_at m 5;
       data := drop 6 m |};
  cast_msg_keep_alive_usb := λ m,
    {| ka_usb_termination_state := byte_at m 1;
       ka_usb_soft_ver_major := byte_at m 2;
       ka_usb_soft_ver_minor := byte_at m 3 |};
  cast_msg_keep_alive_can := λ m,
    {| tx_err_cnt := byte_at m 1; rx_err_cnt := byte_at m 2;
       rx_buff_ovfl := byte_at m 3; tx_bus_off := byte_at m 4;
       can_bitrate_hi := byte_at m 5; can_bitrate_lo := byte_at m 6;
       rx_lost_hi := byte_at m 7; rx_lost_lo := byte_at m 8;
       can_stat := byte_at m 9; soft_ver_major := byte_at m 10;
       soft_ver_minor := byte_at m 11; debug_mode := byte_at m 12;
       test_complete := byte_at m 13; test_result := byte_at m 14 |};
  msg_of_can := λ c,
    pad_to 20 ([cmdId c; eidh c; eidl c; sidh c; sidl c; dlc c]
               ++ take 8 (data c));
  msg_of_change_bitrate := λ c,
    pad_to 20 [cmd_id c; bitrate_hi c; bitrate_lo c];
  msg_of_fw_ver := λ c, pad_to 20 [fw_cmdId c; pic c];
  msg_of_terminaton := λ c, pad_to 20 [term_cmdId c; termination c]
|}.

(** A started device and a quiet environment for the examples: every slot
    free, both firmware versions undefined, every allocation and submission
    succeeds and the device is present. *)
Definition example_priv : mcba_priv :=
  {| tx_context :=
       replicate 32 {| ndx := 32; ctx_priv := false; ctx_dlc := 0;
                       can := false |};
     tx_submitted := [];
     pic_usb_sw_ver_major := 0xff; pic_usb_sw_ver_minor := 0xff;
     pic_can_sw_ver_major := 0xff; pic_can_sw_ver_minor := 0xff;
     termination_state := 0;
     bec := {| txerr := 0; rxerr := 0 |};
     bittiming := {| bitrate := 0; sample_point := 0; tq := 0; prop_seg := 0;
                     phase_seg1 := 0; phase_seg2 := 0; sjw := 0; brp := 0 |};
     stats := {| rx_packets := 0; rx_bytes := 0; tx_packets := 0;
                 tx_bytes := 0; tx_dropped := 0 |} |}.

(** Oracle of the quiet environment: pointers are non-null at the calls that
    return one, [usb_submit_urb] returns 0.  [mcba_usb_xmit] makes three calls
    (two allocations, then the submission) from tick 0. *)
Definition example_world : world :=
  {| priv := example_priv; debug := 0; trace := [];
     ext := λ n, if (n <? 2)%nat then 1%Z else 0%Z; tick := 0 |}.

(** The same device when the kernel is out of memory: every allocation
    returns the null pointer. *)
Definition example_world_nomem : world :=
  {| priv := example_priv; debug := 0; trace := [];
     ext := λ _, 0%Z; tick := 0 |}.

(** The quiet environment with a bitrate requested by the CAN core. *)
Definition example_world_bitrate (b : Z) : world :=
  (modify_priv (set_can_bittiming
     {| bitrate := b; sample_point := 0; tq := 0; prop_seg := 0;
        phase_seg1 := 0; phase_seg2 := 0; sjw := 0; brp := 0 |})
     example_world).2.

(** ** Further parts of the driver *)

Definition ENOMEM : Z := 12.

(** [enum can_state] of the CAN core. *)
Inductive can_state :=
| CAN_STATE_ERROR_ACTIVE
| CAN_STATE_ERROR_WARNING
| CAN_STATE_ERROR_PASSIVE
| CAN_STATE_BUS_OFF
| CAN_STATE_STOPPED
| CAN_STATE_SLEEPING.

(** The fields of [struct mcba_priv] that [mcba_usb_start] and
    [mcba_urb_unlink] use besides the ones above: [priv->can.state] and the
    anchor [priv->rx_submitted] of the read URBs.  They are passed to the
    two functions beside the world. *)
Record mcba_rx := {
  can_dev_state : can_state;
  rx_submitted : list urb
}.

Section start.
Context `{hdr : mcba_usb_h}.

(** [MCBA_MAX_RX_URBS] of the absent header, and the memory
    [usb_alloc_coherent] returns for the read URB of iteration [i]. *)
Variable MCBA_MAX_RX_URBS : nat.
Variable rx_buf : nat → list Z.

(** The read URB [usb_fill_bulk_urb] sets up in iteration [i]; its context
    is [priv] itself, no element of the context array. *)
Definition rx_urb (i : nat) : urb :=
  {| context := 0; transfer_buffer := rx_buf i; actual_length := 0;
     status := 0 |}.

(** The [for] loop of [mcba_usb_start], iterations [i .. i + n - 1]: the
    value of [i] after the loop, the value of [err] ([None] while the
    variable has not been assigned) and the anchor.  [usb_anchor_urb]
    followed by [usb_unanchor_urb] on a failed submission leaves the anchor
    as it was. *)
Fixpoint start_rx_loop (n i : nat) (err : option Z) (rx : list urb)
    : M (nat * option Z * list urb) :=
  match n with
  | O => ret (i, err, rx)
  | S n' =>
      urb_ok <- usb_alloc_urb ;;
      if negb urb_ok then
        netdev_err "No memory left for URBs" [] ;;
        ret (i, Some (- ENOMEM)%Z, rx)
      else
        buf_ok <- usb_alloc_coherent ;;
        if negb buf_ok then
          netdev_err "No memory left for USB buffer" [] ;;
          ret (i, Some (- ENOMEM)%Z, rx)
        else
          e <- usb_submit_urb (rx_urb i) ;;
          if negb (e =? 0)%Z then ret (i, Some e, rx)
          else start_rx_loop n' (S i) (Some e) (rx ++ [rx_urb i])
  end.

(** [mcba_usb_start]: the return value and the two fields after the call. *)
Definition mcba_usb_start (rx : mcba_rx) : M (option Z * mcba_rx) :=
  r <- start_rx_loop MCBA_MAX_RX_URBS 0 None (rx_submitted rx) ;;
  if (r.1.1 =? 0)%nat then
    netdev_warn "couldn't setup read URBs" [] ;;
    ret (r.1.2, {| can_dev_state := can_dev_state rx;
                   rx_submitted := r.2 |})
  else
    when (r.1.1 <? MCBA_MAX_RX_URBS)%nat
      (netdev_warn "rx performance may be slow" []) ;;
    mcba_init_ctx ;;
    mcba_usb_xmit_read_fw_ver MCBA_VER_REQ_USB ;;
    mcba_usb_xmit_read_fw_ver MCBA_VER_REQ_CAN ;;
    ret (r.1.2, {| can_dev_state := CAN_STATE_ERROR_ACTIVE;
                   rx_submitted := r.2 |}).

End start.

Section attribute_and_unlink.
Context `{hdr : mcba_usb_h}.

(** [termination_show]: [sprintf] writes the termination state, an
    [unsigned char], in decimal and a newline to [buf]; the return value is
    the number of characters written. *)
Definition termination_show : M (Z * string) :=
  p <- get_priv ;;
  let buf := pretty (u8 (termination_state p)) +:+ String (Ascii.ascii_of_nat 10) EmptyString in
  ret (Z.of_nat (String.length buf), buf).

(** [usb_kill_anchored_urbs] on the anchor of the read URBs: as long as
    the anchor is not empty, the USB core takes the last URB off it and
    cancels it, and the completion handler of the URB runs with the status
    [-ENOENT].  The result is the anchor that is left; [n] bounds the number
    of URBs taken off. *)
Fixpoint kill_rx_urbs (n : nat) (rx : list urb) : M (list urb) :=
  match n with
  | O => ret rx
  | S n' =>
      match rx !! (length rx - 1) with
      | None => ret rx
      | Some u =>
          mcba_usb_read_bulk_callback
            {| context := context u; transfer_buffer := transfer_buffer u;
               actual_length := actual_length u; status := - ENOENT |} ;;
          kill_rx_urbs n' (delete (length rx - 1) rx)
      end
  end.

(** [usb_kill_anchored_urbs] on the anchor of the write URBs, in the same
    way. *)
Fixpoint kill_tx_urbs (n : nat) : M unit :=
  match n with
  | O => ret tt
  | S n' =>
      p <- get_priv ;;
      match tx_submitted p with
      | [] => ret tt
      | _ :: _ =>
          usb_giveback_tx_urb (length (tx_submitted p) - 1) (- ENOENT) ;;
          kill_tx_urbs n'
      end
  end.

(** [mcba_urb_unlink] *)
Definition mcba_urb_unlink (rx : mcba_rx) : M mcba_rx :=
  rx' <- kill_rx_urbs (length (rx_submitted rx)) (rx_submitted rx) ;;
  p <- get_priv ;;
  kill_tx_urbs (length (tx_submitted p)) ;;
  ret {| can_dev_state := can_dev_state rx; rx_submitted := rx' |}.

End attribute_and_unlink.

Section observations.
Context `{hdr : mcba_usb_h}.

(** The message [mcba_usb_start_xmit] builds from a frame before it hands it
    to [mcba_usb_xmit]. *)
Definition start_xmit_msg (cf : can_frame) : mcba_usb_msg_can :=
  let ext_id := MCBA_TX_IS_EXID cf in
  let dlc0 := u8 (can_dlc cf) in
  {| cmdId := MBCA_CMD_TRANSMIT_MESSAGE_EV;
     data := take sizeof_usb_msg_data (cf_data cf);
     sidl := u8 (if ext_id then MCBA_SET_E_SIDL (can_id cf)
                 else MCBA_SET_S_SIDL (can_id cf));
     sidh := u8 (if ext_id then MCBA_SET_E_SIDH (can_id cf)
                 else MCBA_SET_S_SIDH (can_id cf));
     eidl := u8 (if ext_id then MCBA_SET_EIDL (can_id cf) else 0%Z);
     eidh := u8 (if ext_id then MCBA_SET_EIDH (can_id cf) else 0%Z);
     dlc := if MCBA_TX_IS_RTR cf then u8 (Z.lor dlc0 MCBA_DLC_RTR_MASK)
            else dlc0 |}.

(** Reading a CAN record through the pointer cast gives back the length
    byte and the payload array that were stored in it. *)
Definition can_record_layout_ok : Prop :=
  ∀ m, length (data m) = sizeof_usb_msg_data → (0 ≤ dlc m < 256)%Z →
    dlc (cast_msg_can (msg_of_can m)) = dlc m ∧
    take sizeof_usb_msg_data (data (cast_msg_can (msg_of_can m))) = data m.

(** A slot as [mcba_usb_free_ctx] leaves it. *)
Definition free_slot : mcba_usb_ctx :=
  {| ndx := MCBA_CTX_FREE; ctx_priv := false; ctx_dlc := 0; can := false |}.

(** What the statements after the label [resubmit_urb] log, by the value
    [usb_submit_urb] returned. *)
Definition resubmit_events (u : urb) (retval : Z) : list event :=
  UsbSubmitUrb u ::
  (if (retval =? - ENODEV)%Z then [NetifDeviceDetach]
   else if negb (retval =? 0)%Z then
     [NetdevErr "failed resubmitting read bulk urb: %d" [retval]]
   else []).

(** The events the completion handler of a write URB can add to the
    trace: the echo of a frame, the waking of the queue and the line about
    an aborted URB. *)
Definition is_tx_completion_event (e : event) : bool :=
  match e with
  | CanGetEchoSkb _ | NetifWakeQueue => true
  | NetdevInfo fmt _ => bool_decide (fmt = "Tx URB aborted (%d)")
  | _ => false
  end.

(** The frames handed to the network stack in a trace. *)
Definition delivered (t : list event) : list can_frame :=
  omap (λ e, match e with NetifRx cf => Some cf | _ => None end) t.

(** The part of the device state that belongs to the transmit side and to
    the bit timing is the same in [p] and [p']. *)
Definition same_tx_state (p p' : mcba_priv) : Prop :=
  tx_context p' = tx_context p ∧
  tx_submitted p' = tx_submitted p ∧
  bittiming p' = bittiming p ∧
  tx_packets (stats p') = tx_packets (stats p) ∧
  tx_bytes (stats p') = tx_bytes (stats p) ∧
  tx_dropped (stats p') = tx_dropped (stats p).



(** The warnings [mcba_usb_process_rx] prints for the records of a list that
    carry a command it does not know. *)
Definition unsupported_warnings (msgs : list mcba_usb_msg) : list event :=
  concat ((λ m,
    if (msg_cmdId m =? MBCA_CMD_NOTHING_TO_SEND)%Z
       || (msg_cmdId m =? MBCA_CMD_TRANSMIT_MESSAGE_RSP)%Z
    then []
    else [NetdevWarn "Unsupported msg (0x%hhX)" [msg_cmdId m]]) <$> msgs).

(** The two allocations and the submission that are made from call [t] of
    the oracle on succeed. *)
Definition transfer_ok (e : nat → Z) (t : nat) : Prop :=
  e t ≠ 0%Z ∧ e (S t) ≠ 0%Z ∧ e (S (S t)) = 0%Z.

End observations.

(** A quiet environment that lasts: of every three calls of the oracle the
    first two return a non-null pointer (or "present") and the third
    returns 0, as a successful [usb_submit_urb] does. *)
Definition example_world_steady : world :=
  {| priv := example_priv; debug := 0; trace := [];
     ext := λ n, if (n mod 3 =? 2)%nat then 0%Z else 1%Z; tick := 0 |}.

(** * Properties *)

Lemma bind_eq {A B} (m : M A) (k : A → M B) w :
  bind m k w = k (m w).1 (m w).2.
Proof. reflexivity. Qed.

(** Symbolic execution of a monadic program on a world, in a hypothesis:
    unfold one [bind] at a time and reduce the primitive that runs first. *)
Ltac mrun_in H :=
  repeat first
    [ rewrite bind_eq in H
    | progress unfold get_priv, get_debug, modify_priv, emit, extern, ret,
        when, netdev_info, netdev_warn, netdev_err, modify_ctx, ctx_ndx,
        usb_alloc_urb, usb_alloc_coherent, usb_submit_urb,
        netif_device_present, alloc_can_skb, xmit_nomem,
        mcba_usb_get_free_ctx, mcba_usb_free_ctx in H
    | progress cbn [fst snd priv debug trace ext tick negb] in H ].



(** ** Transmit context pool *)

Section pool_facts.
Context `{hdr : mcba_usb_h}.

Lemma init_ctx_loop_length n i tx :
  length (init_ctx_loop n i tx) = length tx.
Proof.
  revert i tx. induction n as [|n IH]; intros i tx; simpl; [done|].
  by rewrite IH, length_alter.
Qed.

Lemma init_ctx_loop_lookup n i tx j c :
  init_ctx_loop n i tx !! j = Some c →
  (i ≤ j < i + n ∧ ndx c = MCBA_CTX_FREE) ∨
  (¬ (i ≤ j < i + n) ∧ tx !! j = Some c).
Proof.
  revert i tx. induction n as [|n IH]; intros i tx; simpl.
  - intros ?. right. split; [lia|done].
  - intros Hl. apply IH in Hl as [[Hr Hf]|[Hr Hl]].
    + left. split; [lia|done].
    + destruct (decide (i = j)) as [->|Hne].
      * rewrite list_lookup_alter_eq in Hl.
        destruct (tx !! j) as [c0|]; simplify_eq/=.
        left. split; [lia|done].
      * rewrite list_lookup_alter_ne in Hl by done.
        right. split; [lia|done].
Qed.

Lemma init_ctx_filled tx :
  length tx = MCBA_MAX_TX_URBS → pool_filled 0 (init_ctx tx).
Proof.
  intros Hlen. split.
  - unfold init_ctx. by rewrite init_ctx_loop_length.
  - intros j c Hl. destruct (decide (j < 0)); [lia|].
    unfold init_ctx in Hl.
    pose proof (lookup_lt_Some _ _ _ Hl) as Hj.
    rewrite init_ctx_loop_length in Hj.
    apply init_ctx_loop_lookup in Hl as [[_ ?]|[Hr _]]; [done|lia].
Qed.

Lemma get_free_ctx_loop_spec n i tx :
  match (get_free_ctx_loop n i tx).1 with
  | Some k =>
      i ≤ k < i + n ∧
      (∃ c, tx !! k = Some c ∧ ndx c = MCBA_CTX_FREE ∧
            (get_free_ctx_loop n i tx).2 =
              <[k := {| ndx := Z.of_nat k; ctx_priv := true;
                        ctx_dlc := ctx_dlc c; can := can c |}]> tx) ∧
      (∀ j c, i ≤ j < k → tx !! j = Some c → ndx c ≠ MCBA_CTX_FREE)
  | None =>
      (get_free_ctx_loop n i tx).2 = tx ∧
      (∀ j c, i ≤ j < i + n → tx !! j = Some c → ndx c ≠ MCBA_CTX_FREE)
  end.
Proof.
  revert i. induction n as [|n IH]; intros i; simpl.
  - split; [done|]. intros; lia.
  - destruct (tx !! i) as [c|] eqn:Hi; simpl.
    + destruct (ndx c =? MCBA_CTX_FREE)%Z eqn:Hc; simpl.
      * apply Z.eqb_eq in Hc. split; [lia|]. split; [by exists c|].
        intros; lia.
      * apply Z.eqb_neq in Hc. specialize (IH (S i)).
        destruct (get_free_ctx_loop n (S i) tx).1 as [k|].
        -- destruct IH as (Hk & Hc' & Hlow). split; [lia|]. split; [done|].
           intros j c' Hj Hl. destruct (decide (j = i)) as [->|].
           ++ by simplify_eq.
           ++ apply (Hlow j); [lia|done].
        -- destruct IH as (Heq & Hall). split; [done|].
           intros j c' Hj Hl. destruct (decide (j = i)) as [->|].
           ++ by simplify_eq.
           ++ apply (Hall j); [lia|done].
    + split; [done|]. intros j c Hj Hl.
      apply lookup_ge_None_1 in Hi. apply lookup_lt_Some in Hl. lia.
Qed.

Lemma get_free_ctx_length tx :
  length (get_free_ctx tx).2 = length tx.
Proof.
  unfold get_free_ctx.
  pose proof (get_free_ctx_loop_spec MCBA_MAX_TX_URBS 0 tx) as Hs.
  destruct (get_free_ctx_loop MCBA_MAX_TX_URBS 0 tx).1.
  - destruct Hs as (_ & (c & _ & _ & ->) & _). by rewrite length_insert.
  - by destruct Hs as [-> _].
Qed.

Lemma free_ctx_length i tx : length (free_ctx i tx) = length tx.
Proof. apply length_alter. Qed.

(** The invariant of the array. *)
Lemma pool_reachable_inv tx : pool_reachable tx → pool_inv tx.
Proof.
  induction 1 as [tx Hlen|tx _ [Hlen IH]|tx i _ [Hlen IH] Hi
                 |tx i f _ [Hlen IH] Hf].
  - destruct (init_ctx_filled tx Hlen) as [Hl Hall]. split; [done|].
    intros i c Hc. left. rewrite (Hall i c Hc).
    destruct (decide (i < 0)); [lia|done].
  - split; [by rewrite get_free_ctx_length|].
    unfold get_free_ctx.
    pose proof (get_free_ctx_loop_spec MCBA_MAX_TX_URBS 0 tx) as Hs.
    destruct (get_free_ctx_loop MCBA_MAX_TX_URBS 0 tx).1 as [k|].
    + destruct Hs as (_ & (c & Hk & _ & ->) & _). intros i c' Hl.
      destruct (decide (k = i)) as [->|Hne].
      * rewrite list_lookup_insert_eq in Hl by (by eapply lookup_lt_Some).
        simplify_eq/=. by right.
      * rewrite list_lookup_insert_ne in Hl by done. by apply IH.
    + destruct Hs as [-> _]. done.
  - split; [by rewrite free_ctx_length|]. intros j c Hl. unfold free_ctx in Hl.
    destruct (decide (i = j)) as [->|Hne].
    + rewrite list_lookup_alter_eq in Hl.
      destruct (tx !! j); simplify_eq/=. by left.
    + rewrite list_lookup_alter_ne in Hl by done. by apply IH.
  - split; [by rewrite length_alter|]. intros j c Hl.
    destruct (decide (i = j)) as [->|Hne].
    + rewrite list_lookup_alter_eq in Hl.
      destruct (tx !! j) as [c0|] eqn:Hj; simplify_eq/=.
      rewrite Hf. by apply IH.
    + rewrite list_lookup_alter_ne in Hl by done. by apply IH.
Qed.

Lemma get_free_ctx_filled k tx :
  free_marker_ok → k < MCBA_MAX_TX_URBS → pool_filled k tx →
  (get_free_ctx tx).1 = Some k ∧ pool_filled (S k) (get_free_ctx tx).2.
Proof.
  intros Hm Hk [Hlen Hall]. unfold get_free_ctx.
  pose proof (get_free_ctx_loop_spec MCBA_MAX_TX_URBS 0 tx) as Hs.
  destruct (lookup_lt_is_Some_2 tx k) as [ck Hck]; [lia|].
  pose proof (Hall k ck Hck) as Hfree.
  destruct (decide (k < k)); [lia|].
  destruct (get_free_ctx_loop MCBA_MAX_TX_URBS 0 tx).1 as [k'|].
  - destruct Hs as (Hk' & (c & Hc & Hcf & ->) & Hlow).
    assert (k' = k) as ->.
    { destruct (decide (k' < k)) as [Hlt|].
      - pose proof (Hall k' c Hc) as Hn. destruct (decide (k' < k)); [|lia].
        exfalso. apply (Hm k'); [lia|]. congruence.
      - destruct (decide (k < k')) as [Hgt|]; [|lia].
        exfalso. by apply (Hlow k ck); [lia|done|]. }
    split; [done|]. split; [by rewrite length_insert|].
    intros j cj Hl. destruct (decide (k = j)) as [->|Hne].
    + rewrite list_lookup_insert_eq in Hl by (by eapply lookup_lt_Some).
      simplify_eq/=. destruct (decide (j < S j)); [done|lia].
    + rewrite list_lookup_insert_ne in Hl by done.
      rewrite (Hall j cj Hl).
      destruct (decide (j < k)), (decide (j < S k)); try done; lia.
  - destruct Hs as [_ Hnone]. exfalso. by apply (Hnone k ck); [lia|done|].
Qed.

Lemma get_free_ctx_exhausted tx :
  (∀ j c, tx !! j = Some c → ndx c ≠ MCBA_CTX_FREE) →
  get_free_ctx tx = (None, tx).
Proof.
  intros Hall. unfold get_free_ctx.
  pose proof (get_free_ctx_loop_spec MCBA_MAX_TX_URBS 0 tx) as Hs.
  destruct (get_free_ctx_loop MCBA_MAX_TX_URBS 0 tx) as [[k|] tx'] eqn:He;
    simpl in Hs.
  - destruct Hs as (_ & (c & Hc & Hcf & _) & _). by destruct (Hall k c Hc).
  - by destruct Hs as [-> _].
Qed.

Lemma acquire_many_filled n k tx :
  free_marker_ok → k + n ≤ MCBA_MAX_TX_URBS → pool_filled k tx →
  (acquire_many n tx).1 = Some <$> seq k n ∧
  pool_filled (k + n) (acquire_many n tx).2.
Proof.
  intros Hm. revert k tx. induction n as [|n IH]; intros k tx Hk Hf; simpl.
  - split; [done|]. by rewrite Nat.add_0_r.
  - destruct (get_free_ctx_filled k tx Hm) as [Hr Hf']; [lia|done|].
    destruct (IH (S k) (get_free_ctx tx).2) as [Hrs Hf'']; [lia|done|].
    rewrite Hr, Hrs. split; [done|]. by replace (k + S n) with (S k + n) by lia.
Qed.

Lemma pool_filled_full_exhausted tx :
  free_marker_ok → pool_filled MCBA_MAX_TX_URBS tx →
  get_free_ctx tx = (None, tx).
Proof.
  intros Hm [Hlen Hall]. apply get_free_ctx_exhausted. intros j c Hl.
  pose proof (lookup_lt_Some _ _ _ Hl) as Hj. rewrite (Hall j c Hl).
  destruct (decide (j < MCBA_MAX_TX_URBS)); [|lia]. apply Hm. lia.
Qed.

(** If no slot is free, releasing slot [j] makes [j] the slot of the next
    acquisition, and the pool is exhausted again after it. *)
Lemma release_then_acquire tx j :
  free_marker_ok → pool_inv tx → (get_free_ctx tx).1 = None →
  j < MCBA_MAX_TX_URBS →
  (get_free_ctx (free_ctx j tx)).1 = Some j ∧
  (get_free_ctx (get_free_ctx (free_ctx j tx)).2).1 = None.
Proof.
  intros Hm [Hlen Hinv] Hnone Hj.
  assert (∀ i c, tx !! i = Some c → ndx c ≠ MCBA_CTX_FREE) as Hfull.
  { intros i c Hl. unfold get_free_ctx in Hnone.
    pose proof (get_free_ctx_loop_spec MCBA_MAX_TX_URBS 0 tx) as Hs.
    rewrite Hnone in Hs. destruct Hs as [_ Hall]. apply (Hall i); [|done].
    apply lookup_lt_Some in Hl. lia. }
  destruct (lookup_lt_is_Some_2 tx j) as [cj Hcj]; [lia|].
  assert (∀ i c, free_ctx j tx !! i = Some c →
            (i = j ∧ ndx c = MCBA_CTX_FREE) ∨
            (i ≠ j ∧ tx !! i = Some c)) as Hfreed.
  { intros i c Hl. unfold free_ctx in Hl.
    destruct (decide (j = i)) as [->|Hne].
    - rewrite list_lookup_alter_eq, Hcj in Hl. simplify_eq/=. by left.
    - rewrite list_lookup_alter_ne in Hl by done. right. done. }
  assert (is_Some (free_ctx j tx !! j)) as [cf Hcf].
  { apply lookup_lt_is_Some_2. rewrite free_ctx_length. lia. }
  pose proof (get_free_ctx_loop_spec MCBA_MAX_TX_URBS 0 (free_ctx j tx)) as Hs.
  unfold get_free_ctx at 1 3.
  destruct (get_free_ctx_loop MCBA_MAX_TX_URBS 0 (free_ctx j tx)) as [[k|] tx1]
    eqn:He; simpl in Hs |- *.
  - destruct Hs as (_ & (c & Hc & Hcfree & ->) & _).
    destruct (Hfreed k c Hc) as [[-> _]|[_ Hold]];
      [|by destruct (Hfull k c Hold)].
    split; [done|]. rewrite get_free_ctx_exhausted; [done|].
    intros i ci Hl. destruct (decide (j = i)) as [->|Hne].
    + rewrite list_lookup_insert_eq in Hl by (by eapply lookup_lt_Some).
      simplify_eq/=. by apply Hm.
    + rewrite list_lookup_insert_ne in Hl by done.
      destruct (Hfreed i ci Hl) as [[? _]|[_ Hold]]; [done|].
      by apply (Hfull i).
  - destruct Hs as [_ Hall]. exfalso.
    destruct (Hfreed j cf Hcf) as [[_ Hfree]|[? _]]; [|done].
    by apply (Hall j cf); [lia|done|].
Qed.

(** Two live contexts in different slots carry different indices. *)
Lemma pool_inv_distinct tx i j ci cj :
  pool_inv tx → tx !! i = Some ci → tx !! j = Some cj → i ≠ j →
  ctx_live ci → ctx_live cj → ndx ci ≠ ndx cj.
Proof.
  intros [_ Hinv] Hi Hj Hne Hli Hlj.
  destruct (Hinv i ci Hi) as [?|Hxi]; [done|].
  destruct (Hinv j cj Hj) as [?|Hxj]; [done|].
  rewrite Hxi, Hxj. lia.
Qed.

(** C2: from an all-free pool of [MCBA_MAX_TX_URBS] contexts, that many
    acquisitions in a row succeed on the slots 0, 1, ... in turn, which are
    pairwise distinct, and one more returns the null pointer; whenever the
    pool is exhausted, releasing any one context lets exactly one further
    acquisition succeed; and in every reachable state of the pool two live
    contexts never carry the same slot index. *)
Theorem ctx_pool_acquire_release :
  free_marker_ok →
  ∀ tx0, length tx0 = MCBA_MAX_TX_URBS →
  let pool0 := init_ctx tx0 in
  let acquired := acquire_many MCBA_MAX_TX_URBS pool0 in
  acquired.1 = Some <$> seq 0 MCBA_MAX_TX_URBS ∧
  NoDup acquired.1 ∧
  (get_free_ctx acquired.2).1 = None ∧
  (∀ tx j, pool_reachable tx → (get_free_ctx tx).1 = None →
     j < MCBA_MAX_TX_URBS →
     (get_free_ctx (free_ctx j tx)).1 = Some j ∧
     (get_free_ctx (get_free_ctx (free_ctx j tx)).2).1 = None) ∧
  (∀ tx i j ci cj, pool_reachable tx →
     tx !! i = Some ci → tx !! j = Some cj → i ≠ j →
     ctx_live ci → ctx_live cj → ndx ci ≠ ndx cj).
Proof.
  intros Hm tx0 Hlen pool0 acquired.
  destruct (acquire_many_filled MCBA_MAX_TX_URBS 0 pool0 Hm) as [Hacq Hfull];
    [lia|by apply init_ctx_filled|].
  fold acquired in Hacq, Hfull. split; [done|]. split.
  { rewrite Hacq. apply NoDup_fmap_2; [intros ?? [=]; done|apply NoDup_seq]. }
  split.
  { by rewrite (pool_filled_full_exhausted _ Hm Hfull). }
  split.
  - intros tx j Hr Hnone Hj.
    apply release_then_acquire; [done|by apply pool_reachable_inv|done|done].
  - intros tx i j ci cj Hr. apply pool_inv_distinct.
    by apply pool_reachable_inv.
Qed.

End pool_facts.

Lemma ctx_pool_acquire_release_witness :
  let tx0 := tx_context example_priv in
  @free_marker_ok spec_header ∧
  length tx0 = @MCBA_MAX_TX_URBS spec_header ∧
  (acquire_many (hdr := spec_header) 32 (init_ctx (hdr := spec_header) tx0)).1
    = Some <$> seq 0 32.
Proof.
  assert (@free_marker_ok spec_header) as Hm.
  { intros i Hi. simpl in *. lia. }
  split; [exact Hm|]. split; [reflexivity|].
  exact (proj1 (ctx_pool_acquire_release (hdr := spec_header) Hm
                  (tx_context example_priv) eq_refl)).
Defined.

(** ** Keep-alive handlers *)

Section keep_alive_facts.
Context `{hdr : mcba_usb_h}.

(** What [mcba_usb_process_keep_alive_usb] leaves behind. *)
Lemma keep_alive_usb_world msg w :
  let w' := (mcba_usb_process_keep_alive_usb msg w).2 in
  priv w' =
    set_termination_state (ka_usb_termination_state msg)
      (set_pic_usb_sw_ver (ka_usb_soft_ver_major msg)
         (ka_usb_soft_ver_minor msg) (priv w)) ∧
  debug w' = debug w ∧ ext w' = ext w ∧ tick w' = tick w ∧
  trace w' =
    trace w
    ++ (if MCBA_IS_USB_DEBUG (debug w) then
          [NetdevInfo "USB_KA: termination %hhu, ver_maj %hhu, soft_min %hhu"
             [ka_usb_termination_state msg; ka_usb_soft_ver_major msg;
              ka_usb_soft_ver_minor msg]]
        else [])
    ++ (if version_undefined (usb_version w) then
          NetdevInfo "PIC USB version %hhu.%hhu"
            [ka_usb_soft_ver_major msg; ka_usb_soft_ver_minor msg]
          :: (if negb (MCBA_VER_USB_MAJOR =? ka_usb_soft_ver_major msg)%Z &&
                 (MCBA_VER_USB_MINOR =? ka_usb_soft_ver_minor msg)%Z
              then [NetdevWarn
                      "Driver tested against PIC USB %hhu.%hhu version only"
                      [MCBA_VER_USB_MAJOR; MCBA_VER_USB_MINOR]]
              else [])
        else []).
Proof.
  unfold mcba_usb_process_keep_alive_usb, version_undefined, usb_version,
    bind, when, get_debug, get_priv, netdev_info, netdev_warn, emit,
    modify_priv, ret; simpl.
  destruct (MCBA_IS_USB_DEBUG (debug w)); simpl;
    destruct (MCBA_VER_UNDEFINED =? pic_usb_sw_ver_major (priv w))%Z,
             (MCBA_VER_UNDEFINED =? pic_usb_sw_ver_minor (priv w))%Z; simpl;
    try destruct (MCBA_VER_USB_MAJOR =? ka_usb_soft_ver_major msg)%Z; simpl;
    try destruct (MCBA_VER_USB_MINOR =? ka_usb_soft_ver_minor msg)%Z; simpl;
    rewrite <- ?app_assoc, ?app_nil_r; done.
Qed.

(** What [mcba_usb_process_keep_alive_can] leaves behind. *)
Lemma keep_alive_can_world msg w :
  let w' := (mcba_usb_process_keep_alive_can msg w).2 in
  priv w' =
    set_pic_can_sw_ver (soft_ver_major msg) (soft_ver_minor msg)
      (set_bec {| txerr := tx_err_cnt msg; rxerr := rx_err_cnt msg |}
         (priv w)) ∧
  debug w' = debug w ∧ ext w' = ext w ∧ tick w' = tick w ∧
  ∃ dbg,
    Forall (λ e, is_version_notice e = false ∧ is_warning e = false
                 ∧ is_format_error e = false) dbg ∧
    trace w' =
      trace w ++ dbg
      ++ (if version_undefined (can_version w) then
            NetdevInfo "PIC CAN version %hhu.%hhu"
              [soft_ver_major msg; soft_ver_minor msg]
            :: (if negb (MCBA_VER_CAN_MAJOR =? soft_ver_major msg)%Z &&
                   (MCBA_VER_CAN_MINOR =? soft_ver_minor msg)%Z
                then [NetdevWarn
                        "Driver tested against PIC CAN %hhu.%hhu version only"
                        [MCBA_VER_CAN_MAJOR; MCBA_VER_CAN_MINOR]]
                else [])
          else []).
Proof.
  unfold mcba_usb_process_keep_alive_can, version_undefined, can_version,
    bind, when, get_debug, get_priv, netdev_info, netdev_warn, emit,
    modify_priv, ret; simpl.
  destruct (MCBA_IS_CAN_DEBUG (debug w)); simpl;
    destruct (MCBA_VER_UNDEFINED =? pic_can_sw_ver_major (priv w))%Z,
             (MCBA_VER_UNDEFINED =? pic_can_sw_ver_minor (priv w))%Z; simpl;
    try destruct (MCBA_VER_CAN_MAJOR =? soft_ver_major msg)%Z; simpl;
    try destruct (MCBA_VER_CAN_MINOR =? soft_ver_minor msg)%Z; simpl;
    (split; [done|]); (split; [done|]); (split; [done|]); (split; [done|]);
    first
      [ (exists []; split;
         [constructor
         |rewrite <- ?app_assoc, ?app_nil_r; simpl; reflexivity])
      | (eexists [NetdevInfo _ _]; split;
         last (rewrite <- ?app_assoc, ?app_nil_r; simpl; reflexivity);
         repeat constructor) ].
Qed.

Lemma keep_alive_usb_warnings msg w :
  version_undefined (usb_version w) = true →
  warnings (trace (mcba_usb_process_keep_alive_usb msg w).2) =
    warnings (trace w)
    ++ (if negb (MCBA_VER_USB_MAJOR =? ka_usb_soft_ver_major msg)%Z &&
           (MCBA_VER_USB_MINOR =? ka_usb_soft_ver_minor msg)%Z
        then [NetdevWarn "Driver tested against PIC USB %hhu.%hhu version only"
                [MCBA_VER_USB_MAJOR; MCBA_VER_USB_MINOR]]
        else []).
Proof.
  intros Hu. destruct (keep_alive_usb_world msg w) as (_ & _ & _ & _ & ->).
  rewrite Hu. unfold warnings. rewrite !filter_app.
  f_equal.
  destruct (MCBA_IS_USB_DEBUG (debug w));
    destruct (negb (MCBA_VER_USB_MAJOR =? ka_usb_soft_ver_major msg)%Z &&
              (MCBA_VER_USB_MINOR =? ka_usb_soft_ver_minor msg)%Z);
    reflexivity.
Qed.

Lemma keep_alive_can_warnings msg w :
  version_undefined (can_version w) = true →
  warnings (trace (mcba_usb_process_keep_alive_can msg w).2) =
    warnings (trace w)
    ++ (if negb (MCBA_VER_CAN_MAJOR =? soft_ver_major msg)%Z &&
           (MCBA_VER_CAN_MINOR =? soft_ver_minor msg)%Z
        then [NetdevWarn "Driver tested against PIC CAN %hhu.%hhu version only"
                [MCBA_VER_CAN_MAJOR; MCBA_VER_CAN_MINOR]]
        else []).
Proof.
  intros Hu.
  destruct (keep_alive_can_world msg w)
    as (_ & _ & _ & _ & dbg & Hdbg & ->).
  rewrite Hu. unfold warnings. rewrite !filter_app.
  f_equal.
  assert (filter (λ e, is_warning e = true) dbg = []) as ->.
  { clear -Hdbg. induction Hdbg as [|e l (_ & He & _) _ IH]; [done|].
    rewrite filter_cons. destruct (decide (is_warning e = true)); [congruence|done]. }
  destruct (negb (MCBA_VER_CAN_MAJOR =? soft_ver_major msg)%Z &&
            (MCBA_VER_CAN_MINOR =? soft_ver_minor msg)%Z);
    reflexivity.
Qed.

(** C3 (the code departs from it): on the first keep-alive of either
    controller, a report whose major version is the tested one and whose
    minor version is not the tested one differs from the tested baseline,
    and the handler emits no warning for it. *)
Theorem keep_alive_minor_mismatch_not_warned msg_usb msg_can w :
  version_undefined (usb_version w) = true →
  version_undefined (can_version w) = true →
  ka_usb_soft_ver_major msg_usb = MCBA_VER_USB_MAJOR →
  ka_usb_soft_ver_minor msg_usb ≠ MCBA_VER_USB_MINOR →
  soft_ver_major msg_can = MCBA_VER_CAN_MAJOR →
  soft_ver_minor msg_can ≠ MCBA_VER_CAN_MINOR →
  warnings (trace (mcba_usb_process_keep_alive_usb msg_usb w).2)
    = warnings (trace w) ∧
  warnings (trace (mcba_usb_process_keep_alive_can msg_can w).2)
    = warnings (trace w).
Proof.
  intros Hu Hc Hmaj Hmin Hmaj' Hmin'.
  rewrite keep_alive_usb_warnings, keep_alive_can_warnings by done.
  rewrite Hmaj, Hmaj', !Z.eqb_refl. simpl. by rewrite !app_nil_r.
Qed.

(** C7 (amended): a keep-alive of the CAN controller stores the error
    counters of the report, whatever was stored before and whatever the
    report says of the version, and [mcba_net_get_berr_counter] then returns
    them; the next report stores its own counters.  It prints the
    first-sighting notice again exactly when the report before it carried
    the sentinel in both version fields: the latch of the notice is the
    stored version, which every report overwrites. *)
Theorem keep_alive_can_refreshes_counters m1 m2 w :
  let w1 := (mcba_usb_process_keep_alive_can m1 w).2 in
  let w2 := (mcba_usb_process_keep_alive_can m2 w1).2 in
  bec (priv w1) = {| txerr := tx_err_cnt m1; rxerr := rx_err_cnt m1 |} ∧
  (mcba_net_get_berr_counter w1).1
    = (0%Z, {| txerr := tx_err_cnt m1; rxerr := rx_err_cnt m1 |}) ∧
  bec (priv w2) = {| txerr := tx_err_cnt m2; rxerr := rx_err_cnt m2 |} ∧
  (mcba_net_get_berr_counter w2).1
    = (0%Z, {| txerr := tx_err_cnt m2; rxerr := rx_err_cnt m2 |}) ∧
  version_notices (trace w2) =
    version_notices (trace w1)
    ++ (if version_undefined (soft_ver_major m1, soft_ver_minor m1)
        then [NetdevInfo "PIC CAN version %hhu.%hhu"
                [soft_ver_major m2; soft_ver_minor m2]]
        else []).
Proof.
  intros w1 w2.
  destruct (keep_alive_can_world m1 w) as (Hp1 & _ & _ & _ & _).
  destruct (keep_alive_can_world m2 w1)
    as (Hp2 & _ & _ & _ & dbg & Hdbg & Ht2).
  fold w1 in Hp1. fold w2 in Hp2, Ht2.
  assert (can_version w1 = (soft_ver_major m1, soft_ver_minor m1)) as Hv.
  { unfold can_version. by rewrite Hp1. }
  rewrite Hv in Ht2. clearbody w1 w2.
  unfold mcba_net_get_berr_counter, bind, get_priv, ret; simpl.
  rewrite Hp1, Hp2. simpl. repeat split.
  rewrite Ht2. unfold version_notices. rewrite !filter_app.
  assert (filter (λ e, is_version_notice e = true) dbg = []) as ->.
  { clear -Hdbg. induction Hdbg as [|e l (He & _ & _) _ IH]; [done|].
    rewrite filter_cons.
    destruct (decide (is_version_notice e = true)); [congruence|done]. }
  f_equal.
  destruct (version_undefined (soft_ver_major m1, soft_ver_minor m1));
    [|done].
  destruct (negb (MCBA_VER_CAN_MAJOR =? soft_ver_major m2)%Z &&
            (MCBA_VER_CAN_MINOR =? soft_ver_minor m2)%Z); reflexivity.
Qed.

(** C8 (amended): every keep-alive of the USB controller stores the reported
    version, on the first sighting and on every later report alike; only the
    version notice is limited to reports that arrive while both stored fields
    are undefined. *)
Theorem keep_alive_usb_overwrites_version msg w :
  let w' := (mcba_usb_process_keep_alive_usb msg w).2 in
  usb_version w' = (ka_usb_soft_ver_major msg, ka_usb_soft_ver_minor msg) ∧
  version_notices (trace w') =
    version_notices (trace w)
    ++ (if version_undefined (usb_version w) then
          [NetdevInfo "PIC USB version %hhu.%hhu"
             [ka_usb_soft_ver_major msg; ka_usb_soft_ver_minor msg]]
        else []).
Proof.
  intros w'. destruct (keep_alive_usb_world msg w) as (Hp & _ & _ & _ & Ht).
  fold w' in Hp, Ht. split.
  - unfold usb_version. by rewrite Hp.
  - rewrite Ht. unfold version_notices. rewrite !filter_app.
    f_equal.
    destruct (MCBA_IS_USB_DEBUG (debug w));
      destruct (version_undefined (usb_version w));
      try destruct (negb (MCBA_VER_USB_MAJOR =? ka_usb_soft_ver_major msg)%Z &&
                    (MCBA_VER_USB_MINOR =? ka_usb_soft_ver_minor msg)%Z);
      reflexivity.
Qed.

End keep_alive_facts.

Lemma keep_alive_minor_mismatch_not_warned_witness :
  let msg_usb := {| ka_usb_termination_state := 0; ka_usb_soft_ver_major := 2;
                    ka_usb_soft_ver_minor := 1 |} in
  let msg_can := {| tx_err_cnt := 0; rx_err_cnt := 0; rx_buff_ovfl := 0;
                    tx_bus_off := 0; can_bitrate_hi := 0; can_bitrate_lo := 0;
                    rx_lost_hi := 0; rx_lost_lo := 0; can_stat := 0;
                    soft_ver_major := 2; soft_ver_minor := 4;
                    debug_mode := 0; test_complete := 0; test_result := 0 |} in
  warnings (trace (mcba_usb_process_keep_alive_usb (hdr := spec_header)
                     msg_usb example_world).2) = [] ∧
  warnings (trace (mcba_usb_process_keep_alive_can (hdr := spec_header)
                     msg_can example_world).2) = [].
Proof.
  intros msg_usb msg_can.
  apply (keep_alive_minor_mismatch_not_warned (hdr := spec_header)
           msg_usb msg_can example_world);
    first [reflexivity | (simpl; lia)].
Defined.

Lemma keep_alive_can_refreshes_counters_witness :
  let m tx := {| tx_err_cnt := tx; rx_err_cnt := 1; rx_buff_ovfl := 0;
                 tx_bus_off := 0; can_bitrate_hi := 0; can_bitrate_lo := 0;
                 rx_lost_hi := 0; rx_lost_lo := 0; can_stat := 0;
                 soft_ver_major := 2; soft_ver_minor := 3;
                 debug_mode := 0; test_complete := 0; test_result := 0 |} in
  let w1 := (mcba_usb_process_keep_alive_can (hdr := spec_header) (m 3%Z)
               example_world).2 in
  let w2 := (mcba_usb_process_keep_alive_can (hdr := spec_header) (m 5%Z)
               w1).2 in
  (mcba_net_get_berr_counter w1).1 = (0%Z, {| txerr := 3; rxerr := 1 |}) ∧
  (mcba_net_get_berr_counter w2).1 = (0%Z, {| txerr := 5; rxerr := 1 |}) ∧
  version_notices (trace w2) = version_notices (trace w1).
Proof.
  intros m w1 w2.
  destruct (keep_alive_can_refreshes_counters (hdr := spec_header)
              (m 3%Z) (m 5%Z) example_world) as (_ & H1 & _ & H2 & H3).
  exact (conj H1 (conj H2 (eq_trans H3 (app_nil_r _)))).
Defined.

(** A first report of the CAN controller that carries the sentinel as its
    version, 255.255, leaves the stored version undefined: the second
    report, with its counters stored as well, prints the first-sighting
    notice once more. *)
Lemma can_version_notice_repeated_counterexample :
  let m tx major minor :=
    {| tx_err_cnt := tx; rx_err_cnt := 1; rx_buff_ovfl := 0;
       tx_bus_off := 0; can_bitrate_hi := 0; can_bitrate_lo := 0;
       rx_lost_hi := 0; rx_lost_lo := 0; can_stat := 0;
       soft_ver_major := major; soft_ver_minor := minor;
       debug_mode := 0; test_complete := 0; test_result := 0 |} in
  let w1 := (mcba_usb_process_keep_alive_can (hdr := spec_header)
               (m 3 0xff 0xff)%Z example_world).2 in
  let w2 := (mcba_usb_process_keep_alive_can (hdr := spec_header)
               (m 5 2 3)%Z w1).2 in
  (mcba_net_get_berr_counter w1).1 = (0%Z, {| txerr := 3; rxerr := 1 |}) ∧
  (mcba_net_get_berr_counter w2).1 = (0%Z, {| txerr := 5; rxerr := 1 |}) ∧
  version_notices (trace w1)
    = [NetdevInfo "PIC CAN version %hhu.%hhu" [0xff; 0xff]%Z] ∧
  version_notices (trace w2)
    = [NetdevInfo "PIC CAN version %hhu.%hhu" [0xff; 0xff]%Z;
       NetdevInfo "PIC CAN version %hhu.%hhu" [2; 3]%Z] ∧
  version_notices (trace w2) ≠ version_notices (trace w1).
Proof. vm_compute. repeat split. intros [=]. Qed.

(** C8 (as stated, refuted): with the stored USB version undefined, a report
    of version 2.0 stores 2.0, and a second report, of version 2.1, changes
    the stored version to 2.1. *)
Lemma usb_version_overwritten_counterexample :
  let m1 := {| ka_usb_termination_state := 0; ka_usb_soft_ver_major := 2;
               ka_usb_soft_ver_minor := 0 |} in
  let m2 := {| ka_usb_termination_state := 0; ka_usb_soft_ver_major := 2;
               ka_usb_soft_ver_minor := 1 |} in
  let w1 := (mcba_usb_process_keep_alive_usb (hdr := spec_header) m1
               example_world).2 in
  let w2 := (mcba_usb_process_keep_alive_usb (hdr := spec_header) m2 w1).2 in
  version_undefined (hdr := spec_header) (usb_version example_world) = true ∧
  usb_version w1 = (2, 0)%Z ∧
  usb_version w2 = (2, 1)%Z ∧
  usb_version w2 ≠ usb_version w1.
Proof. repeat split. intros [=]. Qed.

(** ** Receive path *)

Section receive_facts.
Context `{hdr : mcba_usb_h}.

Lemma memcpy_length dst src n :
  n ≤ length src → length (memcpy dst src n) = n `max` length dst.
Proof.
  intros Hn. unfold memcpy.
  rewrite length_app, length_take, length_drop. lia.
Qed.

(** When a socket buffer is available, the frame is delivered with the
    masked DLC as its length and that many bytes copied, whatever the value:
    no path of the function compares the length with 8 or reports an
    error. *)
Lemma process_can_delivers msg w :
  ext w (tick w) ≠ 0%Z →
  ∃ cf,
    trace (mcba_usb_process_can msg w).2 = trace w ++ [NetifRx cf] ∧
    can_dlc cf = u8 (Z.land (dlc msg) MCBA_DLC_MASK) ∧
    cf_data cf = memcpy (replicate CAN_MAX_DLEN 0%Z) (data msg)
                   (Z.to_nat (can_dlc cf)).
Proof.
  intros Hskb.
  unfold mcba_usb_process_can, alloc_can_skb, bind, extern, ret,
    modify_priv, emit; simpl.
  destruct (ext w (tick w) =? 0)%Z eqn:He; [by apply Z.eqb_eq in He|].
  simpl. eexists. split; [reflexivity|]. done.
Qed.

Lemma format_errors_app t1 t2 :
  format_errors (t1 ++ t2) = format_errors t1 + format_errors t2.
Proof. unfold format_errors. by rewrite filter_app, length_app. Qed.

Lemma format_errors_cons e t :
  format_errors (e :: t)
    = (if is_format_error e then 1 else 0) + format_errors t.
Proof.
  unfold format_errors. rewrite filter_cons.
  destruct (decide (is_format_error e = true)) as [->|Hn]; [done|].
  by destruct (is_format_error e).
Qed.

Lemma format_errors_nil : format_errors [] = 0.
Proof. reflexivity. Qed.

Lemma format_errors_clean evs :
  Forall (λ e, is_format_error e = false) evs → format_errors evs = 0.
Proof.
  unfold format_errors. induction 1 as [|e l He _ IH]; [done|].
  rewrite filter_cons.
  destruct (decide (is_format_error e = true)); [congruence|done].
Qed.

(** No handler of a record prints the format error. *)
Lemma process_rx_format_errors msg w :
  format_errors (trace (mcba_usb_process_rx msg w).2)
    = format_errors (trace w).
Proof.
  unfold mcba_usb_process_rx.
  repeat match goal with |- context [if ?b then _ else _] => destruct b end.
  - destruct (keep_alive_can_world (cast_msg_keep_alive_can msg) w)
      as (_ & _ & _ & _ & dbg & Hdbg & ->).
    rewrite !format_errors_app.
    rewrite (format_errors_clean dbg)
      by (eapply Forall_impl; [exact Hdbg|]; by intros ? (_ & _ & ?)).
    destruct (version_undefined (can_version w));
      try destruct (negb _ && _);
      rewrite ?format_errors_cons, ?format_errors_nil; simpl; lia.
  - destruct (keep_alive_usb_world (cast_msg_keep_alive_usb msg) w)
      as (_ & _ & _ & _ & ->).
    rewrite !format_errors_app.
    destruct (MCBA_IS_USB_DEBUG (debug w));
      destruct (version_undefined (usb_version w));
      try destruct (negb _ && _);
      rewrite ?format_errors_cons, ?format_errors_nil; simpl; lia.
  - unfold mcba_usb_process_can, alloc_can_skb, bind, extern, ret,
      modify_priv, emit; simpl.
    destruct (ext w (tick w) =? 0)%Z; simpl; [done|].
    rewrite format_errors_app, format_errors_cons, format_errors_nil.
    simpl. lia.
  - done.
  - done.
  - unfold netdev_warn, emit; simpl.
    rewrite format_errors_app, format_errors_cons, format_errors_nil.
    simpl. lia.
Qed.

Lemma process_all_format_errors msgs w :
  format_errors (trace (process_all msgs w).2) = format_errors (trace w).
Proof.
  revert w. induction msgs as [|m msgs IH]; intros w; simpl; [done|].
  unfold bind. by rewrite IH, process_rx_format_errors.
Qed.

(** The loop, started on a record boundary with [n] complete records left,
    handles them in order and then reports the partial record, if any. *)
Lemma read_bulk_loop_from n : ∀ k fuel u w,
  (0 < sizeof_mcba_usb_msg)%Z →
  (Z.of_nat k + Z.of_nat n = actual_length u / sizeof_mcba_usb_msg)%Z →
  n + (if (actual_length u mod sizeof_mcba_usb_msg =? 0)%Z then 0 else 1)
    ≤ fuel →
  read_bulk_loop fuel u (Z.of_nat k * sizeof_mcba_usb_msg) w =
    (process_all
       ((λ j : nat, drop (Z.to_nat (Z.of_nat j * sizeof_mcba_usb_msg))
                         (transfer_buffer u)) <$> seq k n) ;;
     if (actual_length u mod sizeof_mcba_usb_msg =? 0)%Z then ret tt
     else netdev_err "format error" []) w.
Proof.
  induction n as [|n IH]; intros k fuel u w Hsz Hk Hfuel.
  - simpl. unfold bind at 1. simpl.
    pose proof (Z.div_mod (actual_length u) sizeof_mcba_usb_msg) as Hdm.
    pose proof (Z.mod_pos_bound (actual_length u) sizeof_mcba_usb_msg Hsz).
    destruct (actual_length u mod sizeof_mcba_usb_msg =? 0)%Z eqn:Hr.
    + apply Z.eqb_eq in Hr.
      destruct fuel as [|fuel]; simpl; [done|].
      destruct (Z.ltb_spec (Z.of_nat k * sizeof_mcba_usb_msg)
                  (actual_length u)); [nia|done].
    + apply Z.eqb_neq in Hr.
      destruct fuel as [|fuel]; simpl; [lia|].
      destruct (Z.ltb_spec (Z.of_nat k * sizeof_mcba_usb_msg)
                  (actual_length u)); [|nia].
      destruct (Z.gtb_spec (Z.of_nat k * sizeof_mcba_usb_msg
                            + sizeof_mcba_usb_msg) (actual_length u));
        [done|nia].
  - pose proof (Z.div_mod (actual_length u) sizeof_mcba_usb_msg) as Hdm.
    pose proof (Z.mod_pos_bound (actual_length u) sizeof_mcba_usb_msg Hsz).
    destruct fuel as [|fuel]; [lia|]. simpl.
    destruct (Z.ltb_spec (Z.of_nat k * sizeof_mcba_usb_msg)
                (actual_length u)); [|nia].
    destruct (Z.gtb_spec (Z.of_nat k * sizeof_mcba_usb_msg
                          + sizeof_mcba_usb_msg) (actual_length u)); [nia|].
    unfold bind at 1 2 3. simpl.
    replace (Z.of_nat k * sizeof_mcba_usb_msg + sizeof_mcba_usb_msg)%Z
      with (Z.of_nat (S k) * sizeof_mcba_usb_msg)%Z by lia.
    rewrite IH; [done|done|lia|lia].
Qed.

Lemma read_bulk_loop_records u w :
  (0 < sizeof_mcba_usb_msg)%Z → (0 ≤ actual_length u)%Z →
  read_bulk_loop (Z.to_nat (actual_length u)) u 0 w =
    (process_all (records (transfer_buffer u) (actual_length u)) ;;
     if (actual_length u mod sizeof_mcba_usb_msg =? 0)%Z then ret tt
     else netdev_err "format error" []) w.
Proof.
  intros Hsz Hlen.
  pose proof (Z.div_mod (actual_length u) sizeof_mcba_usb_msg) as Hdm.
  pose proof (Z.mod_pos_bound (actual_length u) sizeof_mcba_usb_msg Hsz).
  assert (0 ≤ actual_length u / sizeof_mcba_usb_msg)%Z
    by (apply Z.div_pos; lia).
  change 0%Z with (Z.of_nat 0 * sizeof_mcba_usb_msg)%Z at 1.
  apply read_bulk_loop_from; [done|lia|].
  destruct (actual_length u mod sizeof_mcba_usb_msg =? 0)%Z eqn:Hr.
  - nia.
  - apply Z.eqb_neq in Hr. nia.
Qed.

(** C6: for a received buffer ([status] 0, device present) the dispatcher
    handles the floor(length / record size) complete leading records in
    order; when the length is not a multiple of the record size it then
    reports one format error, and none otherwise; either way it goes on to
    resubmit the URB. *)
Theorem read_bulk_callback_partial_record u w :
  (0 < sizeof_mcba_usb_msg)%Z → (0 ≤ actual_length u)%Z →
  ext w (tick w) ≠ 0%Z → status u = 0%Z →
  let msgs := records (transfer_buffer u) (actual_length u) in
  let w1 := (process_all msgs (netif_device_present w).2).2 in
  let w' := (mcba_usb_read_bulk_callback u w).2 in
  length msgs = Z.to_nat (actual_length u / sizeof_mcba_usb_msg) ∧
  ((actual_length u mod sizeof_mcba_usb_msg)%Z = 0%Z →
     w' = (resubmit_urb u w1).2 ∧
     format_errors (trace w') = format_errors (trace w)) ∧
  ((actual_length u mod sizeof_mcba_usb_msg)%Z ≠ 0%Z →
     w' = (resubmit_urb u (netdev_err "format error" [] w1).2).2 ∧
     format_errors (trace w') = S (format_errors (trace w))) ∧
  UsbSubmitUrb u ∈ trace w'.
Proof.
  intros Hsz Hlen Hpresent Hst msgs w1 w'.
  assert (∀ v, format_errors (trace (resubmit_urb u v).2)
               = format_errors (trace v) ∧
               UsbSubmitUrb u ∈ trace (resubmit_urb u v).2) as Hre.
  { intros v. unfold resubmit_urb, usb_submit_urb, bind, emit, extern,
      netdev_err, ret; simpl.
    repeat match goal with |- context [if ?b then _ else _] => destruct b end;
      simpl;
      rewrite ?format_errors_app, ?format_errors_cons, ?format_errors_nil;
      simpl;
      (split; [lia|rewrite !elem_of_app, !elem_of_cons; tauto]). }
  assert (w' = (resubmit_urb u
                  ((if (actual_length u mod sizeof_mcba_usb_msg =? 0)%Z
                    then ret tt else netdev_err "format error" []) w1).2).2)
    as Hw'.
  { unfold w', mcba_usb_read_bulk_callback, netif_device_present, bind,
      extern, ret. cbn [fst snd].
    destruct (ext w (tick w) =? 0)%Z eqn:He; [by apply Z.eqb_eq in He|].
    cbn [negb]. rewrite Hst. cbn [Z.eqb].
    rewrite read_bulk_loop_records by done.
    unfold w1, msgs, netif_device_present, bind, extern, ret.
    cbn [fst snd]. done. }
  assert (format_errors (trace w1) = format_errors (trace w)) as Hw1.
  { unfold w1. rewrite process_all_format_errors.
    unfold netif_device_present, bind, extern, ret. done. }
  split; [|split; [|split]].
  - unfold msgs, records. by rewrite length_fmap, length_seq.
  - intros Hr. rewrite Hr in Hw'. simpl in Hw'. split; [done|].
    rewrite Hw'. by rewrite (proj1 (Hre _)).
  - intros Hr. apply Z.eqb_neq in Hr. rewrite Hr in Hw'. split; [done|].
    rewrite Hw'. rewrite (proj1 (Hre _)).
    unfold netdev_err, emit; simpl.
    rewrite format_errors_app, format_errors_cons, format_errors_nil, Hw1.
    simpl. lia.
  - rewrite Hw'. apply Hre.
Qed.

(** A mask that passes every valid DLC passes the values 9 to 15 too. *)
Lemma dlc_mask_passes_above_8 (mask n : Z) :
  (∀ d, 0 ≤ d ≤ 8 → Z.land d mask = d)%Z → (9 ≤ n ≤ 15)%Z →
  Z.land n mask = n.
Proof.
  intros Hmask Hn.
  assert (n = Z.lor 8 (n - 8)) as ->.
  { assert (n = 9 ∨ n = 10 ∨ n = 11 ∨ n = 12 ∨ n = 13 ∨ n = 14 ∨ n = 15)%Z
      as Hcases by lia.
    destruct Hcases as [->|[->|[->|[->|[->|[->| ->]]]]]]; reflexivity. }
  rewrite Z.land_lor_distr_l, (Hmask 8%Z), (Hmask (n - 8)%Z) by lia.
  reflexivity.
Qed.

(** C1 (the code departs from it): whatever mask the header defines, as long
    as it passes the valid lengths 0 to 8, a received CAN-data message whose
    DLC field holds a value [n] from 9 to 15 is not rejected and not clamped:
    the decoder reports nothing, delivers a frame of length [n] and has
    copied [n] bytes, more than 8, from the message into the frame. *)
Theorem process_can_copies_dlc_above_8 msg w n :
  (∀ d, 0 ≤ d ≤ 8 → Z.land d MCBA_DLC_MASK = d)%Z →
  ext w (tick w) ≠ 0%Z →
  dlc msg = n → (9 ≤ n ≤ 15)%Z → Z.to_nat n ≤ length (data msg) →
  ∃ cf,
    trace (mcba_usb_process_can msg w).2 = trace w ++ [NetifRx cf] ∧
    can_dlc cf = n ∧
    cf_data cf = take (Z.to_nat n) (data msg) ∧
    length (cf_data cf) = Z.to_nat n ∧
    CAN_MAX_DLEN < length (cf_data cf).
Proof.
  intros Hmask Hskb Hdlc Hn Hlen.
  destruct (process_can_delivers msg w Hskb) as (cf & Htrace & Hcf & Hdata).
  rewrite Hdlc, (dlc_mask_passes_above_8 _ n Hmask Hn) in Hcf.
  assert (u8 n = n) as Hu8 by (unfold u8; apply Z.mod_small; lia).
  rewrite Hu8 in Hcf. rewrite Hcf in Hdata.
  assert (cf_data cf = take (Z.to_nat n) (data msg)) as Hcopy.
  { rewrite Hdata. unfold memcpy.
    rewrite drop_ge by (rewrite length_replicate; unfold CAN_MAX_DLEN; lia).
    apply app_nil_r. }
  exists cf. split; [done|]. split; [done|]. split; [done|].
  rewrite Hcopy, length_take. unfold CAN_MAX_DLEN. lia.
Qed.

End receive_facts.

Lemma process_can_copies_dlc_above_8_witness :
  let msg := {| cmdId := 0xe3; eidh := 0; eidl := 0; sidh := 0x24;
                sidl := 0x60; dlc := 0x0f;
                data := [1; 2; 3; 4; 5; 6; 7; 8;
                         9; 10; 11; 12; 13; 14; 0xff]%Z |} in
  (∀ d, 0 ≤ d ≤ 8 → Z.land d (@MCBA_DLC_MASK spec_header) = d)%Z ∧
  ext example_world (tick example_world) ≠ 0%Z ∧
  ∃ cf,
    trace (mcba_usb_process_can (hdr := spec_header) msg example_world).2
      = trace example_world ++ [NetifRx cf] ∧
    can_dlc cf = 15%Z ∧
    cf_data cf = take 15 (data msg) ∧
    length (cf_data cf) = 15 ∧
    CAN_MAX_DLEN < length (cf_data cf).
Proof.
  intros msg.
  assert (∀ d, 0 ≤ d ≤ 8 → Z.land d (@MCBA_DLC_MASK spec_header) = d)%Z
    as Hmask.
  { intros d Hd.
    assert (d = 0 ∨ d = 1 ∨ d = 2 ∨ d = 3 ∨ d = 4 ∨ d = 5 ∨ d = 6 ∨ d = 7
            ∨ d = 8)%Z as Hcases by lia.
    destruct Hcases as [->|[->|[->|[->|[->|[->|[->|[->| ->]]]]]]]];
      reflexivity. }
  assert (ext example_world (tick example_world) ≠ 0%Z) as Hskb
    by (simpl; lia).
  split; [exact Hmask|]. split; [exact Hskb|].
  apply (process_can_copies_dlc_above_8 (hdr := spec_header) msg
           example_world 15 Hmask Hskb eq_refl); simpl; lia.
Defined.

Lemma read_bulk_callback_partial_record_witness :
  let record := [0xff; 0; 0; 0; 0; 0; 0; 0; 0; 0;
                 0; 0; 0; 0; 0; 0; 0; 0; 0; 0]%Z in
  let u := {| context := 0; transfer_buffer := record ++ record ++ [0xff]%Z;
              actual_length := 41; status := 0 |} in
  let w' := (mcba_usb_read_bulk_callback (hdr := spec_header) u
               example_world).2 in
  length (records (hdr := spec_header) (transfer_buffer u) 41) = 2 ∧
  format_errors (trace w') = 1.
Proof.
  intros record u w'.
  destruct (read_bulk_callback_partial_record (hdr := spec_header) u
              example_world) as (Hn & _ & Herr & _);
    [done|done|done|done|].
  split; [exact Hn|].
  destruct Herr as [_ Herr]; [done|]. exact Herr.
Defined.

(** A received buffer with a CAN-data record whose DLC byte is 0x0f: the
    dispatcher reports no error and delivers a frame of length 15 that holds
    the 8 payload bytes, the 6 bytes that follow them in the record and the
    first byte of the next record. *)
Example read_bulk_callback_dlc_15 :
  let record :=
    [0xe3; 0; 0; 0x24; 0x60; 0x0f; 1; 2; 3; 4; 5; 6; 7; 8;
     9; 10; 11; 12; 13; 14]%Z in
  let next := [0xff; 0; 0; 0; 0; 0; 0; 0; 0; 0;
               0; 0; 0; 0; 0; 0; 0; 0; 0; 0]%Z in
  let u := {| context := 0; transfer_buffer := record ++ next;
              actual_length := 40; status := 0 |} in
  trace (mcba_usb_read_bulk_callback (hdr := spec_header) u example_world).2
    = [ NetifRx {| can_id := 0x123; can_dlc := 15;
                   cf_data := [1; 2; 3; 4; 5; 6; 7; 8;
                               9; 10; 11; 12; 13; 14; 0xff]%Z |};
        UsbSubmitUrb u ].
Proof. vm_compute. reflexivity. Qed.

(** ** Bit timing *)

Section bittiming_facts.
Context `{hdr : mcba_usb_h}.

Lemma u32_small x : (0 ≤ x < 2 ^ 32)%Z → u32 x = x.
Proof. intros. unfold u32. by apply Z.mod_small. Qed.

Lemma u32_range x : (0 ≤ u32 x < 2 ^ 32)%Z.
Proof. unfold u32. apply Z.mod_pos_bound. lia. Qed.

Lemma u32_div x y : (0 ≤ x < 2 ^ 32)%Z → (0 ≤ y)%Z → u32 (x / y) = (x / y)%Z.
Proof.
  intros Hx Hy. apply u32_small.
  destruct (decide (y = 0%Z)) as [->|Hne].
  - rewrite Z.div_0_r. lia.
  - split; [apply Z.div_pos; lia|].
    apply Z.le_lt_trans with x; [|lia]. apply Z.div_le_upper_bound; nia.
Qed.

(** The fields after the call, in 32-bit arithmetic. *)
Lemma calc_bittiming_u32 sjw_ prop seg1 seg2 brp_ bt :
  (0 ≤ sjw_ < 2 ^ 32)%Z → (0 ≤ prop < 2 ^ 32)%Z → (0 ≤ seg1 < 2 ^ 32)%Z →
  (0 ≤ seg2 < 2 ^ 32)%Z → (0 ≤ brp_ < 2 ^ 32)%Z →
  let bt' := mcba_net_calc_bittiming sjw_ prop seg1 seg2 brp_ bt in
  sjw bt' = sjw_ ∧ prop_seg bt' = prop ∧ phase_seg1 bt' = seg1 ∧
  phase_seg2 bt' = seg2 ∧ brp bt' = brp_ ∧
  tq bt' = (u32 (brp_ * 1000) / (MCBA_CAN_CLOCK / 1000000))%Z ∧
  bitrate bt'
    = (1000000000 / u32 (u32 (sjw_ + prop + seg1 + seg2) * tq bt'))%Z ∧
  sample_point bt'
    = (u32 (u32 (sjw_ + prop + seg1) * 1000)
       / u32 (sjw_ + prop + seg1 + seg2))%Z.
Proof.
  intros Hs Hp H1 H2 Hb. unfold mcba_net_calc_bittiming. cbn -[u32 Z.div Z.mul Z.add].
  rewrite !(u32_small sjw_), !(u32_small prop), !(u32_small seg1),
    !(u32_small seg2), !(u32_small brp_) by done.
  pose proof (u32_range (brp_ * 1000)).
  pose proof (u32_range (u32 (sjw_ + prop + seg1) * 1000)).
  pose proof (u32_range (sjw_ + prop + seg1 + seg2)).
  repeat split.
  - apply u32_div; [done|]. by vm_compute.
  - rewrite (u32_div (u32 (brp_ * 1000))); [|done|by vm_compute].
    apply u32_div; [lia|]. apply u32_range.
  - apply u32_div; [done|lia].
Qed.

(** C9: for 32-bit segment values and prescaler with nonzero divisors,
    [mcba_net_calc_bittiming] stores, with the clock of 40 MHz, the time
    quantum [brp * 1000 / (clock / 1000000)], the bit rate
    [1000000000 / ((sjw + prop + seg1 + seg2) * tq)] and the sample point
    [(sjw + prop + seg1) * 1000 / (sjw + prop + seg1 + seg2)], each computed
    in the unsigned 32-bit integer arithmetic of the code; while no product
    exceeds 32 bits these are the values of the same formulas over the
    integers. *)
Theorem calc_bittiming_formulas sjw_ prop seg1 seg2 brp_ bt :
  (0 ≤ sjw_ < 2 ^ 32)%Z → (0 ≤ prop < 2 ^ 32)%Z → (0 ≤ seg1 < 2 ^ 32)%Z →
  (0 ≤ seg2 < 2 ^ 32)%Z → (0 ≤ brp_ < 2 ^ 32)%Z →
  calc_bittiming_defined sjw_ prop seg1 seg2 brp_ = true →
  let bt' := mcba_net_calc_bittiming sjw_ prop seg1 seg2 brp_ bt in
  let total := (sjw_ + prop + seg1 + seg2)%Z in
  (tq bt' = (u32 (brp_ * 1000) / (MCBA_CAN_CLOCK / 1000000))%Z ∧
   bitrate bt' = (1000000000 / u32 (u32 total * tq bt'))%Z ∧
   sample_point bt'
     = (u32 (u32 (sjw_ + prop + seg1) * 1000) / u32 total)%Z) ∧
  ((brp_ * 1000 < 2 ^ 32)%Z →
   (total * (brp_ * 1000 / (MCBA_CAN_CLOCK / 1000000)) < 2 ^ 32)%Z →
   ((sjw_ + prop + seg1) * 1000 < 2 ^ 32)%Z →
   tq bt' = (brp_ * 1000 / (MCBA_CAN_CLOCK / 1000000))%Z ∧
   bitrate bt' = (1000000000 / (total * tq bt'))%Z ∧
   sample_point bt' = ((sjw_ + prop + seg1) * 1000 / total)%Z).
Proof.
  intros Hs Hp H1 H2 Hb Hdef bt' total.
  destruct (calc_bittiming_u32 sjw_ prop seg1 seg2 brp_ bt Hs Hp H1 H2 Hb)
    as (_ & _ & _ & _ & _ & Htq & Hbr & Hsp).
  fold bt' in Htq, Hbr, Hsp. fold total in Hbr, Hsp.
  split; [done|]. intros Hw1 Hw2 Hw3.
  unfold calc_bittiming_defined in Hdef.
  rewrite !(u32_small sjw_), !(u32_small prop), !(u32_small seg1),
    !(u32_small seg2), !(u32_small brp_) in Hdef by done.
  fold total in Hdef.
  apply andb_true_iff in Hdef as [Hd1 Hd2].
  apply negb_true_iff, Z.eqb_neq in Hd1, Hd2.
  rewrite (u32_small (brp_ * 1000)) in Htq, Hd1 by lia.
  assert (0 ≤ brp_ * 1000 / (MCBA_CAN_CLOCK / 1000000))%Z as Htq0
    by (apply Z.div_pos; [lia|by vm_compute]).
  assert (total < 2 ^ 32)%Z as Htot.
  { destruct (decide (total < 2 ^ 32)%Z) as [|Hge]; [done|]. exfalso.
    destruct (decide (brp_ * 1000 / (MCBA_CAN_CLOCK / 1000000) = 0)%Z)
      as [Hz|Hnz].
    - apply Hd1. rewrite Hz. rewrite Z.mul_0_r. done.
    - nia. }
  rewrite (u32_small total) in Hbr, Hsp by lia.
  rewrite (u32_small (sjw_ + prop + seg1)) in Hsp by lia.
  rewrite (u32_small ((sjw_ + prop + seg1) * 1000)) in Hsp by lia.
  rewrite Htq in Hbr.
  rewrite (u32_small (total * _)) in Hbr by lia.
  rewrite Htq. done.
Qed.

(** Every call of [mcba_net_calc_bittiming] in [mcba_net_set_bittiming] is
    within these bounds. *)
Lemma bittiming_table_in_range :
  Forall (λ r : Z * (Z * Z * Z * Z * Z) * Z,
            let '(_, (s, p, s1, s2, b), _) := r in
            ((0 ≤ s < 2 ^ 32) ∧ (0 ≤ p < 2 ^ 32) ∧ (0 ≤ s1 < 2 ^ 32) ∧
             (0 ≤ s2 < 2 ^ 32) ∧ (0 ≤ b < 2 ^ 32) ∧
             b * 1000 < 2 ^ 32 ∧
             (s + p + s1 + s2) * (b * 1000 / (MCBA_CAN_CLOCK / 1000000))
               < 2 ^ 32 ∧
             (s + p + s1) * 1000 < 2 ^ 32)%Z ∧
            calc_bittiming_defined s p s1 s2 b = true)
         bittiming_table.
Proof.
  unfold bittiming_table.
  repeat first [apply List.Forall_cons | apply List.Forall_nil];
    cbn beta iota zeta; (split; [|reflexivity]);
    repeat split; vm_compute; congruence.
Qed.

End bittiming_facts.

Lemma calc_bittiming_formulas_witness :
  calc_bittiming_defined 1 3 8 8 16 = true ∧
  let bt' := mcba_net_calc_bittiming 1 3 8 8 16 (bittiming example_priv) in
  let total := (1 + 3 + 8 + 8)%Z in
  (tq bt' = (u32 (16 * 1000) / (MCBA_CAN_CLOCK / 1000000))%Z ∧
   bitrate bt' = (1000000000 / u32 (u32 total * tq bt'))%Z ∧
   sample_point bt' = (u32 (u32 (1 + 3 + 8) * 1000) / u32 total)%Z) ∧
  ((16 * 1000 < 2 ^ 32)%Z →
   (total * (16 * 1000 / (MCBA_CAN_CLOCK / 1000000)) < 2 ^ 32)%Z →
   ((1 + 3 + 8) * 1000 < 2 ^ 32)%Z →
   tq bt' = (16 * 1000 / (MCBA_CAN_CLOCK / 1000000))%Z ∧
   bitrate bt' = (1000000000 / (total * tq bt'))%Z ∧
   sample_point bt' = ((1 + 3 + 8) * 1000 / total)%Z).
Proof.
  split; [reflexivity|].
  apply (calc_bittiming_formulas 1 3 8 8 16 (bittiming example_priv));
    first [lia | reflexivity].
Defined.

(** ** Transmit path *)

Section transmit_facts.
Context `{hdr : mcba_usb_h}.

(** What a call of [mcba_usb_xmit] does, by the result of
    [mcba_usb_get_free_ctx] and of the calls into the USB core. *)
Lemma xmit_world usb_msg skb w :
  let g := get_free_ctx (tx_context (priv w)) in
  let r := mcba_usb_xmit usb_msg skb w in
  debug r.2 = debug w ∧ ext r.2 = ext w ∧
  same_device_state (priv w) (priv r.2) ∧
  match g.1 with
  | None =>
      r.1 = NETDEV_TX_BUSY ∧
      tx_context (priv r.2) = g.2 ∧
      tx_submitted (priv r.2) = tx_submitted (priv w) ∧
      stats (priv r.2) = stats (priv w) ∧
      trace r.2 = trace w ++ [NetifStopQueue]
  | Some i =>
      r.1 = NETDEV_TX_OK ∧
      (∃ f, (∀ c, ndx (f c) = ndx c) ∧
            tx_context (priv r.2) = alter f i g.2) ∧
      (xmit_fails w →
         tx_submitted (priv r.2) = tx_submitted (priv w) ∧
         tx_dropped (stats (priv r.2))
           = ulong (tx_dropped (stats (priv w)) + 1)) ∧
      (¬ xmit_fails w →
         tx_submitted (priv r.2)
           = tx_submitted (priv w) ++ [tx_urb i usb_msg] ∧
         stats (priv r.2) = stats (priv w) ∧
         UsbSubmitUrb (tx_urb i usb_msg) ∈ trace r.2)
  end.
Proof.
  intros g r. subst g. remember r as r0 eqn:Hr. subst r.
  unfold mcba_usb_xmit in Hr. mrun_in Hr.
  destruct (get_free_ctx (tx_context (priv w))) as [[i|] tx1] eqn:Hg;
    cbn [fst snd] in Hr |- *.
  2: { mrun_in Hr. subst r0. unfold same_device_state. cbn. done. }
  destruct skb as [cf|]; mrun_in Hr;
    (destruct (ext w (tick w) =? 0)%Z eqn:E0; mrun_in Hr;
     [|destruct (ext w (S (tick w)) =? 0)%Z eqn:E1; mrun_in Hr;
       [|destruct (ext w (S (S (tick w))) =? 0)%Z eqn:E2; mrun_in Hr;
         [|destruct (ext w (S (S (tick w))) =? - ENODEV)%Z; mrun_in Hr]]]);
    subst r0; unfold same_device_state, xmit_fails, tx_urb;
    cbn [fst snd priv debug trace ext tick tx_context tx_submitted stats
         tx_dropped pic_usb_sw_ver_major pic_usb_sw_ver_minor
         pic_can_sw_ver_major pic_can_sw_ver_minor termination_state bec
         bittiming set_tx_context set_tx_submitted set_stats];
    rewrite ?Z.eqb_eq, ?Z.eqb_neq in *;
    (split; [done|]); (split; [done|]); (split; [done|]); (split; [done|]);
    (split;
     [first
        [ (exists (ctx_set_can true ∘ ctx_set_dlc (dlc (cast_msg_can usb_msg)));
           split; [intros c; reflexivity|apply list_alter_alter_eq])
        | (exists (ctx_set_can false);
           split; [intros c; reflexivity|reflexivity]) ]|]);
    (split; intros Hf;
     first
       [ done
       | (exfalso; tauto)
       | (split; [done|]; split; [done|];
          rewrite !elem_of_app, !elem_of_cons; tauto) ]).
Qed.

End transmit_facts.

(** ** Setting the bit timing *)

Section set_bittiming_facts.
Context `{hdr : mcba_usb_h}.

Lemma supported_bitrates_eq :
  supported_bitrates =
    [20000; 33333; 50000; 80000; 83333; 100000; 125000; 150000; 175000;
     200000; 225000; 250000; 275000; 300000; 500000; 625000; 800000;
     1000000]%Z.
Proof. reflexivity. Qed.

(** The [switch] takes the row of the requested bitrate. *)
Lemma set_bittiming_row w s p s1 s2 br k :
  (bitrate (bittiming (priv w)), (s, p, s1, s2, br), k) ∈ bittiming_table →
  mcba_net_set_bittiming w = bittiming_case s p s1 s2 br k w.
Proof.
  unfold bittiming_table. rewrite !elem_of_cons, elem_of_nil.
  intros Hrow. unfold mcba_net_set_bittiming. rewrite bind_eq.
  unfold get_priv. cbn [fst snd].
  repeat (destruct Hrow as [[= -> -> -> -> -> -> ->]|Hrow]; [reflexivity|]).
  done.
Qed.

(** ... and its [default] branch for any other bitrate. *)
Lemma set_bittiming_default w :
  bitrate (bittiming (priv w)) ∉ supported_bitrates →
  mcba_net_set_bittiming w =
    ((- EINVAL)%Z,
     {| priv := priv w; debug := debug w;
        trace := trace w
          ++ [NetdevErr
                ("Unsupported bittrate (%u). Use one of: 20000, " +:+
                 "33333, 50000, 80000, 83333, 100000, 125000, 150000, " +:+
                 "175000, 200000, 225000, 250000, 275000, 300000, 500000, " +:+
                 "625000, 800000, 1000000")
                [bitrate (bittiming (priv w))]];
        ext := ext w; tick := tick w |}).
Proof.
  rewrite supported_bitrates_eq. rewrite !not_elem_of_cons.
  intros Hno. unfold mcba_net_set_bittiming. rewrite bind_eq.
  unfold get_priv. cbn [fst snd].
  repeat match goal with
  | |- context [(?x =? ?c)%Z] =>
      destruct (Z.eqb_spec x c) as [He|_];
      [exfalso; unfold c in He; tauto|]
  end.
  reflexivity.
Qed.

(** The high and low byte of the command of every row. *)
Lemma bittiming_table_command_bytes :
  Forall (λ r : Z * (Z * Z * Z * Z * Z) * Z,
            u8 (Z.shiftr (Z.land 0xff00 (u16 r.2)) 8) = (r.2 / 256)%Z ∧
            u8 (Z.land 0xff (u16 r.2)) = (r.2 mod 256)%Z)
         bittiming_table.
Proof.
  unfold bittiming_table.
  repeat first [apply List.Forall_cons | apply List.Forall_nil];
    split; reflexivity.
Qed.

(** The bit timing [mcba_net_calc_bittiming] leaves for each row of the
    [switch]: the segments and the prescaler of the row, and the time
    quantum, bitrate and sample point that follow from them. *)
Lemma bittiming_table_fields :
  Forall (λ r : Z * (Z * Z * Z * Z * Z) * Z,
    ∀ bt,
      let s := r.1.2.1.1.1.1 in let p := r.1.2.1.1.1.2 in
      let s1 := r.1.2.1.1.2 in let s2 := r.1.2.1.2 in
      let br := r.1.2.2 in
      let tq' := (br * 1000 / (MCBA_CAN_CLOCK / 1000000))%Z in
      mcba_net_calc_bittiming s p s1 s2 br bt =
        {| bitrate := (1000000000 / ((s + p + s1 + s2) * tq'))%Z;
           sample_point := ((s + p + s1) * 1000 / (s + p + s1 + s2))%Z;
           tq := tq'; prop_seg := p; phase_seg1 := s1; phase_seg2 := s2;
           sjw := s; brp := br |})
    bittiming_table.
Proof.
  unfold bittiming_table.
  repeat first [apply List.Forall_cons | apply List.Forall_nil];
    intros bt; vm_compute; reflexivity.
Qed.

(** C5 (amended): [mcba_net_set_bittiming] returns 0 for exactly the 18
    documented bitrates, 20 kbps through 1000 kbps.  For each of them it
    stores the segments and the prescaler of its row with the time quantum,
    the bitrate and the sample point computed from them, and passes the
    change-bitrate command of the row to the transmit path.  The command is
    submitted to the device only when a context is free and the two
    allocations and the submission succeed; with no free context, or when
    one of the three fails, the function has stored the bit timing and
    returns 0 all the same, and no command is on its way.  For any other
    bitrate, 10000 and 1000001 among them, it returns [-EINVAL], leaves the
    device state as it was and passes nothing to the transmit path. *)
Theorem set_bittiming_supported_bitrates w :
  let b := bitrate (bittiming (priv w)) in
  let r := mcba_net_set_bittiming w in
  length supported_bitrates = 18 ∧
  NoDup supported_bitrates ∧
  (b ∈ supported_bitrates ↔ r.1 = 0%Z) ∧
  (∀ s p s1 s2 br k, (b, (s, p, s1, s2, br), k) ∈ bittiming_table →
     let tq' := (br * 1000 / (MCBA_CAN_CLOCK / 1000000))%Z in
     let bt' :=
       {| bitrate := (1000000000 / ((s + p + s1 + s2) * tq'))%Z;
          sample_point := ((s + p + s1) * 1000 / (s + p + s1 + s2))%Z;
          tq := tq'; prop_seg := p; phase_seg1 := s1; phase_seg2 := s2;
          sjw := s; brp := br |} in
     let w1 := (modify_priv (set_can_bittiming bt') w).2 in
     let cmd := msg_of_change_bitrate
                  {| cmd_id := MBCA_CMD_CHANGE_BIT_RATE;
                     bitrate_hi := (k / 256)%Z;
                     bitrate_lo := (k mod 256)%Z |} in
     r.1 = 0%Z ∧
     bittiming (priv r.2) = bt' ∧
     r.2 = (mcba_usb_xmit cmd None w1).2 ∧
     match (get_free_ctx (tx_context (priv w))).1 with
     | None =>
         tx_submitted (priv r.2) = tx_submitted (priv w) ∧
         trace r.2 = trace w ++ [NetifStopQueue]
     | Some i =>
         (¬ xmit_fails w →
            tx_submitted (priv r.2)
              = tx_submitted (priv w) ++ [tx_urb i cmd] ∧
            UsbSubmitUrb (tx_urb i cmd) ∈ trace r.2) ∧
         (xmit_fails w →
            tx_submitted (priv r.2) = tx_submitted (priv w) ∧
            tx_dropped (stats (priv r.2))
              = ulong (tx_dropped (stats (priv w)) + 1))
     end) ∧
  (b ∉ supported_bitrates →
     r.1 = (- EINVAL)%Z ∧ priv r.2 = priv w ∧ tick r.2 = tick w ∧
     ∃ e, trace r.2 = trace w ++ [NetdevErr e.1 e.2]) ∧
  ((10000%Z ∉ supported_bitrates) ∧ (1000001%Z ∉ supported_bitrates)).
Proof.
  intros b r.
  assert (∀ s p s1 s2 br k, (b, (s, p, s1, s2, br), k) ∈ bittiming_table →
     let tq' := (br * 1000 / (MCBA_CAN_CLOCK / 1000000))%Z in
     let bt' :=
       {| bitrate := (1000000000 / ((s + p + s1 + s2) * tq'))%Z;
          sample_point := ((s + p + s1) * 1000 / (s + p + s1 + s2))%Z;
          tq := tq'; prop_seg := p; phase_seg1 := s1; phase_seg2 := s2;
          sjw := s; brp := br |} in
     let w1 := (modify_priv (set_can_bittiming bt') w).2 in
     let cmd := msg_of_change_bitrate
                  {| cmd_id := MBCA_CMD_CHANGE_BIT_RATE;
                     bitrate_hi := (k / 256)%Z;
                     bitrate_lo := (k mod 256)%Z |} in
     r.1 = 0%Z ∧
     bittiming (priv r.2) = bt' ∧
     r.2 = (mcba_usb_xmit cmd None w1).2 ∧
     match (get_free_ctx (tx_context (priv w))).1 with
     | None =>
         tx_submitted (priv r.2) = tx_submitted (priv w) ∧
         trace r.2 = trace w ++ [NetifStopQueue]
     | Some i =>
         (¬ xmit_fails w →
            tx_submitted (priv r.2)
              = tx_submitted (priv w) ++ [tx_urb i cmd] ∧
            UsbSubmitUrb (tx_urb i cmd) ∈ trace r.2) ∧
         (xmit_fails w →
            tx_submitted (priv r.2) = tx_submitted (priv w) ∧
            tx_dropped (stats (priv r.2))
              = ulong (tx_dropped (stats (priv w)) + 1))
     end) as Hrows.
  { intros s p s1 s2 br k Hrow tq' bt' w1 cmd.
    pose proof bittiming_table_command_bytes as Hbytes.
    rewrite Forall_forall in Hbytes.
    destruct (Hbytes _ Hrow) as [Hhi Hlo]. cbn [snd] in Hhi, Hlo.
    pose proof (proj1 (List.Forall_forall _ _) bittiming_table_fields
                  _ (proj1 (list_elem_of_In _ _) Hrow) (bittiming (priv w)))
      as Hbt.
    cbn [fst snd] in Hbt. fold tq' in Hbt. fold bt' in Hbt.
    assert (r = (0%Z, (mcba_usb_xmit cmd None w1).2)) as Hr.
    { unfold r. rewrite (set_bittiming_row w s p s1 s2 br k Hrow).
      unfold bittiming_case, mcba_usb_xmit_change_bitrate, mcba_usb_xmit_cmd.
      rewrite !bind_eq. unfold cmd. rewrite Hhi, Hlo.
      unfold w1, modify_priv. cbn [fst snd]. rewrite Hbt. reflexivity. }
    rewrite Hr. cbn [fst snd].
    pose proof (xmit_world cmd None w1) as (_ & _ & Hsame & Hx).
    split; [done|]. split.
    { destruct Hsame as (_ & _ & _ & _ & _ & _ & ->). reflexivity. }
    split; [done|].
    cbn zeta in Hx.
    change (tx_context (priv w1)) with (tx_context (priv w)) in Hx.
    change (tx_submitted (priv w1)) with (tx_submitted (priv w)) in Hx.
    change (stats (priv w1)) with (stats (priv w)) in Hx.
    change (trace w1) with (trace w) in Hx.
    destruct (get_free_ctx (tx_context (priv w))).1 as [i|].
    - destruct Hx as (_ & _ & Hfail & Hok). split.
      + intros Hn. destruct (Hok Hn) as (? & _ & ?). done.
      + exact Hfail.
    - destruct Hx as (_ & _ & Hsub & _ & Htr). done. }
  split; [reflexivity|]. split.
  { apply (bool_decide_unpack _). by vm_compute. }
  split.
  { split.
    - intros Hb. unfold supported_bitrates in Hb.
      apply list_elem_of_fmap in Hb as ([[b' [[[[s p] s1] s2] br]] k] & Hb & Hrow).
      cbn in Hb. subst b'. by destruct (Hrows _ _ _ _ _ _ Hrow) as [? _].
    - intros Hr. destruct (decide (b ∈ supported_bitrates)) as [|Hno]; [done|].
      unfold r in Hr. rewrite (set_bittiming_default w Hno) in Hr. done. }
  split; [exact Hrows|]. split.
  - intros Hno. unfold r. rewrite (set_bittiming_default w Hno).
    cbn [fst snd priv tick trace]. repeat split. by eexists (_, _).
  - split; apply (bool_decide_unpack _); by vm_compute.
Qed.

End set_bittiming_facts.

(** ** Contexts of failed transmissions *)

Section leak_facts.
Context `{hdr : mcba_usb_h}.

Lemma get_free_ctx_Some tx i :
  (get_free_ctx tx).1 = Some i →
  i < MCBA_MAX_TX_URBS ∧
  ∃ c, tx !! i = Some c ∧ ndx c = MCBA_CTX_FREE ∧
       (get_free_ctx tx).2 =
         <[i := {| ndx := Z.of_nat i; ctx_priv := true;
                   ctx_dlc := ctx_dlc c; can := can c |}]> tx.
Proof.
  unfold get_free_ctx. intros Hi.
  pose proof (get_free_ctx_loop_spec MCBA_MAX_TX_URBS 0 tx) as Hs.
  rewrite Hi in Hs. destruct Hs as (Hr & Hc & _). split; [lia|done].
Qed.

Lemma get_free_ctx_None tx :
  (get_free_ctx tx).1 = None → (get_free_ctx tx).2 = tx.
Proof.
  unfold get_free_ctx. intros Hi.
  pose proof (get_free_ctx_loop_spec MCBA_MAX_TX_URBS 0 tx) as Hs.
  rewrite Hi in Hs. by destruct Hs as [-> _].
Qed.

Lemma pool_inv_alter tx i f :
  pool_inv tx → (∀ c, ndx (f c) = ndx c ∨ ndx (f c) = MCBA_CTX_FREE) →
  pool_inv (alter f i tx).
Proof.
  intros [Hlen Hinv] Hf. split; [by rewrite length_alter|]. intros j c Hl.
  destruct (decide (i = j)) as [->|Hne].
  - rewrite list_lookup_alter_eq in Hl.
    destruct (tx !! j) as [c0|] eqn:Hj; simplify_eq/=.
    destruct (Hf c0) as [->| ->]; [by apply Hinv|by left].
  - rewrite list_lookup_alter_ne in Hl by done. by apply Hinv.
Qed.

Lemma slot_occupied_alter_ne tx i j f :
  i ≠ j → slot_occupied j (alter f i tx) ↔ slot_occupied j tx.
Proof.
  intros Hne. unfold slot_occupied. by rewrite list_lookup_alter_ne.
Qed.

Lemma slot_occupied_alter_ndx tx i j f :
  (∀ c, ndx (f c) = ndx c) →
  slot_occupied j (alter f i tx) ↔ slot_occupied j tx.
Proof.
  intros Hf. destruct (decide (i = j)) as [->|Hne];
    [|by apply slot_occupied_alter_ne].
  unfold slot_occupied, ctx_live. rewrite list_lookup_alter_eq.
  destruct (tx !! j) as [c0|]; simpl.
  - split.
    + intros (c & Heq & Hl). simplify_eq. exists c0. split; [done|].
      unfold ctx_live in *. by rewrite <- Hf.
    + intros (c & Heq & Hl). simplify_eq. exists (f c). split; [done|].
      unfold ctx_live in *. by rewrite Hf.
  - split; intros (c & [=] & _).
Qed.

Lemma slot_occupied_insert_ne tx i j c :
  i ≠ j → slot_occupied j (<[i := c]> tx) ↔ slot_occupied j tx.
Proof.
  intros Hne. unfold slot_occupied. by rewrite list_lookup_insert_ne.
Qed.

(** The pool and the anchor after a call of [mcba_usb_xmit]. *)
Lemma xmit_view usb_msg skb w :
  let tx := tx_context (priv w) in
  let w' := (mcba_usb_xmit usb_msg skb w).2 in
  ((get_free_ctx tx).1 = None ∧
   tx_context (priv w') = tx ∧
   tx_submitted (priv w') = tx_submitted (priv w)) ∨
  (∃ i c f,
     (get_free_ctx tx).1 = Some i ∧ i < MCBA_MAX_TX_URBS ∧
     tx !! i = Some c ∧ ndx c = MCBA_CTX_FREE ∧
     (∀ c, ndx (f c) = ndx c) ∧
     tx_context (priv w') =
       alter f i (<[i := {| ndx := Z.of_nat i; ctx_priv := true;
                            ctx_dlc := ctx_dlc c; can := can c |}]> tx) ∧
     (tx_submitted (priv w') = tx_submitted (priv w) ∨
      tx_submitted (priv w')
        = tx_submitted (priv w) ++ [tx_urb i usb_msg])).
Proof.
  intros tx w'. pose proof (xmit_world usb_msg skb w) as (_ & _ & _ & Hx).
  fold tx w' in Hx.
  destruct (get_free_ctx tx).1 as [i|] eqn:Hi.
  - right. destruct (get_free_ctx_Some tx i Hi) as (Hlt & c & Hc & Hfree & Heq).
    destruct Hx as (_ & (f & Hf & Htx) & Hfail & Hok).
    exists i, c, f. rewrite Heq in Htx. repeat split; try done.
    destruct (decide (xmit_fails w)) as [Hd|Hd].
    + left. by apply Hfail.
    + right. by apply Hok.
  - left. destruct Hx as (_ & Htx & Hsub & _).
    rewrite (get_free_ctx_None tx Hi) in Htx. done.
Qed.

Lemma xmit_preserves_inv usb_msg skb w :
  free_marker_ok → driver_inv w →
  driver_inv (mcba_usb_xmit usb_msg skb w).2.
Proof.
  intros Hm (Hpool & Hnd & Hocc).
  destruct (xmit_view usb_msg skb w)
    as [(_ & Htx & Hsub)|(i & c & f & _ & Hlt & Hc & Hfree & Hf & Htx & Hsub)];
    unfold driver_inv; rewrite Htx.
  { rewrite Hsub. done. }
  assert (pool_inv (alter f i (<[i := {| ndx := Z.of_nat i; ctx_priv := true;
            ctx_dlc := ctx_dlc c; can := can c |}]> (tx_context (priv w)))))
    as Hpool'.
  { apply pool_inv_alter; [|by left]. destruct Hpool as [Hlen Hinv].
    split; [by rewrite length_insert|]. intros j cj Hl.
    destruct (decide (i = j)) as [->|Hne].
    - rewrite list_lookup_insert_eq in Hl by (by eapply lookup_lt_Some).
      simplify_eq/=. by right.
    - rewrite list_lookup_insert_ne in Hl by done. by apply Hinv. }
  assert (∀ u, u ∈ tx_submitted (priv w) → context u ≠ i) as Hfresh.
  { intros u Hu Heq. destruct (Hocc u Hu) as (c' & Hc' & Hlive).
    rewrite Heq in Hc'. simplify_eq. done. }
  assert (∀ j, slot_occupied j (tx_context (priv w)) →
            slot_occupied j (alter f i (<[i := {| ndx := Z.of_nat i;
              ctx_priv := true; ctx_dlc := ctx_dlc c; can := can c |}]>
              (tx_context (priv w))))) as Hkeep.
  { intros j Hj. apply slot_occupied_alter_ndx; [done|].
    destruct (decide (i = j)) as [->|Hne].
    - eexists. split.
      + apply list_lookup_insert_eq. by eapply lookup_lt_Some.
      + unfold ctx_live. simpl. by apply Hm.
    - by apply slot_occupied_insert_ne. }
  split; [done|]. destruct Hsub as [->| ->].
  - split; [done|]. intros u Hu. by apply Hkeep, Hocc.
  - split.
    + rewrite fmap_app. apply NoDup_app. split; [done|]. split.
      * intros x Hx Hx'. apply list_elem_of_singleton in Hx'. subst x.
        apply list_elem_of_fmap in Hx as (u & Hu & Hin).
        by apply (Hfresh u Hin).
      * apply NoDup_singleton.
    + intros u Hu. apply elem_of_app in Hu as [Hu|Hu].
      * by apply Hkeep, Hocc.
      * apply list_elem_of_singleton in Hu. subst u. simpl.
        apply slot_occupied_alter_ndx; [done|]. eexists. split.
        -- apply list_lookup_insert_eq. by eapply lookup_lt_Some.
        -- unfold ctx_live. simpl. by apply Hm.
Qed.

Lemma xmit_preserves_leak j usb_msg skb w :
  leaked j w → leaked j (mcba_usb_xmit usb_msg skb w).2.
Proof.
  intros [Hocc Hnone].
  destruct (xmit_view usb_msg skb w)
    as [(_ & Htx & Hsub)|(i & c & f & _ & Hlt & Hc & Hfree & Hf & Htx & Hsub)];
    unfold leaked; rewrite Htx.
  { by rewrite Hsub. }
  assert (i ≠ j) as Hne.
  { intros ->. destruct Hocc as (c' & Hc' & Hlive). simplify_eq. done. }
  split.
  - apply slot_occupied_alter_ndx; [done|]. by apply slot_occupied_insert_ne.
  - destruct Hsub as [->| ->]; [done|]. intros u Hu.
    apply elem_of_app in Hu as [Hu|Hu]; [by apply Hnone|].
    apply list_elem_of_singleton in Hu. subst u. done.
Qed.

End leak_facts.

(** ** The pool over the life of the driver *)

Section lifetime_facts.
Context `{hdr : mcba_usb_h}.

Lemma driver_inv_view w w' :
  tx_context (priv w') = tx_context (priv w) →
  tx_submitted (priv w') = tx_submitted (priv w) →
  driver_inv w → driver_inv w'.
Proof. unfold driver_inv. by intros -> ->. Qed.

Lemma leaked_view j w w' :
  tx_context (priv w') = tx_context (priv w) →
  tx_submitted (priv w') = tx_submitted (priv w) →
  leaked j w → leaked j w'.
Proof. unfold leaked. by intros -> ->. Qed.

(** The receive path leaves the pool and the anchor alone. *)
Lemma process_rx_view msg w :
  tx_context (priv (mcba_usb_process_rx msg w).2) = tx_context (priv w) ∧
  tx_submitted (priv (mcba_usb_process_rx msg w).2) = tx_submitted (priv w).
Proof.
  unfold mcba_usb_process_rx.
  repeat match goal with |- context [if ?b then _ else _] => destruct b end;
    try done.
  - by destruct (keep_alive_can_world (cast_msg_keep_alive_can msg) w)
      as (-> & _).
  - by destruct (keep_alive_usb_world (cast_msg_keep_alive_usb msg) w)
      as (-> & _).
  - unfold mcba_usb_process_can, alloc_can_skb, bind, extern, ret,
      modify_priv, emit; simpl.
    by destruct (ext w (tick w) =? 0)%Z.
Qed.

Lemma read_bulk_loop_view fuel u : ∀ pos w,
  tx_context (priv (read_bulk_loop fuel u pos w).2) = tx_context (priv w) ∧
  tx_submitted (priv (read_bulk_loop fuel u pos w).2)
    = tx_submitted (priv w).
Proof.
  induction fuel as [|fuel IH]; intros pos w; simpl; [done|].
  destruct (pos <? actual_length u)%Z; [|done].
  destruct (pos + sizeof_mcba_usb_msg >? actual_length u)%Z; [done|].
  rewrite bind_eq.
  destruct (IH (pos + sizeof_mcba_usb_msg)%Z
              (mcba_usb_process_rx (drop (Z.to_nat pos) (transfer_buffer u))
                 w).2) as [-> ->].
  apply process_rx_view.
Qed.

Lemma resubmit_urb_priv u w : priv (resubmit_urb u w).2 = priv w.
Proof.
  unfold resubmit_urb, usb_submit_urb, bind, emit, extern, netdev_err, ret;
    simpl.
  by repeat match goal with |- context [if ?b then _ else _] => destruct b end.
Qed.

Lemma read_bulk_callback_view u w :
  tx_context (priv (mcba_usb_read_bulk_callback u w).2)
    = tx_context (priv w) ∧
  tx_submitted (priv (mcba_usb_read_bulk_callback u w).2)
    = tx_submitted (priv w).
Proof.
  remember (mcba_usb_read_bulk_callback u w).2 as w' eqn:Hw.
  unfold mcba_usb_read_bulk_callback in Hw. mrun_in Hw.
  destruct (ext w (tick w) =? 0)%Z; mrun_in Hw; [by subst|].
  destruct (status u =? 0)%Z; mrun_in Hw.
  - subst w'. rewrite resubmit_urb_priv.
    by destruct (read_bulk_loop_view (Z.to_nat (actual_length u)) u 0
                   {| priv := priv w; debug := debug w; trace := trace w;
                      ext := ext w; tick := S (tick w) |}) as [-> ->].
  - destruct ((status u =? - ENOENT)%Z || (status u =? - ESHUTDOWN)%Z);
      mrun_in Hw; subst w'; [done|].
    by rewrite resubmit_urb_priv.
Qed.

(** A completed write URB leaves the anchor; its context is released unless
    the handler returned early. *)
Lemma giveback_view k st w u :
  tx_submitted (priv w) !! k = Some u →
  let w' := (usb_giveback_tx_urb k st w).2 in
  tx_submitted (priv w') = delete k (tx_submitted (priv w)) ∧
  (tx_context (priv w') = tx_context (priv w) ∨
   tx_context (priv w') = free_ctx (context u) (tx_context (priv w))).
Proof.
  intros Hu w'. remember w' as w0 eqn:Hw. subst w'.
  unfold usb_giveback_tx_urb in Hw. rewrite bind_eq in Hw.
  unfold get_priv in Hw. cbn [fst snd] in Hw. rewrite Hu in Hw.
  unfold mcba_usb_write_bulk_callback in Hw. mrun_in Hw.
  cbn [context status set_tx_submitted tx_context] in Hw.
  destruct (from_option can false (tx_context (priv w) !! context u));
    mrun_in Hw;
    [destruct (ext w (tick w) =? 0)%Z; mrun_in Hw|];
    try (destruct (st =? 0)%Z; mrun_in Hw);
    subst w0; cbn; auto.
Qed.

Lemma giveback_preserves_inv k st w :
  k < length (tx_submitted (priv w)) →
  driver_inv w → driver_inv (usb_giveback_tx_urb k st w).2.
Proof.
  intros Hk (Hpool & Hnd & Hocc).
  destruct (lookup_lt_is_Some_2 _ _ Hk) as [u Hu].
  destruct (giveback_view k st w u Hu) as [Hsub Htx].
  assert (∀ v, v ∈ delete k (tx_submitted (priv w)) →
            v ∈ tx_submitted (priv w) ∧ context v ≠ context u) as Hrest.
  { intros v Hv. split; [by eapply list_elem_of_delete_inv|].
    rewrite <- (take_drop_middle _ _ _ Hu), fmap_app, fmap_cons in Hnd.
    apply NoDup_app in Hnd as (_ & Hl & Hr).
    apply NoDup_cons in Hr as [Hr _].
    rewrite delete_take_drop in Hv. intros Heq.
    apply elem_of_app in Hv as [Hv|Hv].
    - apply (Hl (context v)); [by apply list_elem_of_fmap_2|].
      rewrite Heq. by left.
    - apply Hr. rewrite <- Heq. by apply list_elem_of_fmap_2. }
  unfold driver_inv. rewrite Hsub. split; [|split].
  - destruct Htx as [->| ->]; [done|].
    apply pool_inv_alter; [done|]. intros c. by right.
  - rewrite list_fmap_delete. eapply sublist_NoDup; [done|].
    apply sublist_delete.
  - intros v Hv. destruct (Hrest v Hv) as [Hin Hne].
    destruct Htx as [->| ->]; [by apply Hocc|].
    apply slot_occupied_alter_ne; [done|]. by apply Hocc.
Qed.

Lemma giveback_preserves_leak j k st w :
  k < length (tx_submitted (priv w)) →
  leaked j w → leaked j (usb_giveback_tx_urb k st w).2.
Proof.
  intros Hk [Hocc Hnone].
  destruct (lookup_lt_is_Some_2 _ _ Hk) as [u Hu].
  destruct (giveback_view k st w u Hu) as [Hsub Htx].
  unfold leaked. rewrite Hsub. split.
  - destruct Htx as [->| ->]; [done|].
    apply slot_occupied_alter_ne; [|done].
    apply Hnone. by eapply list_elem_of_lookup_2.
  - intros v Hv. apply Hnone. by eapply list_elem_of_delete_inv.
Qed.

(** Every step is a call of [mcba_usb_xmit] from a state with the same pool
    and anchor, a completion, or leaves the pool and the anchor alone. *)
Lemma driver_step_cases w w' :
  driver_step w w' →
  (tx_context (priv w') = tx_context (priv w) ∧
   tx_submitted (priv w') = tx_submitted (priv w)) ∨
  (∃ w1 usb_msg skb,
     tx_context (priv w1) = tx_context (priv w) ∧
     tx_submitted (priv w1) = tx_submitted (priv w) ∧
     w' = (mcba_usb_xmit usb_msg skb w1).2) ∨
  (∃ k st, k < length (tx_submitted (priv w)) ∧
           w' = (usb_giveback_tx_urb k st w).2).
Proof.
  intros [w0 cf|w0 usb_msg|w0 v|w0|w0 u|w0 k st Hk|w0 w0' Htx Hsub].
  - right. left. by eexists w0, _, _.
  - right. left. by eexists w0, usb_msg, None.
  - unfold termination_store, when. cbn zeta.
    destruct ((0 =? from_option u8 0 v)%Z || (1 =? from_option u8 0 v)%Z);
      [|by left].
    right. left.
    eexists (modify_priv (set_termination_state (from_option u8 0%Z v)) w0).2,
      _, None.
    done.
  - destruct (decide (bitrate (bittiming (priv w0)) ∈ supported_bitrates))
      as [Hin|Hno].
    + unfold supported_bitrates in Hin.
      apply list_elem_of_fmap in Hin
        as ([[b' [[[[s p] s1] s2] br]] k] & Hb & Hrow).
      cbn in Hb. subst b'.
      rewrite (set_bittiming_row w0 s p s1 s2 br k Hrow).
      right. left.
      eexists (modify_priv (λ q, set_can_bittiming
        (mcba_net_calc_bittiming s p s1 s2 br (bittiming q)) q) w0).2, _, None.
      done.
    + left. by rewrite (set_bittiming_default w0 Hno).
  - left. apply read_bulk_callback_view.
  - right. right. by exists k, st.
  - by left.
Qed.

Lemma driver_step_preserves_inv w w' :
  free_marker_ok → driver_step w w' → driver_inv w → driver_inv w'.
Proof.
  intros Hm Hstep Hinv.
  destruct (driver_step_cases w w' Hstep)
    as [[Htx Hsub]|[(w1 & usb_msg & skb & Htx & Hsub & ->)
                   |(k & st & Hk & ->)]].
  - by apply (driver_inv_view w).
  - apply xmit_preserves_inv; [done|]. by apply (driver_inv_view w).
  - by apply giveback_preserves_inv.
Qed.

Lemma driver_step_preserves_leak j w w' :
  driver_step w w' → leaked j w → leaked j w'.
Proof.
  intros Hstep Hl.
  destruct (driver_step_cases w w' Hstep)
    as [[Htx Hsub]|[(w1 & usb_msg & skb & Htx & Hsub & ->)
                   |(k & st & Hk & ->)]].
  - by apply (leaked_view j w).
  - apply xmit_preserves_leak. by apply (leaked_view j w).
  - by apply giveback_preserves_leak.
Qed.

Lemma driver_steps_preserve_leak j w w' :
  rtc driver_step w w' → leaked j w → leaked j w'.
Proof.
  induction 1 as [|x y z Hstep _ IH]; [done|]. intros Hl.
  apply IH. by eapply driver_step_preserves_leak.
Qed.

Lemma driver_reachable_inv w :
  free_marker_ok → driver_reachable w → driver_inv w.
Proof.
  intros Hm. induction 1 as [w Hlen Hsub|w w' _ IH Hstep].
  - unfold mcba_init_ctx, modify_priv, driver_inv. cbn.
    rewrite Hsub. split; [|split].
    + apply pool_reachable_inv. by constructor.
    + constructor.
    + intros u Hu. by apply elem_of_nil in Hu.
  - by eapply driver_step_preserves_inv.
Qed.

(** C10: when [mcba_usb_xmit] has got a context and then fails, by a failed
    URB allocation, a failed buffer allocation or a failed submission, it
    returns [NETDEV_TX_OK] and counts one more dropped frame; the context
    stays taken and no URB in flight refers to it, and, since only the
    completion of a URB in flight releases a context, it stays taken in every
    state the driver reaches afterwards. *)
Theorem xmit_failure_leaks_context usb_msg skb w i :
  free_marker_ok → driver_reachable w →
  (get_free_ctx (tx_context (priv w))).1 = Some i →
  xmit_fails w →
  let r := mcba_usb_xmit usb_msg skb w in
  r.1 = NETDEV_TX_OK ∧
  tx_dropped (stats (priv r.2)) = ulong (tx_dropped (stats (priv w)) + 1) ∧
  slot_occupied i (tx_context (priv r.2)) ∧
  (∀ u, u ∈ tx_submitted (priv r.2) → context u ≠ i) ∧
  (∀ w', rtc driver_step r.2 w' → slot_occupied i (tx_context (priv w'))).
Proof.
  intros Hm Hreach Hi Hfail r.
  pose proof (driver_reachable_inv w Hm Hreach) as (Hpool & Hnd & Hocc).
  pose proof (xmit_world usb_msg skb w) as (_ & _ & _ & Hx).
  cbn zeta in Hx. rewrite Hi in Hx. fold r in Hx.
  destruct Hx as (Hret & (f & Hf & Htx) & Hfails & _).
  destruct (Hfails Hfail) as [Hsub Hdrop].
  destruct (get_free_ctx_Some _ i Hi) as (Hlt & c & Hc & Hfree & Heq).
  assert (leaked i r.2) as Hleak.
  { split.
    - rewrite Htx, Heq. apply slot_occupied_alter_ndx; [done|].
      eexists. split.
      + apply list_lookup_insert_eq. by eapply lookup_lt_Some.
      + unfold ctx_live. simpl. by apply Hm.
    - rewrite Hsub. intros u Hu Hctx.
      destruct (Hocc u Hu) as (c' & Hc' & Hlive).
      rewrite Hctx in Hc'. simplify_eq. done. }
  split; [done|]. split; [done|]. split; [apply Hleak|].
  split; [apply Hleak|].
  intros w' Hsteps.
  by destruct (driver_steps_preserve_leak i r.2 w' Hsteps Hleak) as [? _].
Qed.

End lifetime_facts.

Lemma set_bittiming_supported_bitrates_witness :
  let w := example_world_bitrate 125000 in
  let r := mcba_net_set_bittiming (hdr := spec_header) w in
  let cmd := msg_of_change_bitrate (mcba_usb_h := spec_header)
               {| cmd_id := 0xa1; bitrate_hi := 0; bitrate_lo := 125 |} in
  ((125000, (1, 3, 8, 8, 16), 125)%Z ∈ bittiming_table) ∧
  (get_free_ctx (hdr := spec_header) (tx_context (priv w))).1 = Some 0 ∧
  ¬ xmit_fails w ∧
  (10000%Z ∉ supported_bitrates) ∧
  r.1 = 0%Z ∧
  bittiming (priv r.2) =
    {| bitrate := 125000; sample_point := 600; tq := 400; prop_seg := 3;
       phase_seg1 := 8; phase_seg2 := 8; sjw := 1; brp := 16 |} ∧
  tx_submitted (priv r.2) = [tx_urb (hdr := spec_header) 0 cmd] ∧
  (mcba_net_set_bittiming (hdr := spec_header)
     (example_world_bitrate 10000)).1 = (- EINVAL)%Z.
Proof.
  intros w r cmd.
  assert ((125000, (1, 3, 8, 8, 16), 125)%Z ∈ bittiming_table) as Hrow.
  { unfold bittiming_table. rewrite !elem_of_cons.
    do 6 right. left. reflexivity. }
  assert ((get_free_ctx (hdr := spec_header) (tx_context (priv w))).1 = Some 0)
    as Hctx by reflexivity.
  assert (¬ xmit_fails w) as Hok.
  { intros [H|[[_ H]|(_ & _ & H)]]; vm_compute in H; congruence. }
  assert (10000%Z ∉ supported_bitrates) as Hno.
  { apply (bool_decide_unpack _). by vm_compute. }
  destruct (set_bittiming_supported_bitrates (hdr := spec_header) w)
    as (_ & _ & _ & Hrows & _).
  destruct (Hrows _ _ _ _ _ _ Hrow) as (Hret & Hbt & _ & Hsub).
  rewrite Hctx in Hsub. destruct Hsub as [Hsent _].
  destruct (set_bittiming_supported_bitrates (hdr := spec_header)
              (example_world_bitrate 10000)) as (_ & _ & _ & _ & Herr & _).
  destruct (Herr Hno) as [Hinval _].
  split; [exact Hrow|]. split; [exact Hctx|]. split; [exact Hok|].
  split; [exact Hno|]. split; [exact Hret|]. split; [exact Hbt|].
  split; [exact (proj1 (Hsent Hok))|exact Hinval].
Defined.

(** With every context taken, and with a free context but no memory for
    the URB, [mcba_net_set_bittiming] returns 0 for the supported bitrate
    125000 and stores the bit timing, and no command is submitted. *)
Lemma set_bittiming_unsent_counterexample :
  let full := (λ i : nat, {| ndx := Z.of_nat i; ctx_priv := true;
                             ctx_dlc := 0; can := false |}) <$> seq 0 32 in
  let w := (modify_priv (set_tx_context full)
              (example_world_bitrate 125000)).2 in
  let r := mcba_net_set_bittiming (hdr := spec_header) w in
  let w0 := {| priv := priv (example_world_bitrate 125000); debug := 0;
               trace := []; ext := λ _, 0%Z; tick := 0 |} in
  let r0 := mcba_net_set_bittiming (hdr := spec_header) w0 in
  (125000%Z ∈ supported_bitrates) ∧
  r.1 = 0%Z ∧ tq (bittiming (priv r.2)) = 400%Z ∧
  tx_submitted (priv r.2) = [] ∧ trace r.2 = [NetifStopQueue] ∧
  r0.1 = 0%Z ∧ tq (bittiming (priv r0.2)) = 400%Z ∧
  tx_submitted (priv r0.2) = [] ∧
  trace r0.2 = [NetdevErr "No memory left for URBs" [];
                CanFreeEchoSkb 0; DevKfreeSkb None].
Proof.
  split; [apply (bool_decide_unpack _); by vm_compute|].
  vm_compute. repeat split.
Qed.

Lemma xmit_failure_leaks_context_witness :
  let w := (mcba_init_ctx (hdr := spec_header) example_world_nomem).2 in
  let r := mcba_usb_xmit (hdr := spec_header) [] None w in
  @free_marker_ok spec_header ∧
  driver_reachable (hdr := spec_header) w ∧
  (get_free_ctx (hdr := spec_header) (tx_context (priv w))).1 = Some 0 ∧
  xmit_fails w ∧
  r.1 = NETDEV_TX_OK ∧
  tx_dropped (stats (priv r.2)) = 1%Z ∧
  slot_occupied (hdr := spec_header) 0 (tx_context (priv r.2)).
Proof.
  intros w r.
  assert (@free_marker_ok spec_header) as Hm.
  { intros i Hi. simpl in *. lia. }
  assert (driver_reachable (hdr := spec_header) w) as Hreach.
  { apply (reach_start (hdr := spec_header)); reflexivity. }
  assert ((get_free_ctx (hdr := spec_header) (tx_context (priv w))).1 = Some 0)
    as Hctx by reflexivity.
  assert (xmit_fails w) as Hfail by (left; reflexivity).
  destruct (xmit_failure_leaks_context (hdr := spec_header) [] None w 0
              Hm Hreach Hctx Hfail) as (Hret & Hdrop & Hocc & _).
  split; [exact Hm|]. split; [exact Hreach|]. split; [exact Hctx|].
  split; [exact Hfail|]. split; [exact Hret|].
  split; [exact Hdrop|exact Hocc].
Defined.

(** ** More on the receive path *)

Section receive_more.
Context `{hdr : mcba_usb_h}.

Lemma same_tx_state_refl p : same_tx_state p p.
Proof. by unfold same_tx_state. Qed.

Lemma same_tx_state_trans p q r :
  same_tx_state p q → same_tx_state q r → same_tx_state p r.
Proof.
  unfold same_tx_state.
  intros (-> & -> & -> & -> & -> & ->) (-> & -> & -> & -> & -> & ->). done.
Qed.

Lemma process_can_world msg w :
  let w' := (mcba_usb_process_can msg w).2 in
  let len := u8 (Z.land (dlc msg) MCBA_DLC_MASK) in
  debug w' = debug w ∧ ext w' = ext w ∧ tick w' = S (tick w) ∧
  if (ext w (tick w) =? 0)%Z then priv w' = priv w ∧ trace w' = trace w
  else
    priv w' =
      set_stats
        {| rx_packets := ulong (rx_packets (stats (priv w)) + 1);
           rx_bytes := ulong (rx_bytes (stats (priv w)) + len);
           tx_packets := tx_packets (stats (priv w));
           tx_bytes := tx_bytes (stats (priv w));
           tx_dropped := tx_dropped (stats (priv w)) |} (priv w) ∧
    ∃ cf, trace w' = trace w ++ [NetifRx cf] ∧ can_dlc cf = len ∧
          cf_data cf = memcpy (replicate CAN_MAX_DLEN 0%Z) (data msg)
                         (Z.to_nat len).
Proof.
  unfold mcba_usb_process_can, alloc_can_skb, bind, extern, ret,
    modify_priv, emit; simpl.
  destruct (ext w (tick w) =? 0)%Z; simpl; [done|].
  repeat split. eexists. split; [reflexivity|]. done.
Qed.

Lemma process_rx_same_tx_state msg w :
  same_tx_state (priv w) (priv (mcba_usb_process_rx msg w).2).
Proof.
  unfold mcba_usb_process_rx.
  repeat match goal with |- context [if ?b then _ else _] => destruct b end;
    try apply same_tx_state_refl.
  - destruct (keep_alive_can_world (cast_msg_keep_alive_can msg) w)
      as (-> & _). by unfold same_tx_state.
  - destruct (keep_alive_usb_world (cast_msg_keep_alive_usb msg) w)
      as (-> & _). by unfold same_tx_state.
  - destruct (process_can_world (cast_msg_can msg) w) as (_ & _ & _ & Hw).
    destruct (ext w (tick w) =? 0)%Z.
    + destruct Hw as [-> _]. apply same_tx_state_refl.
    + destruct Hw as [-> _]. by unfold same_tx_state.
Qed.

Lemma read_bulk_loop_same_tx_state fuel u : ∀ pos w,
  same_tx_state (priv w) (priv (read_bulk_loop fuel u pos w).2).
Proof.
  induction fuel as [|fuel IH]; intros pos w; simpl;
    [apply same_tx_state_refl|].
  destruct (pos <? actual_length u)%Z; [|apply same_tx_state_refl].
  destruct (pos + sizeof_mcba_usb_msg >? actual_length u)%Z;
    [apply same_tx_state_refl|].
  rewrite bind_eq. eapply same_tx_state_trans; [|apply IH].
  apply process_rx_same_tx_state.
Qed.

(** What the statements after the label [resubmit_urb] do. *)
Lemma resubmit_urb_world u w :
  resubmit_urb u w =
    (tt, {| priv := priv w; debug := debug w;
            trace := trace w ++ resubmit_events u (ext w (tick w));
            ext := ext w; tick := S (tick w) |}).
Proof.
  unfold resubmit_urb, resubmit_events, usb_submit_urb, bind, emit, extern,
    netdev_err, ret; simpl.
  destruct (ext w (tick w) =? - ENODEV)%Z; simpl;
    [by rewrite <- app_assoc|].
  destruct (ext w (tick w) =? 0)%Z; unfold emit; simpl;
    by rewrite <- ?app_assoc.
Qed.

(** X1: a read URB that did not complete with status 0, or that completes
    while the device is not present, has none of its buffer handled: the
    private data are left as they were, whatever the buffer holds.  The URB
    is given back to the USB core exactly when the device is present and
    the status is neither [-ENOENT] nor [-ESHUTDOWN]; the handler then logs
    the status first, and afterwards detaches the device when the
    submission returns [-ENODEV] or logs any other error of it. *)
Theorem read_bulk_callback_failed_transfer u w :
  status u ≠ 0%Z ∨ ext w (tick w) = 0%Z →
  let w' := (mcba_usb_read_bulk_callback u w).2 in
  priv w' = priv w ∧
  trace w' =
    trace w ++
    (if (ext w (tick w) =? 0)%Z || (status u =? - ENOENT)%Z
        || (status u =? - ESHUTDOWN)%Z
     then []
     else NetdevInfo "Rx URB aborted (%d)" [status u]
          :: resubmit_events u (ext w (S (tick w)))).
Proof.
  intros Hcase w'. remember w' as w0 eqn:Hw. subst w'.
  unfold mcba_usb_read_bulk_callback in Hw. mrun_in Hw.
  destruct (Z.eqb_spec (ext w (tick w)) 0) as [He|He]; mrun_in Hw.
  { subst w0. cbn. by rewrite app_nil_r. }
  destruct Hcase as [Hst|Hst]; [|done].
  destruct (Z.eqb_spec (status u) 0) as [|_]; [done|].
  cbn [orb].
  destruct ((status u =? - ENOENT)%Z || (status u =? - ESHUTDOWN)%Z);
    mrun_in Hw.
  { subst w0. cbn. by rewrite app_nil_r. }
  rewrite resubmit_urb_world in Hw. subst w0. cbn.
  by rewrite <- app_assoc.
Qed.

(** The frame [mcba_usb_process_can] delivers for a message whose masked
    length [n] is at most 8. *)
Lemma process_can_valid_world msg w n :
  u8 (Z.land (dlc msg) MCBA_DLC_MASK) = n → (0 ≤ n ≤ 8)%Z →
  Z.to_nat n ≤ length (data msg) →
  ext w (tick w) ≠ 0%Z →
  let w' := (mcba_usb_process_can msg w).2 in
  ∃ cf,
    trace w' = trace w ++ [NetifRx cf] ∧
    can_dlc cf = n ∧
    cf_data cf = take (Z.to_nat n) (data msg)
                 ++ replicate (CAN_MAX_DLEN - Z.to_nat n) 0%Z ∧
    length (cf_data cf) = CAN_MAX_DLEN ∧
    rx_packets (stats (priv w'))
      = ulong (rx_packets (stats (priv w)) + 1) ∧
    rx_bytes (stats (priv w')) = ulong (rx_bytes (stats (priv w)) + n) ∧
    same_tx_state (priv w) (priv w').
Proof.
  intros Hn Hrange Hlen He w'.
  destruct (process_can_world msg w) as (_ & _ & _ & Hw). fold w' in Hw.
  rewrite Hn in Hw.
  destruct (Z.eqb_spec (ext w (tick w)) 0) as [|_]; [done|].
  destruct Hw as (Hp & cf & Ht & Hd & Hdata).
  assert (cf_data cf = take (Z.to_nat n) (data msg)
                       ++ replicate (CAN_MAX_DLEN - Z.to_nat n) 0%Z) as Hc.
  { rewrite Hdata. unfold memcpy. by rewrite drop_replicate. }
  exists cf. rewrite Hp. repeat split; try done.
  rewrite Hc, length_app, length_take, length_replicate.
  unfold CAN_MAX_DLEN. lia.
Qed.

(** X2: a received CAN-data message whose masked length [n] is a valid one
    (at most 8) is delivered as a frame of length [n] whose data are the
    first [n] payload bytes followed by zeros, 8 bytes in all, and it counts
    as one received packet of [n] bytes.  When no socket buffer is available
    the message is dropped without a trace: nothing is delivered and no
    counter changes. *)
Theorem process_can_valid_dlc msg w n :
  u8 (Z.land (dlc msg) MCBA_DLC_MASK) = n → (0 ≤ n ≤ 8)%Z →
  Z.to_nat n ≤ length (data msg) →
  let w' := (mcba_usb_process_can msg w).2 in
  (ext w (tick w) = 0%Z → priv w' = priv w ∧ trace w' = trace w) ∧
  (ext w (tick w) ≠ 0%Z →
     ∃ cf,
       trace w' = trace w ++ [NetifRx cf] ∧
       can_dlc cf = n ∧
       cf_data cf = take (Z.to_nat n) (data msg)
                    ++ replicate (CAN_MAX_DLEN - Z.to_nat n) 0%Z ∧
       length (cf_data cf) = CAN_MAX_DLEN ∧
       rx_packets (stats (priv w'))
         = ulong (rx_packets (stats (priv w)) + 1) ∧
       rx_bytes (stats (priv w')) = ulong (rx_bytes (stats (priv w)) + n) ∧
       same_tx_state (priv w) (priv w')).
Proof.
  intros Hn Hrange Hlen w'. split.
  - intros He. destruct (process_can_world msg w) as (_ & _ & _ & Hw).
    by rewrite He in Hw.
  - intros He. by apply process_can_valid_world.
Qed.

(** What [mcba_usb_process_rx] does with a record that is no keep-alive and
    no received CAN message. *)
Lemma process_rx_other_command msg w :
  msg_cmdId msg ≠ MBCA_CMD_I_AM_ALIVE_FROM_CAN →
  msg_cmdId msg ≠ MBCA_CMD_I_AM_ALIVE_FROM_USB →
  msg_cmdId msg ≠ MBCA_CMD_RECEIVE_MESSAGE →
  mcba_usb_process_rx msg w =
    (tt, {| priv := priv w; debug := debug w;
            trace := trace w ++ unsupported_warnings [msg];
            ext := ext w; tick := tick w |}).
Proof.
  intros H1 H2 H3. unfold mcba_usb_process_rx, unsupported_warnings.
  destruct (Z.eqb_spec (msg_cmdId msg) MBCA_CMD_I_AM_ALIVE_FROM_CAN); [done|].
  destruct (Z.eqb_spec (msg_cmdId msg) MBCA_CMD_I_AM_ALIVE_FROM_USB); [done|].
  destruct (Z.eqb_spec (msg_cmdId msg) MBCA_CMD_RECEIVE_MESSAGE); [done|].
  destruct w as [p d t e k]. cbn [fmap list_fmap concat].
  destruct (msg_cmdId msg =? MBCA_CMD_NOTHING_TO_SEND)%Z; cbn;
    [by rewrite app_nil_r|].
  destruct (msg_cmdId msg =? MBCA_CMD_TRANSMIT_MESSAGE_RSP)%Z; cbn;
    [by rewrite app_nil_r|done].
Qed.

(** X3: records whose command is none of the two keep-alives and not a
    received CAN message change nothing in the private data and call
    nothing that can fail, however many of them a buffer holds: the two
    acknowledgements are passed over in silence, every other command is
    reported with its identifier in one warning, and the handling goes on
    with the next record. *)
Theorem process_all_other_commands msgs w :
  Forall (λ m, msg_cmdId m ≠ MBCA_CMD_I_AM_ALIVE_FROM_CAN ∧
               msg_cmdId m ≠ MBCA_CMD_I_AM_ALIVE_FROM_USB ∧
               msg_cmdId m ≠ MBCA_CMD_RECEIVE_MESSAGE) msgs →
  process_all msgs w =
    (tt, {| priv := priv w; debug := debug w;
            trace := trace w ++ unsupported_warnings msgs;
            ext := ext w; tick := tick w |}).
Proof.
  intros Hall. revert w.
  induction Hall as [|m msgs (H1 & H2 & H3) _ IH]; intros w.
  - destruct w. cbn. by rewrite app_nil_r.
  - cbn [process_all]. rewrite bind_eq.
    rewrite (process_rx_other_command m w H1 H2 H3). cbn [fst snd].
    rewrite IH. cbn [priv debug trace ext tick].
    unfold unsupported_warnings. cbn [fmap list_fmap concat].
    by rewrite app_nil_r, <- app_assoc.
Qed.

(** X4: whatever a read URB brings, its completion handler never changes
    the transmit side: the context array, the anchor of the write URBs, the
    bit timing and the three transmit counters are the same after the call. *)
Theorem read_bulk_callback_same_tx_state u w :
  same_tx_state (priv w) (priv (mcba_usb_read_bulk_callback u w).2).
Proof.
  remember (mcba_usb_read_bulk_callback u w).2 as w' eqn:Hw.
  unfold mcba_usb_read_bulk_callback in Hw. mrun_in Hw.
  destruct (ext w (tick w) =? 0)%Z; mrun_in Hw;
    [subst; apply same_tx_state_refl|].
  destruct (status u =? 0)%Z; mrun_in Hw.
  - subst w'. rewrite resubmit_urb_world. cbn [snd priv].
    apply (read_bulk_loop_same_tx_state (Z.to_nat (actual_length u)) u 0
             {| priv := priv w; debug := debug w; trace := trace w;
                ext := ext w; tick := S (tick w) |}).
  - destruct ((status u =? - ENOENT)%Z || (status u =? - ESHUTDOWN)%Z);
      mrun_in Hw; subst w'; [apply same_tx_state_refl|].
    rewrite resubmit_urb_world. apply same_tx_state_refl.
Qed.

End receive_more.

(** ** More on the transmit path *)

Section transmit_more.
Context `{hdr : mcba_usb_h}.

(** [mcba_usb_get_free_ctx] takes the free slot with the lowest index. *)
Lemma get_free_ctx_first_free tx i c :
  i < MCBA_MAX_TX_URBS → tx !! i = Some c → ndx c = MCBA_CTX_FREE →
  (∀ j cj, j < i → tx !! j = Some cj → ndx cj ≠ MCBA_CTX_FREE) →
  get_free_ctx tx =
    (Some i, <[i := {| ndx := Z.of_nat i; ctx_priv := true;
                       ctx_dlc := ctx_dlc c; can := can c |}]> tx).
Proof.
  intros Hi Hc Hfree Hlow. unfold get_free_ctx.
  pose proof (get_free_ctx_loop_spec MCBA_MAX_TX_URBS 0 tx) as Hs.
  destruct (get_free_ctx_loop MCBA_MAX_TX_URBS 0 tx) as [[k|] tx'] eqn:He;
    simpl in Hs.
  - destruct Hs as (Hk & (ck & Hck & Hckf & ->) & Hbelow).
    assert (k = i) as ->.
    { destruct (decide (k < i)); [by destruct (Hlow k ck)|].
      destruct (decide (i < k)); [|lia].
      by destruct (Hbelow i c); [lia|done|]. }
    by simplify_eq.
  - destruct Hs as [_ Hall]. by destruct (Hall i c); [lia|done|].
Qed.

Lemma alter_insert_eq {A} (f : A → A) (l : list A) i x :
  alter f i (<[i := x]> l) = <[i := f x]> l.
Proof. by rewrite !list_insert_alter, list_alter_alter_eq. Qed.

(** [mcba_usb_xmit] when no slot is free. *)
Lemma xmit_exhausted_world usb_msg skb w :
  (∀ j c, tx_context (priv w) !! j = Some c → ctx_live c) →
  mcba_usb_xmit usb_msg skb w =
    (NETDEV_TX_BUSY,
     {| priv := priv w; debug := debug w;
        trace := trace w ++ [NetifStopQueue];
        ext := ext w; tick := tick w |}).
Proof.
  intros Hall. unfold mcba_usb_xmit, mcba_usb_get_free_ctx.
  rewrite !bind_eq. unfold get_priv. cbn [fst snd].
  rewrite (get_free_ctx_exhausted _ Hall).
  destruct w as [p d t e k]. destruct p. reflexivity.
Qed.

(** X5: when every slot of the context array is taken, [mcba_usb_xmit]
    refuses the message without losing it: it stops the transmit queue and
    returns [NETDEV_TX_BUSY]; the private data (the drop counter with them)
    are left as they were and the USB core is not called. *)
Theorem xmit_pool_exhausted usb_msg skb w :
  (∀ j c, tx_context (priv w) !! j = Some c → ctx_live c) →
  mcba_usb_xmit usb_msg skb w =
    (NETDEV_TX_BUSY,
     {| priv := priv w; debug := debug w;
        trace := trace w ++ [NetifStopQueue];
        ext := ext w; tick := tick w |}).
Proof. apply xmit_exhausted_world. Qed.

(** What [mcba_usb_xmit] leaves behind when it got slot [i] and the USB
    core took the URB. *)
Lemma xmit_success_world usb_msg skb w i c :
  i < MCBA_MAX_TX_URBS → tx_context (priv w) !! i = Some c →
  ndx c = MCBA_CTX_FREE →
  (∀ j cj, j < i → tx_context (priv w) !! j = Some cj →
           ndx cj ≠ MCBA_CTX_FREE) →
  ¬ xmit_fails w →
  let r := mcba_usb_xmit usb_msg skb w in
  r.1 = NETDEV_TX_OK ∧
  tx_context (priv r.2) =
    <[i := {| ndx := Z.of_nat i; ctx_priv := true;
              ctx_dlc := match skb with
                         | Some _ => dlc (cast_msg_can usb_msg)
                         | None => ctx_dlc c
                         end;
              can := match skb with Some _ => true | None => false end |}]>
      (tx_context (priv w)) ∧
  tx_submitted (priv r.2) = tx_submitted (priv w) ++ [tx_urb i usb_msg] ∧
  stats (priv r.2) = stats (priv w) ∧
  same_device_state (priv w) (priv r.2) ∧
  trace r.2 =
    trace w
    ++ match skb with Some _ => [CanPutEchoSkb (Z.of_nat i)] | None => [] end
    ++ [UsbSubmitUrb (tx_urb i usb_msg)] ∧
  debug r.2 = debug w ∧ ext r.2 = ext w ∧ tick r.2 = 3 + tick w.
Proof.
  intros Hi Hc Hfree Hlow Hok r.
  assert (ext w (tick w) ≠ 0 ∧ ext w (S (tick w)) ≠ 0
          ∧ ext w (S (S (tick w))) = 0)%Z as (E0 & E1 & E2).
  { unfold xmit_fails in Hok.
    destruct (decide (ext w (tick w) = 0%Z)); [tauto|].
    destruct (decide (ext w (S (tick w)) = 0%Z)); [tauto|].
    destruct (decide (ext w (S (S (tick w))) = 0%Z)); tauto. }
  apply Z.eqb_neq in E0, E1.
  assert (i < length (tx_context (priv w))) as Hlen
    by (by eapply lookup_lt_Some).
  remember r as r0 eqn:Hr. subst r.
  unfold mcba_usb_xmit in Hr. mrun_in Hr.
  rewrite (get_free_ctx_first_free _ i c Hi Hc Hfree Hlow) in Hr.
  cbn [fst snd] in Hr.
  destruct skb as [cf|]; mrun_in Hr;
    rewrite E0 in Hr; mrun_in Hr; rewrite E1 in Hr; mrun_in Hr;
    rewrite E2 in Hr; mrun_in Hr; cbn [Z.eqb negb] in Hr; mrun_in Hr;
    subst r0; unfold same_device_state, tx_urb;
    cbn [fst snd priv debug trace ext tick tx_context tx_submitted stats
         pic_usb_sw_ver_major pic_usb_sw_ver_minor
         pic_can_sw_ver_major pic_can_sw_ver_minor termination_state bec
         bittiming set_tx_context set_tx_submitted set_stats];
    rewrite ?list_alter_alter_eq, ?alter_insert_eq, ?list_lookup_insert_eq
      by done;
    rewrite <- ?app_assoc; done.
Qed.

(** X6: when [mcba_usb_xmit] finds a free slot and the USB core takes the
    URB, the message goes out on the free slot with the lowest index: the
    slot records its own index, whether the message carries a frame and,
    for a frame, the length byte of the message; the URB carries the first
    [MCBA_USB_TX_BUFF_SIZE] bytes of the message and is put last on the
    anchor; a frame is stored for echo under the index of the slot; no
    counter changes and the call returns [NETDEV_TX_OK]. *)
Theorem xmit_accepted usb_msg skb w i c :
  i < MCBA_MAX_TX_URBS → tx_context (priv w) !! i = Some c →
  ndx c = MCBA_CTX_FREE →
  (∀ j cj, j < i → tx_context (priv w) !! j = Some cj →
           ndx cj ≠ MCBA_CTX_FREE) →
  ¬ xmit_fails w →
  let r := mcba_usb_xmit usb_msg skb w in
  r.1 = NETDEV_TX_OK ∧
  tx_context (priv r.2) =
    <[i := {| ndx := Z.of_nat i; ctx_priv := true;
              ctx_dlc := match skb with
                         | Some _ => dlc (cast_msg_can usb_msg)
                         | None => ctx_dlc c
                         end;
              can := match skb with Some _ => true | None => false end |}]>
      (tx_context (priv w)) ∧
  tx_submitted (priv r.2) =
    tx_submitted (priv w)
    ++ [{| context := i;
           transfer_buffer := take MCBA_USB_TX_BUFF_SIZE usb_msg;
           actual_length := 0; status := 0 |}] ∧
  stats (priv r.2) = stats (priv w) ∧
  trace r.2 =
    trace w
    ++ match skb with Some _ => [CanPutEchoSkb (Z.of_nat i)] | None => [] end
    ++ [UsbSubmitUrb (tx_urb i usb_msg)].
Proof.
  intros Hi Hc Hfree Hlow Hok r.
  destruct (xmit_success_world usb_msg skb w i c Hi Hc Hfree Hlow Hok)
    as (H1 & H2 & H3 & H4 & _ & H5 & _).
  done.
Qed.

(** What the completion of the write URB at position [k] of the anchor
    leaves behind; [c] is the context the URB refers to. *)
Lemma giveback_world k st w u c :
  tx_submitted (priv w) !! k = Some u →
  tx_context (priv w) !! context u = Some c →
  let w' := (usb_giveback_tx_urb k st w).2 in
  tx_submitted (priv w') = delete k (tx_submitted (priv w)) ∧
  same_device_state (priv w) (priv w') ∧
  debug w' = debug w ∧ ext w' = ext w ∧
  tick w' = (if can c then S (tick w) else tick w) ∧
  if can c && (ext w (tick w) =? 0)%Z then
    tx_context (priv w') = tx_context (priv w) ∧
    stats (priv w') = stats (priv w) ∧
    trace w' = trace w
  else
    tx_context (priv w') = <[context u := free_slot]> (tx_context (priv w)) ∧
    stats (priv w') =
      (if can c then
         {| rx_packets := rx_packets (stats (priv w));
            rx_bytes := rx_bytes (stats (priv w));
            tx_packets := ulong (tx_packets (stats (priv w)) + 1);
            tx_bytes := ulong (tx_bytes (stats (priv w)) + ctx_dlc c);
            tx_dropped := tx_dropped (stats (priv w)) |}
       else stats (priv w)) ∧
    trace w' =
      trace w
      ++ (if can c then [CanGetEchoSkb (ndx c); NetifWakeQueue] else [])
      ++ (if (st =? 0)%Z then []
          else [NetdevInfo "Tx URB aborted (%d)" [st]]).
Proof.
  intros Hu Hc w'. remember w' as w0 eqn:Hw. subst w'.
  unfold usb_giveback_tx_urb in Hw. rewrite bind_eq in Hw.
  unfold get_priv in Hw. cbn [fst snd] in Hw. rewrite Hu in Hw.
  unfold mcba_usb_write_bulk_callback in Hw. mrun_in Hw.
  cbn [context status set_tx_submitted tx_context] in Hw.
  rewrite Hc in Hw. cbn [from_option] in Hw.
  destruct (can c); cbn [andb]; mrun_in Hw;
    [destruct (ext w (tick w) =? 0)%Z; mrun_in Hw|];
    try (destruct (st =? 0)%Z; mrun_in Hw);
    subst w0; unfold same_device_state, free_ctx, free_slot;
    cbn [fst snd priv debug trace ext tick tx_context tx_submitted stats
         pic_usb_sw_ver_major pic_usb_sw_ver_minor
         pic_can_sw_ver_major pic_can_sw_ver_minor termination_state bec
         bittiming set_tx_context set_tx_submitted set_stats];
    rewrite <- ?list_insert_alter, <- ?app_assoc, ?app_nil_r; done.
Qed.

(** X7: the completion handler of a write URB releases the context of the
    URB, unless the message carried a frame and the device is no longer
    present: the slot is marked free with its fields cleared.  For a frame
    it counts one transmitted packet of as many bytes as the slot recorded,
    takes the echo of the frame and wakes the queue; it does so whatever the
    status of the URB, which is only logged when it is not 0.  For a bare
    command no counter changes and the presence of the device is not
    looked at. *)
Theorem write_completion_releases_context k st w u c :
  tx_submitted (priv w) !! k = Some u →
  tx_context (priv w) !! context u = Some c →
  can c = false ∨ ext w (tick w) ≠ 0%Z →
  let w' := (usb_giveback_tx_urb k st w).2 in
  tx_submitted (priv w') = delete k (tx_submitted (priv w)) ∧
  tx_context (priv w') = <[context u := free_slot]> (tx_context (priv w)) ∧
  tx_packets (stats (priv w')) =
    (if can c then ulong (tx_packets (stats (priv w)) + 1)
     else tx_packets (stats (priv w))) ∧
  tx_bytes (stats (priv w')) =
    (if can c then ulong (tx_bytes (stats (priv w)) + ctx_dlc c)
     else tx_bytes (stats (priv w))) ∧
  tx_dropped (stats (priv w')) = tx_dropped (stats (priv w)) ∧
  trace w' =
    trace w
    ++ (if can c then [CanGetEchoSkb (ndx c); NetifWakeQueue] else [])
    ++ (if (st =? 0)%Z then [] else [NetdevInfo "Tx URB aborted (%d)" [st]]) ∧
  tick w' = (if can c then S (tick w) else tick w).
Proof.
  intros Hu Hc Hcase w'.
  destruct (giveback_world k st w u c Hu Hc) as (Hs & _ & _ & _ & Ht & Hw).
  fold w' in Hs, Ht, Hw.
  assert (can c && (ext w (tick w) =? 0)%Z = false) as Hb.
  { destruct Hcase as [->|He]; [done|].
    apply Z.eqb_neq in He. rewrite He. by destruct (can c). }
  rewrite Hb in Hw. destruct Hw as (Htx & Hst & Htr).
  rewrite Hst. repeat split; try done; by destruct (can c).
Qed.

(** X8: when the write URB of a frame completes while the device is not
    present, the handler returns at once: no counter moves, nothing is
    logged, and the context is not released.  The URB has left the anchor by
    then, so in a driver whose URBs in flight refer to distinct slots the
    slot is left taken with no URB in flight that could release it. *)
Theorem write_completion_absent_device_leaks k w u c st :
  driver_inv w →
  tx_submitted (priv w) !! k = Some u →
  tx_context (priv w) !! context u = Some c →
  can c = true → ext w (tick w) = 0%Z →
  let w' := (usb_giveback_tx_urb k st w).2 in
  tx_context (priv w') = tx_context (priv w) ∧
  stats (priv w') = stats (priv w) ∧
  trace w' = trace w ∧
  leaked (context u) w'.
Proof.
  intros (Hpool & Hnd & Hocc) Hu Hc Hcan He w'.
  destruct (giveback_world k st w u c Hu Hc) as (Hs & _ & _ & _ & _ & Hw).
  fold w' in Hs, Hw. rewrite Hcan, He in Hw. cbn in Hw.
  destruct Hw as (Htx & Hst & Htr).
  split; [done|]. split; [done|]. split; [done|].
  unfold leaked. rewrite Htx, Hs. split.
  - apply Hocc. by eapply list_elem_of_lookup_2.
  - intros v Hv Heq.
    rewrite <- (take_drop_middle _ _ _ Hu), fmap_app, fmap_cons in Hnd.
    apply NoDup_app in Hnd as (_ & Hl & Hr).
    apply NoDup_cons in Hr as [Hr _].
    rewrite delete_take_drop in Hv.
    apply elem_of_app in Hv as [Hv|Hv].
    + apply (Hl (context v)); [by apply list_elem_of_fmap_2|].
      rewrite Heq. by left.
    + apply Hr. rewrite <- Heq. by apply list_elem_of_fmap_2.
Qed.

(** X9: in every state a started driver reaches, the write URBs in flight
    refer to pairwise distinct slots of the context array, each of them
    taken, so there are never more than [MCBA_MAX_TX_URBS] of them. *)
Theorem inflight_urbs_bounded w :
  free_marker_ok → driver_reachable w →
  NoDup (context <$> tx_submitted (priv w)) ∧
  (∀ u, u ∈ tx_submitted (priv w) →
        slot_occupied (context u) (tx_context (priv w))) ∧
  length (tx_submitted (priv w)) ≤ MCBA_MAX_TX_URBS.
Proof.
  intros Hm Hr.
  destruct (driver_reachable_inv w Hm Hr) as ([Hlen _] & Hnd & Hocc).
  split; [done|]. split; [done|].
  assert (length (context <$> tx_submitted (priv w))
          ≤ length (seq 0 MCBA_MAX_TX_URBS)) as Hle.
  { apply submseteq_length, NoDup_submseteq; [done|].
    intros i Hin. apply list_elem_of_fmap in Hin as (u & -> & Hu).
    destruct (Hocc u Hu) as (c & Hc & _). apply lookup_lt_Some in Hc.
    apply elem_of_seq. lia. }
  by rewrite length_fmap, length_seq in Hle.
Qed.

End transmit_more.

(** ** Round trips *)

Section round_trips.
Context `{hdr : mcba_usb_h}.

Lemma u8_small x : (0 ≤ x < 256)%Z → u8 x = x.
Proof. unfold u8. intros. by apply Z.mod_small. Qed.

Lemma u8_range x : (0 ≤ u8 x < 256)%Z.
Proof. unfold u8. by apply Z.mod_pos_bound. Qed.

Lemma u8_land x : u8 x = Z.land x (Z.ones 8).
Proof. unfold u8. by rewrite Z.land_ones. Qed.

Lemma u8_lor a b : (0 ≤ a < 256)%Z → (0 ≤ b < 256)%Z → u8 (Z.lor a b) = Z.lor a b.
Proof.
  intros Ha Hb.
  by rewrite u8_land, Z.land_lor_distr_l, <- !u8_land, !u8_small.
Qed.

Lemma start_xmit_unfold cf :
  mcba_usb_start_xmit cf
    = mcba_usb_xmit (msg_of_can (start_xmit_msg cf)) (Some cf).
Proof. reflexivity. Qed.

(** The length byte of the message built from a frame of valid length goes
    through the mask of the decoder. *)
Lemma start_xmit_msg_dlc cf :
  (∀ d, 0 ≤ d ≤ 8 → Z.land d MCBA_DLC_MASK = d)%Z →
  Z.land MCBA_DLC_RTR_MASK MCBA_DLC_MASK = 0%Z →
  (0 ≤ MCBA_DLC_RTR_MASK < 256)%Z →
  (0 ≤ can_dlc cf ≤ 8)%Z →
  u8 (Z.land (dlc (start_xmit_msg cf)) MCBA_DLC_MASK) = can_dlc cf.
Proof.
  intros Hmask Hrtr Hr Hd. unfold start_xmit_msg. cbn [dlc].
  rewrite (u8_small (can_dlc cf)) by lia.
  destruct (MCBA_TX_IS_RTR cf).
  - rewrite u8_lor by lia.
    rewrite Z.land_lor_distr_l, Hmask, Hrtr, Z.lor_0_r by done.
    apply u8_small. lia.
  - rewrite Hmask by done. apply u8_small. lia.
Qed.

(** X10: the length and the payload of a frame survive the way through the
    record format.  For a frame of valid length, remote request or not, the
    record [mcba_usb_start_xmit] hands to the transmit path, read back by
    [mcba_usb_process_can], gives a frame of the same length whose data are
    the first [can_dlc] bytes of the original, the rest being zero.  The
    assumptions are on the absent header: the record stores the length byte
    and 8 payload bytes, the length mask passes 0 to 8, and the
    remote-request bit of the length byte lies outside the mask. *)
Theorem start_xmit_process_can_round_trip cf w :
  can_record_layout_ok →
  (∀ d, 0 ≤ d ≤ 8 → Z.land d MCBA_DLC_MASK = d)%Z →
  Z.land MCBA_DLC_RTR_MASK MCBA_DLC_MASK = 0%Z →
  (0 ≤ MCBA_DLC_RTR_MASK < 256)%Z →
  sizeof_usb_msg_data = CAN_MAX_DLEN →
  (0 ≤ can_dlc cf ≤ 8)%Z → length (cf_data cf) = CAN_MAX_DLEN →
  ext w (tick w) ≠ 0%Z →
  let usb_msg := msg_of_can (start_xmit_msg cf) in
  mcba_usb_start_xmit cf = mcba_usb_xmit usb_msg (Some cf) ∧
  ∃ cf',
    trace (mcba_usb_process_can (cast_msg_can usb_msg) w).2
      = trace w ++ [NetifRx cf'] ∧
    can_dlc cf' = can_dlc cf ∧
    cf_data cf' = take (Z.to_nat (can_dlc cf)) (cf_data cf)
                  ++ replicate (CAN_MAX_DLEN - Z.to_nat (can_dlc cf)) 0%Z.
Proof.
  intros Hlay Hmask Hrtr Hr Hsz Hd Hlen Hskb usb_msg.
  split; [reflexivity|].
  assert (data (start_xmit_msg cf) = cf_data cf) as Hdata.
  { unfold start_xmit_msg. cbn [data]. rewrite Hsz.
    apply take_ge. lia. }
  destruct (Hlay (start_xmit_msg cf)) as [Hdlc Hpay].
  { rewrite Hdata. lia. }
  { unfold start_xmit_msg. cbn [dlc].
    destruct (MCBA_TX_IS_RTR cf); apply u8_range. }
  fold usb_msg in Hdlc, Hpay. rewrite Hdata, Hsz in Hpay.
  assert (CAN_MAX_DLEN ≤ length (data (cast_msg_can usb_msg))) as Hlong.
  { rewrite <- Hlen, <- Hpay at 1. rewrite length_take. lia. }
  destruct (process_can_valid_world (cast_msg_can usb_msg) w (can_dlc cf))
    as (cf' & Ht & Hd' & Hdata' & _); [|done| |done|].
  { rewrite Hdlc. by apply start_xmit_msg_dlc. }
  { unfold CAN_MAX_DLEN in Hlong. lia. }
  exists cf'. split; [done|]. split; [done|]. rewrite Hdata'. f_equal.
  rewrite <- Hpay, take_take. f_equal. unfold CAN_MAX_DLEN. lia.
Qed.

(** X11: a frame that is sent and whose write URB completes while the device
    is present goes through a full cycle of the pool.  [mcba_usb_start_xmit]
    takes the lowest free slot [i] and returns [NETDEV_TX_OK]; after the
    completion the anchor is as before, slot [i] is free again and is the
    one the next call will take.  The frame then counts as one transmitted
    packet whatever the status of the URB, and the byte counter has grown
    by the length byte of the record, which for a remote request carries
    the request bit besides the length. *)
Theorem start_xmit_completion_round_trip cf st w i c :
  can_record_layout_ok →
  sizeof_usb_msg_data ≤ length (cf_data cf) →
  i < MCBA_MAX_TX_URBS → tx_context (priv w) !! i = Some c →
  ndx c = MCBA_CTX_FREE →
  (∀ j cj, j < i → tx_context (priv w) !! j = Some cj →
           ndx cj ≠ MCBA_CTX_FREE) →
  ¬ xmit_fails w → ext w (3 + tick w) ≠ 0%Z →
  let r := mcba_usb_start_xmit cf w in
  let w' := (usb_giveback_tx_urb (length (tx_submitted (priv w))) st r.2).2 in
  r.1 = NETDEV_TX_OK ∧
  tx_submitted (priv w') = tx_submitted (priv w) ∧
  tx_context (priv w') = <[i := free_slot]> (tx_context (priv w)) ∧
  (get_free_ctx (tx_context (priv w'))).1 = Some i ∧
  tx_packets (stats (priv w')) = ulong (tx_packets (stats (priv w)) + 1) ∧
  tx_bytes (stats (priv w')) =
    ulong (tx_bytes (stats (priv w))
           + (if MCBA_TX_IS_RTR cf
              then u8 (Z.lor (u8 (can_dlc cf)) MCBA_DLC_RTR_MASK)
              else u8 (can_dlc cf))) ∧
  tx_dropped (stats (priv w')) = tx_dropped (stats (priv w)) ∧
  trace w' =
    trace w
    ++ [CanPutEchoSkb (Z.of_nat i);
        UsbSubmitUrb (tx_urb i (msg_of_can (start_xmit_msg cf)));
        CanGetEchoSkb (Z.of_nat i); NetifWakeQueue]
    ++ (if (st =? 0)%Z then [] else [NetdevInfo "Tx URB aborted (%d)" [st]]).
Proof.
  intros Hlay Hlen Hi Hc Hfree Hlow Hok Hpresent r w'.
  assert (i < length (tx_context (priv w))) as Hil
    by (by eapply lookup_lt_Some).
  destruct (Hlay (start_xmit_msg cf)) as [Hdlc _].
  { unfold start_xmit_msg. cbn [data]. rewrite length_take. lia. }
  { unfold start_xmit_msg. cbn [dlc].
    destruct (MCBA_TX_IS_RTR cf); apply u8_range. }
  destruct (xmit_success_world (msg_of_can (start_xmit_msg cf)) (Some cf)
              w i c Hi Hc Hfree Hlow Hok)
    as (Hr1 & Htx & Hsub & Hst & _ & Htr & _ & Hext & Htick).
  rewrite <- start_xmit_unfold in Hr1, Htx, Hsub, Hst, Htr, Hext, Htick.
  fold r in Hr1, Htx, Hsub, Hst, Htr, Hext, Htick.
  set (c1 := {| ndx := Z.of_nat i; ctx_priv := true;
                ctx_dlc := dlc (cast_msg_can (msg_of_can (start_xmit_msg cf)));
                can := true |}) in Htx.
  destruct (giveback_world (length (tx_submitted (priv w))) st r.2
              (tx_urb i (msg_of_can (start_xmit_msg cf))) c1)
    as (Hs' & _ & _ & _ & _ & Hw').
  { rewrite Hsub. by apply list_lookup_middle. }
  { rewrite Htx. cbn [tx_urb context]. by apply list_lookup_insert_eq. }
  fold w' in Hs', Hw'. cbn [c1 can andb ndx ctx_dlc] in Hw'.
  rewrite Hext, Htick in Hw'.
  destruct (Z.eqb_spec (ext w (3 + tick w)) 0) as [|_]; [done|].
  destruct Hw' as (Htx' & Hst' & Htr').
  cbn [tx_urb context] in Htx'.
  rewrite Htx, list_insert_insert_eq in Htx'.
  split; [done|]. split.
  { rewrite Hs', Hsub, (delete_middle (tx_submitted (priv w)) []).
    apply app_nil_r. }
  split; [done|]. split.
  { rewrite Htx'.
    rewrite (get_free_ctx_first_free _ i free_slot);
      [done|done|by apply list_lookup_insert_eq|done|].
    intros j cj Hj Hl. rewrite list_lookup_insert_ne in Hl by lia.
    by apply (Hlow j). }
  rewrite Hst', Hst, Htr', Htr, Hdlc. cbn.
  repeat split; try done.
  by rewrite <- !app_assoc.
Qed.

(** X12: the change-bitrate command carries the 16-bit argument as two
    bytes, most significant first: the two bytes are in range and put
    together they give the argument back (modulo 2^16, the argument being a
    [u16]). *)
Theorem change_bitrate_bytes bitrate :
  ∃ hi lo,
    mcba_usb_xmit_change_bitrate bitrate =
      mcba_usb_xmit_cmd (msg_of_change_bitrate
        {| cmd_id := MBCA_CMD_CHANGE_BIT_RATE;
           bitrate_hi := hi; bitrate_lo := lo |}) ∧
    (0 ≤ hi < 256)%Z ∧ (0 ≤ lo < 256)%Z ∧
    (hi * 256 + lo = bitrate mod 65536)%Z.
Proof.
  eexists _, _. split; [reflexivity|].
  split; [apply u8_range|]. split; [apply u8_range|].
  unfold u16. change (2 ^ 16)%Z with 65536%Z.
  pose proof (Z.mod_pos_bound bitrate 65536 eq_refl) as Hb.
  set (x := (bitrate mod 65536)%Z) in *.
  change 0xff%Z with (Z.ones 8).
  rewrite (Z.land_comm (Z.ones 8)), <- u8_land.
  change 0xff00%Z with (Z.shiftl (Z.ones 8) 8).
  rewrite Z.land_comm, Z.shiftr_land, Z.shiftr_shiftl_l by lia.
  change (Z.shiftl (Z.ones 8) (8 - 8)) with (Z.ones 8).
  rewrite <- u8_land, Z.shiftr_div_pow2 by lia.
  change (2 ^ 8)%Z with 256%Z.
  rewrite (u8_small (u8 x)) by apply u8_range.
  rewrite (u8_small (u8 (x / 256))) by apply u8_range.
  unfold u8. change (2 ^ 8)%Z with 256%Z.
  rewrite (Z.mod_small (x / 256)).
  - pose proof (Z.div_mod x 256). lia.
  - split; [apply Z.div_pos; lia|]. apply Z.div_lt_upper_bound; lia.
Qed.

(** What [termination_store] does, by the value [sscanf] left in
    [tmp_termination]. *)
Lemma termination_store_world scanned w :
  let tmp := from_option u8 0%Z scanned in
  let w' := (termination_store scanned w).2 in
  if (0 =? tmp)%Z || (1 =? tmp)%Z then
    termination_state (priv w') = tmp ∧
    w' = (mcba_usb_xmit
            (msg_of_terminaton
               {| term_cmdId := MBCA_CMD_SETUP_TERMINATION_RESISTANCE;
                  termination := tmp |}) None
            (modify_priv (set_termination_state tmp) w).2).2
  else w' = w.
Proof.
  intros tmp w'. unfold w', termination_store, when. fold tmp.
  destruct ((0 =? tmp)%Z || (1 =? tmp)%Z) eqn:Hv; [|done].
  assert (u8 tmp = tmp) as Hu8.
  { apply u8_small. apply orb_true_iff in Hv as [Hv|Hv];
      apply Z.eqb_eq in Hv; lia. }
  rewrite !bind_eq. unfold get_priv. cbn [fst snd].
  unfold mcba_usb_xmit_termination, mcba_usb_xmit_cmd. rewrite bind_eq.
  unfold ret. cbn [fst snd modify_priv priv set_termination_state
                   termination_state].
  rewrite Hu8. split; [|done].
  pose proof (xmit_world
    (msg_of_terminaton
       {| term_cmdId := MBCA_CMD_SETUP_TERMINATION_RESISTANCE;
          termination := tmp |}) None
    (modify_priv (set_termination_state tmp) w).2) as (_ & _ & Hsame & _).
  destruct Hsame as (_ & _ & _ & _ & Ht & _).
  exact Ht.
Qed.

(** X13: writing the termination attribute acts on the written number taken
    modulo 256, as an [unsigned char] holds it.  When that is 0 or 1, it is
    stored as the termination state before the command is handed to the
    transmit path, and it stays stored whatever becomes of the command (no
    free context, no memory, a failed submission); so 256 and 257 are taken
    as 0 and 1.  Any other number changes nothing and sends nothing.  A text
    from which no number was read is not refused: the variable keeps its
    initial 0, so the write stores 0 and hands the command for 0. *)
Theorem termination_store_validates scanned w :
  let w' := (termination_store scanned w).2 in
  let accepted v :=
    termination_state (priv w') = v ∧
    w' = (mcba_usb_xmit
            (msg_of_terminaton
               {| term_cmdId := MBCA_CMD_SETUP_TERMINATION_RESISTANCE;
                  termination := v |}) None
            (modify_priv (set_termination_state v) w).2).2 in
  match scanned with
  | None => accepted 0%Z
  | Some n =>
      if (n mod 256 =? 0)%Z then accepted 0%Z
      else if (n mod 256 =? 1)%Z then accepted 1%Z
      else w' = w
  end.
Proof.
  intros w' accepted.
  pose proof (termination_store_world scanned w) as H. cbn zeta in H.
  fold w' in H. destruct scanned as [n|]; cbn [from_option] in H.
  - unfold u8 in H. change (2 ^ 8)%Z with 256%Z in H.
    destruct (Z.eqb_spec (n mod 256) 0) as [E0|E0].
    { rewrite E0 in H. exact H. }
    destruct (Z.eqb_spec (n mod 256) 1) as [E1|E1].
    { rewrite E1 in H. exact H. }
    destruct (Z.eqb_spec 0 (n mod 256)) as [|_]; [lia|].
    destruct (Z.eqb_spec 1 (n mod 256)) as [|_]; [lia|]. exact H.
  - exact H.
Qed.

End round_trips.

(** ** The stored bitrate *)

Section stored_bitrate.
Context `{hdr : mcba_usb_h}.

(** One [case] of the [switch] returns 0 and leaves the bit timing that
    [mcba_net_calc_bittiming] computed. *)
Lemma bittiming_case_world s p s1 s2 br k w :
  (bittiming_case s p s1 s2 br k w).1 = 0%Z ∧
  bittiming (priv (bittiming_case s p s1 s2 br k w).2)
    = mcba_net_calc_bittiming s p s1 s2 br (bittiming (priv w)).
Proof.
  unfold bittiming_case. rewrite !bind_eq. split; [done|].
  unfold ret, mcba_usb_xmit_change_bitrate, mcba_usb_xmit_cmd.
  rewrite bind_eq. cbn [fst snd ret].
  match goal with
  | |- bittiming (priv (mcba_usb_xmit ?m ?s ?v).2) = _ =>
      pose proof (xmit_world m s v) as (_ & _ & Hsame & _)
  end.
  destruct Hsame as (_ & _ & _ & _ & _ & _ & Hb). rewrite Hb. done.
Qed.

Lemma set_bittiming_returns w :
  (mcba_net_set_bittiming w).1 =
    if bool_decide (bitrate (bittiming (priv w)) ∈ supported_bitrates)
    then 0%Z else (- EINVAL)%Z.
Proof.
  case_bool_decide as Hin.
  - unfold supported_bitrates in Hin.
    apply list_elem_of_fmap in Hin
      as ([[b' [[[[s p] s1] s2] br]] k] & Hb & Hrow).
    cbn in Hb. subst b'.
    rewrite (set_bittiming_row w s p s1 s2 br k Hrow).
    apply bittiming_case_world.
  - by rewrite (set_bittiming_default w Hin).
Qed.

(** The bitrate [mcba_net_calc_bittiming] computes for each row of the
    [switch], beside the bitrate the row is selected by. *)
Lemma bittiming_table_stored :
  Forall (λ r : Z * (Z * Z * Z * Z * Z) * Z,
    ∀ bt,
      let b := r.1.1 in
      let b1 := bitrate (mcba_net_calc_bittiming r.1.2.1.1.1.1 r.1.2.1.1.1.2
                           r.1.2.1.1.2 r.1.2.1.2 r.1.2.2 bt) in
      (b1 = b ∧
       (b ∉ [150000; 175000; 225000; 275000; 300000]%Z) ∧
       b1 ∈ supported_bitrates) ∨
      ((b, b1) ∈ [(150000, 150375); (175000, 175438); (225000, 227272);
                  (275000, 277777); (300000, 303030)]%Z ∧
       b1 ∉ supported_bitrates))
    bittiming_table.
Proof.
  unfold bittiming_table.
  repeat first [apply List.Forall_cons | apply List.Forall_nil];
    intros bt; apply (bool_decide_unpack _); vm_compute; reflexivity.
Qed.

(** X14: [mcba_net_set_bittiming] does not keep the bitrate it was asked
    for: it stores the one [mcba_net_calc_bittiming] computes back from the
    segments of the row.  For thirteen of the supported bitrates that is the
    requested value, and the function accepts its own result again.  For
    150000, 175000, 225000, 275000 and 300000 the stored value is another
    one (150375, 175438, 227272, 277777, 303030), which is not in the list:
    called again on the state it left, the function returns [-EINVAL]. *)
Theorem set_bittiming_stored_bitrate w :
  let b := bitrate (bittiming (priv w)) in
  b ∈ supported_bitrates →
  let w1 := (mcba_net_set_bittiming w).2 in
  let b1 := bitrate (bittiming (priv w1)) in
  (b1 = b ∧
   (b ∉ [150000; 175000; 225000; 275000; 300000]%Z) ∧
   (mcba_net_set_bittiming w1).1 = 0%Z) ∨
  ((b, b1) ∈ [(150000, 150375); (175000, 175438); (225000, 227272);
              (275000, 277777); (300000, 303030)]%Z ∧
   (mcba_net_set_bittiming w1).1 = (- EINVAL)%Z).
Proof.
  intros b Hin w1 b1. unfold supported_bitrates in Hin.
  apply list_elem_of_fmap in Hin
    as ([[b' [[[[s p] s1] s2] br]] k] & Hb & Hrow).
  cbn in Hb. subst b'.
  assert (b1 = bitrate (mcba_net_calc_bittiming s p s1 s2 br
                          (bittiming (priv w)))) as Hb1.
  { unfold b1, w1. rewrite (set_bittiming_row w s p s1 s2 br k Hrow).
    by rewrite (proj2 (bittiming_case_world s p s1 s2 br k w)). }
  pose proof (proj1 (List.Forall_forall _ _) bittiming_table_stored
                _ (proj1 (list_elem_of_In _ _) Hrow) (bittiming (priv w)))
    as Hq.
  cbn [fst snd] in Hq. rewrite <- Hb1 in Hq.
  rewrite (set_bittiming_returns w1). fold b1.
  destruct Hq as [(Heq & Hno & Hsup)|(Hpair & Hno)].
  - left. by rewrite bool_decide_eq_true_2.
  - right. by rewrite bool_decide_eq_false_2.
Qed.

End stored_bitrate.

(** ** The first-sighting latch *)

Section latch.
Context `{hdr : mcba_usb_h}.









End latch.

(** ** Starting the device *)

Section start_facts.
Context `{hdr : mcba_usb_h}.
Variable MCBA_MAX_RX_URBS : nat.
Variable rx_buf : nat → list Z.

(** The loop of [mcba_usb_start]: it submits [k] read URBs, the ones of the
    iterations [i .. i + k - 1], and stops early only with [err] set to an
    error; it does not touch the private data of the model. *)
Lemma start_rx_loop_spec n : ∀ i err rx w,
  let r := start_rx_loop rx_buf n i err rx w in
  priv r.2 = priv w ∧ debug r.2 = debug w ∧ ext r.2 = ext w ∧
  ∃ k, k ≤ n ∧
    r.1.1.1 = i + k ∧
    r.1.2 = rx ++ (rx_urb rx_buf <$> seq i k) ∧
    (k = n → r.1.1.2 = (if decide (n = 0) then err else Some 0%Z) ∧
             tick r.2 = tick w + 3 * n) ∧
    (k < n → ∃ e, r.1.1.2 = Some e ∧ e ≠ 0%Z).
Proof.
  induction n as [|n IH]; intros i err rx w r.
  { subst r. cbn. repeat split. exists 0. cbn.
    rewrite app_nil_r, Nat.add_0_r. repeat split; try done; lia. }
  remember r as r0 eqn:Hr. subst r. cbn [start_rx_loop] in Hr. mrun_in Hr.
  destruct (Z.eqb_spec (ext w (tick w)) 0) as [E0|E0]; mrun_in Hr.
  { subst r0. cbn. repeat split. exists 0. cbn.
    rewrite app_nil_r, Nat.add_0_r. repeat split; try lia.
    intros _. eexists. split; [done|]. unfold ENOMEM. lia. }
  destruct (Z.eqb_spec (ext w (S (tick w))) 0) as [E1|E1]; mrun_in Hr.
  { subst r0. cbn. repeat split. exists 0. cbn.
    rewrite app_nil_r, Nat.add_0_r. repeat split; try lia.
    intros _. eexists. split; [done|]. unfold ENOMEM. lia. }
  destruct (Z.eqb_spec (ext w (S (S (tick w)))) 0) as [E2|E2]; mrun_in Hr.
  2: { subst r0. cbn. repeat split. exists 0. cbn.
       rewrite app_nil_r, Nat.add_0_r. repeat split; try lia.
       intros _. by eexists. }
  match type of Hr with
  | _ = start_rx_loop _ _ _ ?e ?l ?v =>
      destruct (IH (S i) e l v) as (Hp & Hd & He & k & Hk & Hi & Hrx & Hall & Hsome)
  end.
  rewrite <- Hr in Hp, Hd, He, Hi, Hrx, Hall, Hsome.
  cbn [priv debug ext tick] in Hp, Hd, He, Hall.
  split; [done|]. split; [done|]. split; [done|].
  exists (S k). split; [lia|]. split; [lia|]. split.
  { rewrite Hrx, <- app_assoc. done. }
  split.
  - intros Hkn. destruct Hall as [Herr Ht]; [lia|].
    destruct (decide (S n = 0)); [lia|]. split; [|lia].
    rewrite Herr, E2. by destruct (decide (n = 0)).
  - intros Hkn. apply Hsome. lia.
Qed.


(** X17: when [mcba_usb_start] has submitted at least one read URB on a
    device whose context array has [MCBA_MAX_TX_URBS] elements and whose
    anchor of write URBs is empty, it leaves the driver in a state reached
    from [mcba_init_ctx] by two commands, the two firmware-version requests;
    the array is then well formed and the write URBs in flight, two at
    most, refer to distinct taken slots. *)
Theorem mcba_usb_start_reachable rx w :
  free_marker_ok →
  length (tx_context (priv w)) = MCBA_MAX_TX_URBS →
  tx_submitted (priv w) = [] →
  let r := mcba_usb_start MCBA_MAX_RX_URBS rx_buf rx w in
  rx_submitted r.1.2 ≠ rx_submitted rx →
  driver_reachable r.2 ∧ driver_inv r.2 ∧
  length (tx_submitted (priv r.2)) ≤ 2.
Proof.
  intros Hm Hlen Hsub r Hsome.
  destruct (start_rx_loop_spec MCBA_MAX_RX_URBS 0 None (rx_submitted rx) w)
    as (Hp & _ & _ & k & Hk & Hi & Hrx & _).
  remember r as r0 eqn:Hr. subst r. unfold mcba_usb_start in Hr.
  rewrite bind_eq in Hr. rewrite Hi in Hr. cbn [Nat.add] in Hr.
  destruct k as [|k]; cbn [Nat.eqb] in Hr.
  { exfalso. apply Hsome. mrun_in Hr. subst r0. cbn [fst snd rx_submitted].
    rewrite Hrx. cbn. by rewrite app_nil_r. }
  rewrite !bind_eq in Hr. unfold ret in Hr. cbn [fst snd] in Hr.
  match type of Hr with
  | _ = (_, (mcba_usb_xmit_read_fw_ver _
               (mcba_usb_xmit_read_fw_ver _ (mcba_init_ctx ?v).2).2).2) =>
      set (w0 := v) in *
  end.
  assert (priv w0 = priv w) as Hw0.
  { unfold w0. unfold when.
    destruct (S k <? MCBA_MAX_RX_URBS)%nat; [|done].
    unfold netdev_warn, emit. cbn [snd priv]. done. }
  assert (driver_reachable r0.2) as Hreach.
  { subst r0. cbn [snd]. unfold mcba_usb_xmit_read_fw_ver.
    eapply reach_step; [|apply step_xmit_cmd].
    eapply reach_step; [|apply step_xmit_cmd].
    apply reach_start; by rewrite Hw0. }
  split; [done|]. split; [by apply driver_reachable_inv|].
  subst r0. cbn [snd]. unfold mcba_usb_xmit_read_fw_ver, mcba_usb_xmit_cmd.
  rewrite !bind_eq. unfold ret. cbn [fst snd].
  set (wi := (mcba_init_ctx w0).2).
  set (m1 := msg_of_fw_ver {| fw_cmdId := MBCA_CMD_READ_FW_VERSION;
                             pic := u8 MCBA_VER_REQ_USB |}).
  set (m2 := msg_of_fw_ver {| fw_cmdId := MBCA_CMD_READ_FW_VERSION;
                             pic := u8 MCBA_VER_REQ_CAN |}).
  assert (tx_submitted (priv wi) = []) as Hinit.
  { unfold wi, mcba_init_ctx, modify_priv. cbn. by rewrite Hw0. }
  assert (length (tx_submitted (priv (mcba_usb_xmit m1 None wi).2)) ≤ 1)
    as H1.
  { destruct (xmit_view m1 None wi)
      as [(_ & _ & ->)|(? & ? & ? & _ & _ & _ & _ & _ & _ & [->| ->])];
      rewrite Hinit; cbn [length app]; lia. }
  destruct (xmit_view m2 None (mcba_usb_xmit m1 None wi).2)
    as [(_ & _ & ->)|(? & ? & ? & _ & _ & _ & _ & _ & _ & [->| ->])];
    rewrite ?length_app; cbn [length]; lia.
Qed.

Lemma transfer_ok_not_fails w :
  transfer_ok (ext w) (tick w) → ¬ xmit_fails w.
Proof. unfold transfer_ok, xmit_fails. tauto. Qed.

(** The loop when every allocation and submission succeeds. *)
Lemma start_rx_loop_ok n : ∀ i err rx w,
  (∀ j, j < n → transfer_ok (ext w) (tick w + 3 * j)) →
  let r := start_rx_loop rx_buf n i err rx w in
  r.1 = (i + n, if decide (n = 0) then err else Some 0%Z,
         rx ++ (rx_urb rx_buf <$> seq i n)) ∧
  priv r.2 = priv w ∧ ext r.2 = ext w ∧ tick r.2 = tick w + 3 * n.
Proof.
  induction n as [|n IH]; intros i err rx w Hok r.
  { subst r. cbn. by rewrite app_nil_r, !Nat.add_0_r. }
  destruct (Hok 0) as (E0 & E1 & E2); [lia|].
  rewrite Nat.mul_0_r, Nat.add_0_r in E0, E1, E2.
  apply Z.eqb_neq in E0, E1.
  remember r as r0 eqn:Hr. subst r. cbn [start_rx_loop] in Hr. mrun_in Hr.
  rewrite E0 in Hr. mrun_in Hr. rewrite E1 in Hr. mrun_in Hr.
  rewrite E2 in Hr. cbn [Z.eqb negb] in Hr.
  match type of Hr with
  | _ = start_rx_loop _ _ _ ?e ?l ?v =>
      destruct (IH (S i) e l v) as (Hres & Hp & He & Ht)
  end.
  { intros j Hj. cbn [ext tick].
    replace (S (S (S (tick w))) + 3 * j) with (tick w + 3 * S j) by lia.
    apply Hok. lia. }
  rewrite <- Hr in Hres, Hp, He, Ht. cbn [priv ext tick] in Hp, He, Ht.
  rewrite Hres. destruct (decide (S n = 0)); [lia|].
  split; [|split; [done|split; [done|lia]]].
  f_equal; [f_equal; [lia|by destruct (decide (n = 0))]|].
  by rewrite <- app_assoc.
Qed.

(** X18: when the kernel grants every allocation and accepts every
    submission, [mcba_usb_start] returns 0 with all [MCBA_MAX_RX_URBS] read
    URBs on their anchor and the state [CAN_STATE_ERROR_ACTIVE]; the two
    firmware-version requests, for the USB and then for the CAN controller,
    are in flight on the slots 0 and 1 of the freshly initialised context
    array, and every other slot is free. *)
Theorem mcba_usb_start_all_ok rx w :
  free_marker_ok → 2 ≤ MCBA_MAX_TX_URBS → 0 < MCBA_MAX_RX_URBS →
  length (tx_context (priv w)) = MCBA_MAX_TX_URBS →
  tx_submitted (priv w) = [] →
  (∀ j, j < MCBA_MAX_RX_URBS + 2 → transfer_ok (ext w) (tick w + 3 * j)) →
  let r := mcba_usb_start MCBA_MAX_RX_URBS rx_buf rx w in
  r.1.1 = Some 0%Z ∧
  can_dev_state r.1.2 = CAN_STATE_ERROR_ACTIVE ∧
  rx_submitted r.1.2
    = rx_submitted rx ++ (rx_urb rx_buf <$> seq 0 MCBA_MAX_RX_URBS) ∧
  tx_submitted (priv r.2) =
    [tx_urb 0 (msg_of_fw_ver {| fw_cmdId := MBCA_CMD_READ_FW_VERSION;
                                pic := u8 MCBA_VER_REQ_USB |});
     tx_urb 1 (msg_of_fw_ver {| fw_cmdId := MBCA_CMD_READ_FW_VERSION;
                                pic := u8 MCBA_VER_REQ_CAN |})] ∧
  pool_filled 2 (tx_context (priv r.2)).
Proof.
  intros Hm HN Hmax Hlen Hsub Hok r.
  destruct (start_rx_loop_ok MCBA_MAX_RX_URBS 0 None (rx_submitted rx) w)
    as (Hres & Hp & He & Ht).
  { intros j Hj. apply Hok. lia. }
  destruct (decide (MCBA_MAX_RX_URBS = 0)); [lia|].
  remember r as r0 eqn:Hr. subst r. unfold mcba_usb_start in Hr.
  rewrite bind_eq in Hr. rewrite Hres in Hr.
  cbn [fst snd Nat.add] in Hr.
  destruct (Nat.eqb_spec MCBA_MAX_RX_URBS 0) as [|_]; [lia|].
  rewrite Nat.ltb_irrefl in Hr.
  rewrite !bind_eq in Hr. unfold when, ret in Hr. cbn [fst snd] in Hr.
  unfold mcba_usb_xmit_read_fw_ver, mcba_usb_xmit_cmd in Hr.
  rewrite !bind_eq in Hr. unfold ret in Hr. cbn [fst snd] in Hr.
  set (w0 := (start_rx_loop rx_buf MCBA_MAX_RX_URBS 0 None
                (rx_submitted rx) w).2) in *.
  set (wi := (mcba_init_ctx w0).2) in *.
  set (m1 := msg_of_fw_ver {| fw_cmdId := MBCA_CMD_READ_FW_VERSION;
                             pic := u8 MCBA_VER_REQ_USB |}) in *.
  set (m2 := msg_of_fw_ver {| fw_cmdId := MBCA_CMD_READ_FW_VERSION;
                             pic := u8 MCBA_VER_REQ_CAN |}) in *.
  destruct (init_ctx_filled (tx_context (priv w)) Hlen) as [Hl0 Hall0].
  assert (tx_context (priv wi) = init_ctx (tx_context (priv w))) as Htxi.
  { unfold wi, mcba_init_ctx, modify_priv. cbn. by rewrite Hp. }
  assert (tx_submitted (priv wi) = []) as Hsubi.
  { unfold wi, mcba_init_ctx, modify_priv. cbn. by rewrite Hp. }
  assert (ext wi = ext w ∧ tick wi = tick w + 3 * MCBA_MAX_RX_URBS)
    as [Hei Hti] by done.
  destruct (lookup_lt_is_Some_2 (init_ctx (tx_context (priv w))) 0)
    as [c0 Hc0]; [lia|].
  destruct (lookup_lt_is_Some_2 (init_ctx (tx_context (priv w))) 1)
    as [c1 Hc1]; [lia|].
  pose proof (Hall0 0 c0 Hc0) as Hf0. pose proof (Hall0 1 c1 Hc1) as Hf1.
  cbn in Hf0, Hf1.
  destruct (xmit_success_world m1 None wi 0 c0)
    as (_ & Htx1 & Hsub1 & _ & _ & _ & _ & He1 & Ht1);
    [lia|by rewrite Htxi|done|intros; lia| |].
  { apply transfer_ok_not_fails. rewrite Hei, Hti. apply Hok. lia. }
  set (w1 := (mcba_usb_xmit m1 None wi).2) in *.
  destruct (xmit_success_world m2 None w1 1 c1)
    as (_ & Htx2 & Hsub2 & _ & _ & _ & _ & He2 & Ht2); [lia| |done| | |].
  { rewrite Htx1, list_lookup_insert_ne by lia. by rewrite Htxi. }
  { intros j cj Hj Hl. assert (j = 0) as -> by lia.
    rewrite Htx1, list_lookup_insert_eq in Hl by (rewrite Htxi; lia).
    simplify_eq/=. apply (Hm 0). lia. }
  { apply transfer_ok_not_fails. rewrite He1, Ht1, Hei, Hti.
    replace (3 + (tick w + 3 * MCBA_MAX_RX_URBS))
      with (tick w + 3 * (MCBA_MAX_RX_URBS + 1)) by lia.
    apply Hok. lia. }
  subst r0. cbn [fst snd can_dev_state rx_submitted].
  split; [done|]. split; [done|]. split; [done|]. split.
  { by rewrite Hsub2, Hsub1, Hsubi. }
  rewrite Htx2, Htx1, Htxi. split.
  { by rewrite !length_insert. }
  intros j c Hl.
  destruct (decide (j = 1)) as [->|Hn1].
  { rewrite list_lookup_insert_eq in Hl
      by (rewrite length_insert; lia). by simplify_eq/=. }
  rewrite list_lookup_insert_ne in Hl by done.
  destruct (decide (j = 0)) as [->|Hn0].
  { rewrite list_lookup_insert_eq in Hl by lia. by simplify_eq/=. }
  rewrite list_lookup_insert_ne in Hl by done.
  rewrite (Hall0 j c Hl).
  destruct (decide (j < 0)), (decide (j < 2)); try done; lia.
Qed.

End start_facts.

(** ** The termination attribute, the debug line and unlinking *)

Section attribute_facts.
Context `{hdr : mcba_usb_h}.

(** X19: the termination attribute reads back what a write left in it.
    After a write of a number that is 0 or 1 modulo 256, [termination_show]
    gives that digit and a newline and returns 2, whether or not the
    command reached the device; after a write from which no number was read
    it gives 0, the write having stored 0; after a write of any other number
    it gives what it gave before.  Reading changes nothing. *)
Theorem termination_store_show scanned w :
  let w' := (termination_store scanned w).2 in
  let shows (d : string) :=
    (termination_show w').1
      = (2%Z, d +:+ String (Ascii.ascii_of_nat 10) EmptyString) in
  (termination_show w').2 = w' ∧
  match scanned with
  | None => shows "0"
  | Some n =>
      if (n mod 256 =? 0)%Z then shows "0"
      else if (n mod 256 =? 1)%Z then shows "1"
      else (termination_show w').1 = (termination_show w).1
  end.
Proof.
  intros w' shows. split; [done|].
  pose proof (termination_store_world scanned w) as H. cbn zeta in H.
  fold w' in H. unfold shows, termination_show.
  rewrite !bind_eq. unfold get_priv, ret. cbn [fst snd].
  destruct scanned as [n|]; cbn [from_option] in H.
  - unfold u8 in H. change (2 ^ 8)%Z with 256%Z in H.
    destruct (Z.eqb_spec (n mod 256) 0) as [E0|E0].
    { rewrite E0 in H. destruct H as [-> _]. reflexivity. }
    destruct (Z.eqb_spec (n mod 256) 1) as [E1|E1].
    { rewrite E1 in H. destruct H as [-> _]. reflexivity. }
    destruct (Z.eqb_spec 0 (n mod 256)) as [|_]; [lia|].
    destruct (Z.eqb_spec 1 (n mod 256)) as [|_]; [lia|].
    cbn [orb] in H. by rewrite H.
  - destruct H as [-> _]. reflexivity.
Qed.

(** X20: with the CAN debug switch on, the keep-alive handler logs the
    bitrate as the two bytes put together, high byte first, but not the
    count of lost frames: its high byte is shifted right by 8, which leaves
    nothing of a byte, so the line shows the low byte alone. *)
Theorem keep_alive_can_debug_line msg w :
  MCBA_IS_CAN_DEBUG (debug w) = true →
  (0 ≤ rx_lost_hi msg < 256)%Z →
  ∃ rest,
    trace (mcba_usb_process_keep_alive_can msg w).2 =
      trace w
      ++ NetdevInfo
           ("CAN_KA: tx_err_cnt %hhu, rx_err_cnt %hhu, " +:+
            "rx_buff_ovfl %hhu, tx_bus_off %hhu, can_bitrate %hu, " +:+
            "rx_lost %hu, can_stat %hhu, soft_ver %hhu.%hhu, " +:+
            "debug_mode %hhu, test_complete %hhu, test_result %hhu")
           [tx_err_cnt msg; rx_err_cnt msg; rx_buff_ovfl msg;
            tx_bus_off msg;
            (can_bitrate_hi msg * 256 + can_bitrate_lo msg)%Z;
            rx_lost_lo msg;
            can_stat msg; soft_ver_major msg; soft_ver_minor msg;
            debug_mode msg; test_complete msg; test_result msg]
         :: rest.
Proof.
  intros Hdbg Hhi.
  assert (Z.shiftr (rx_lost_hi msg) 8 = 0)%Z as Hs.
  { rewrite Z.shiftr_div_pow2 by lia. apply Z.div_small. lia. }
  assert (Z.shiftl (can_bitrate_hi msg) 8 = can_bitrate_hi msg * 256)%Z
    as Hl.
  { rewrite Z.shiftl_mul_pow2 by lia. done. }
  remember (mcba_usb_process_keep_alive_can msg w).2 as w' eqn:Hw.
  unfold mcba_usb_process_keep_alive_can in Hw. mrun_in Hw.
  rewrite Hdbg in Hw. mrun_in Hw. rewrite Hs, Hl, Z.add_0_l in Hw.
  destruct ((MCBA_VER_UNDEFINED =? pic_can_sw_ver_major (priv w))%Z &&
            (MCBA_VER_UNDEFINED =? pic_can_sw_ver_minor (priv w))%Z);
    mrun_in Hw;
    [destruct (negb (MCBA_VER_CAN_MAJOR =? soft_ver_major msg)%Z &&
               (MCBA_VER_CAN_MINOR =? soft_ver_minor msg)%Z); mrun_in Hw|];
    subst w'; cbn [trace]; rewrite <- ?app_assoc; eexists; reflexivity.
Qed.

End attribute_facts.

Section unlink_facts.
Context `{hdr : mcba_usb_h}.

(** A cancelled read URB changes nothing but the count of calls made. *)
Lemma read_bulk_callback_cancelled u w :
  status u = (- ENOENT)%Z →
  mcba_usb_read_bulk_callback u w =
    (tt, {| priv := priv w; debug := debug w; trace := trace w;
            ext := ext w; tick := S (tick w) |}).
Proof.
  intros Hst. unfold mcba_usb_read_bulk_callback. rewrite bind_eq.
  unfold netif_device_present. rewrite bind_eq. unfold extern, ret.
  cbn [fst snd]. rewrite Hst. cbn.
  by destruct (ext w (tick w) =? 0)%Z.
Qed.

Lemma kill_rx_urbs_world n : ∀ rx w,
  length rx ≤ n →
  kill_rx_urbs n rx w =
    ([], {| priv := priv w; debug := debug w; trace := trace w;
            ext := ext w; tick := length rx + tick w |}).
Proof.
  induction n as [|n IH]; intros rx w Hn.
  { destruct rx; [by destruct w|cbn in Hn; lia]. }
  cbn [kill_rx_urbs].
  destruct (rx !! (length rx - 1)) as [u|] eqn:Hu.
  - rewrite bind_eq, read_bulk_callback_cancelled by done. cbn [fst snd].
    pose proof (lookup_lt_Some _ _ _ Hu) as Hlt.
    rewrite IH by (rewrite length_delete by (by eexists); lia).
    rewrite length_delete by (by eexists). cbn. do 2 f_equal. lia.
  - apply lookup_ge_None_1 in Hu.
    destruct rx; [by destruct w|cbn in Hu; lia].
Qed.

Lemma tx_completion_events_app l1 l2 :
  Forall (λ e, is_tx_completion_event e = true) l1 →
  Forall (λ e, is_tx_completion_event e = true) l2 →
  Forall (λ e, is_tx_completion_event e = true) (l1 ++ l2).
Proof. intros. by apply Forall_app. Qed.

(** Killing the write URBs while the device is present: the anchor is
    emptied and the slot of every URB is released; nothing is added to the
    trace but what the completion handler of a write URB logs, and the
    receive counters and the drop counter stay. *)
Lemma kill_tx_urbs_world n : ∀ w,
  length (tx_submitted (priv w)) ≤ n →
  (∀ u, u ∈ tx_submitted (priv w) →
        context u < length (tx_context (priv w))) →
  (∀ t, ext w t ≠ 0%Z) →
  let w' := (kill_tx_urbs n w).2 in
  tx_submitted (priv w') = [] ∧
  same_device_state (priv w) (priv w') ∧
  length (tx_context (priv w')) = length (tx_context (priv w)) ∧
  (∀ i, tx_context (priv w') !! i =
          if decide (i ∈ context <$> tx_submitted (priv w))
          then Some free_slot else tx_context (priv w) !! i) ∧
  rx_packets (stats (priv w')) = rx_packets (stats (priv w)) ∧
  rx_bytes (stats (priv w')) = rx_bytes (stats (priv w)) ∧
  tx_dropped (stats (priv w')) = tx_dropped (stats (priv w)) ∧
  ∃ evs, trace w' = trace w ++ evs ∧
         Forall (λ e, is_tx_completion_event e = true) evs.
Proof.
  induction n as [|n IH]; intros w Hn Hctx Hext w'.
  { subst w'. cbn. destruct (tx_submitted (priv w)) as [|? ?] eqn:Hs;
      [|cbn in Hn; lia].
    split; [done|]. split; [by unfold same_device_state|]. split; [done|].
    split.
    { intros i. destruct (decide (i ∈ context <$> [])) as [Hin|]; [|done].
      by apply elem_of_nil in Hin. }
    repeat split. exists []. by rewrite app_nil_r. }
  subst w'. cbn [kill_tx_urbs]. rewrite bind_eq. unfold get_priv.
  cbn [fst snd].
  destruct (tx_submitted (priv w)) as [|u0 l0] eqn:Hs.
  { cbn. rewrite Hs. split; [done|].
    split; [by unfold same_device_state|]. split; [done|]. split.
    { intros i. destruct (decide (i ∈ context <$> [])) as [Hin|]; [|done].
      by apply elem_of_nil in Hin. }
    repeat split. exists []. by rewrite app_nil_r. }
  rewrite <- Hs in *. rewrite bind_eq.
  assert (∃ l u, tx_submitted (priv w) = l ++ [u]) as (l & u & Hlu).
  { rewrite Hs. clear. revert u0.
    induction l0 as [|x l0 IH]; intros u0; [by exists [], u0|].
    destruct (IH x) as (l & u & ->). by exists (u0 :: l), u. }
  assert (length (tx_submitted (priv w)) - 1 = length l) as Hk.
  { rewrite Hlu, length_app. cbn. lia. }
  rewrite Hk.
  assert (tx_submitted (priv w) !! length l = Some u) as Hu.
  { rewrite Hlu. by apply list_lookup_middle. }
  assert (context u < length (tx_context (priv w))) as Hcu.
  { apply Hctx. rewrite Hlu, elem_of_app, list_elem_of_singleton. by right. }
  destruct (lookup_lt_is_Some_2 _ _ Hcu) as [c Hc].
  destruct (giveback_world (length l) (- ENOENT) w u c Hu Hc)
    as (Hsub & Hsame & _ & He & _ & Hw).
  set (w1 := (usb_giveback_tx_urb (length l) (- ENOENT) w).2) in *.
  assert (can c && (ext w (tick w) =? 0)%Z = false) as Hb.
  { destruct (Z.eqb_spec (ext w (tick w)) 0) as [E|_];
      [by destruct (Hext (tick w))|]. by destruct (can c). }
  rewrite Hb in Hw. destruct Hw as (Htx & Hst & Htr).
  rewrite Hlu, delete_middle, app_nil_r in Hsub.
  destruct (IH w1)
    as (Hs' & Hsame' & Hlen' & Hall' & Hrp & Hrb & Htd & evs & Hevs & Hfa).
  { rewrite Hsub. rewrite Hlu, length_app in Hn. cbn in Hn. lia. }
  { intros v Hv. rewrite Htx, length_insert. apply Hctx.
    rewrite Hlu, elem_of_app. left. by rewrite <- Hsub. }
  { intros t. rewrite He. apply Hext. }
  cbn [fst snd]. split; [done|]. split.
  { unfold same_device_state in *. destruct_and!. repeat split; congruence. }
  split; [by rewrite Hlen', Htx, length_insert|].
  split.
  { intros i. rewrite Hall', Hsub, Htx, Hlu, fmap_app.
    destruct (decide (i ∈ context <$> l)) as [Hin|Hout].
    { rewrite decide_True; [done|]. rewrite elem_of_app. by left. }
    destruct (decide (i = context u)) as [->|Hne].
    { rewrite list_lookup_insert_eq by done.
      rewrite decide_True; [done|]. rewrite elem_of_app. right. cbn.
      by apply list_elem_of_singleton. }
    rewrite list_lookup_insert_ne by done.
    rewrite decide_False; [done|]. rewrite elem_of_app. cbn.
    rewrite list_elem_of_singleton. tauto. }
  rewrite Hrp, Hrb, Htd, Hst.
  split; [by destruct (can c)|]. split; [by destruct (can c)|].
  split; [by destruct (can c)|].
  eexists. split.
  { rewrite Hevs, Htr, <- !app_assoc. reflexivity. }
  apply tx_completion_events_app;
    [destruct (can c); repeat constructor|].
  apply tx_completion_events_app; [|done].
  cbn. repeat constructor.
Qed.

(** X21: [mcba_urb_unlink] on a device that is present empties both
    anchors.  The cancelled read URBs are not handed back to the USB core
    and nothing of their buffers is handled: the read part changes nothing
    but the number of calls made, so all that is added to the trace comes
    from the completion handler of the write URBs (echo, wake-up, the line
    about the aborted URB), no frame is delivered, no URB is submitted, and
    the receive counters and the drop counter stay.  Every write URB has its
    context released, and exactly the slots that no URB in flight referred
    to are as they were: a slot that was taken without a URB stays taken. *)
Theorem urb_unlink_releases_contexts rx w :
  (∀ u, u ∈ tx_submitted (priv w) →
        context u < length (tx_context (priv w))) →
  (∀ t, ext w t ≠ 0%Z) →
  let r := mcba_urb_unlink rx w in
  rx_submitted r.1 = [] ∧
  tx_submitted (priv r.2) = [] ∧
  same_device_state (priv w) (priv r.2) ∧
  (∀ u, u ∈ tx_submitted (priv w) →
        tx_context (priv r.2) !! context u = Some free_slot) ∧
  (∀ i, leaked i w → slot_occupied i (tx_context (priv r.2))) ∧
  r.2 = (kill_tx_urbs (length (tx_submitted (priv w)))
           {| priv := priv w; debug := debug w; trace := trace w;
              ext := ext w;
              tick := length (rx_submitted rx) + tick w |}).2 ∧
  rx_packets (stats (priv r.2)) = rx_packets (stats (priv w)) ∧
  rx_bytes (stats (priv r.2)) = rx_bytes (stats (priv w)) ∧
  tx_dropped (stats (priv r.2)) = tx_dropped (stats (priv w)) ∧
  ∃ evs, trace r.2 = trace w ++ evs ∧
         Forall (λ e, is_tx_completion_event e = true) evs.
Proof.
  intros Hctx Hext r. unfold r, mcba_urb_unlink.
  rewrite !bind_eq. unfold get_priv, ret. cbn [fst snd rx_submitted].
  rewrite kill_rx_urbs_world by done. cbn [fst snd priv].
  set (w0 := {| priv := priv w; debug := debug w; trace := trace w;
                ext := ext w;
                tick := length (rx_submitted rx) + tick w |}).
  destruct (kill_tx_urbs_world (length (tx_submitted (priv w))) w0)
    as (Hs & Hsame & _ & Hall & Hrp & Hrb & Htd & Hev); [done|done|done|].
  cbn [priv trace w0] in Hs, Hsame, Hall, Hrp, Hrb, Htd, Hev.
  split; [done|]. split; [done|]. split; [done|]. split.
  { intros u Hu. rewrite Hall. rewrite decide_True; [done|].
    by apply list_elem_of_fmap_2. }
  split.
  { intros i [(c & Hc & Hlive) Hnone]. exists c. split; [|done].
    rewrite Hall. rewrite decide_False; [done|].
    intros Hin. apply list_elem_of_fmap in Hin as (u & -> & Hu).
    by apply (Hnone u). }
  done.
Qed.

End unlink_facts.

(** ** The further properties on the concrete header *)

Lemma spec_free_marker_ok : @free_marker_ok spec_header.
Proof. intros i Hi. simpl in *. lia. Qed.

Lemma spec_dlc_mask_ok :
  (∀ d, 0 ≤ d ≤ 8 → Z.land d (@MCBA_DLC_MASK spec_header) = d)%Z.
Proof.
  intros d Hd.
  assert (d = 0 ∨ d = 1 ∨ d = 2 ∨ d = 3 ∨ d = 4 ∨ d = 5 ∨ d = 6 ∨ d = 7
          ∨ d = 8)%Z as Hcases by lia.
  destruct Hcases as [->|[->|[->|[->|[->|[->|[->|[->| ->]]]]]]]];
    reflexivity.
Qed.

Lemma spec_can_record_layout_ok : @can_record_layout_ok spec_header.
Proof.
  intros [c eh el sh sl d dat] Hlen Hd. cbn in Hlen.
  do 9 (destruct dat as [|? dat]; try done).
Qed.

Lemma example_world_inv : driver_inv (hdr := spec_header) example_world.
Proof.
  split; [split; [reflexivity|]|split; [constructor|]].
  - intros i c Hl. left.
    change (tx_context (priv example_world))
      with (replicate 32 {| ndx := 32; ctx_priv := false; ctx_dlc := 0;
                            can := false |}) in Hl.
    apply lookup_replicate in Hl as [-> _]. reflexivity.
  - intros u Hu. by apply elem_of_nil in Hu.
Qed.

Lemma example_world_not_fails : ¬ xmit_fails example_world.
Proof. intros [H|[[_ H]|(_ & _ & H)]]; cbn in H; lia. Qed.

Lemma example_world_steady_not_fails : ¬ xmit_fails example_world_steady.
Proof. intros [H|[[_ H]|(_ & _ & H)]]; cbn in H; lia. Qed.

Lemma read_bulk_callback_failed_transfer_witness :
  let u := {| context := 0; transfer_buffer := [0xe3; 0; 0; 0x24; 0x60; 2]%Z;
              actual_length := 20; status := -71 |} in
  let w' := (mcba_usb_read_bulk_callback (hdr := spec_header) u
               example_world).2 in
  (status u ≠ 0%Z ∨ ext example_world (tick example_world) = 0%Z) ∧
  priv w' = priv example_world ∧
  trace w' =
    [NetdevInfo "Rx URB aborted (%d)" [-71]%Z; UsbSubmitUrb u;
     NetdevErr "failed resubmitting read bulk urb: %d" [1]%Z].
Proof.
  intros u w'.
  assert (status u ≠ 0%Z ∨ ext example_world (tick example_world) = 0%Z)
    as H by (left; cbn; lia).
  split; [exact H|].
  exact (read_bulk_callback_failed_transfer (hdr := spec_header) u
           example_world H).
Defined.

Lemma process_can_valid_dlc_witness :
  let msg := {| cmdId := 0xe3; eidh := 0; eidl := 0; sidh := 0x24;
                sidl := 0x60; dlc := 3;
                data := [1; 2; 3; 4; 5; 6; 7; 8]%Z |} in
  let w' := (mcba_usb_process_can (hdr := spec_header) msg example_world).2 in
  u8 (Z.land (dlc msg) (@MCBA_DLC_MASK spec_header)) = 3%Z ∧
  (0 ≤ 3 ≤ 8)%Z ∧ Z.to_nat 3 ≤ length (data msg) ∧
  ext example_world (tick example_world) ≠ 0%Z ∧
  ∃ cf, trace w' = trace example_world ++ [NetifRx cf] ∧
        can_dlc cf = 3%Z ∧ cf_data cf = [1; 2; 3; 0; 0; 0; 0; 0]%Z ∧
        rx_bytes (stats (priv w')) = 3%Z.
Proof.
  intros msg w'.
  assert (u8 (Z.land (dlc msg) (@MCBA_DLC_MASK spec_header)) = 3%Z) as H1
    by reflexivity.
  assert (0 ≤ 3 ≤ 8)%Z as H2 by lia.
  assert (Z.to_nat 3 ≤ length (data msg)) as H3 by (cbn; lia).
  assert (ext example_world (tick example_world) ≠ 0%Z) as H4
    by (cbn; lia).
  split; [exact H1|]. split; [exact H2|]. split; [exact H3|].
  split; [exact H4|].
  destruct (proj2 (process_can_valid_dlc (hdr := spec_header) msg
                     example_world 3 H1 H2 H3) H4)
    as (cf & Ht & Hd & Hdata & _ & _ & Hb & _).
  exists cf. split; [exact Ht|]. split; [exact Hd|]. split; [exact Hdata|].
  exact Hb.
Defined.

Lemma process_all_other_commands_witness :
  let ack := [0xe2; 0; 0; 0; 0; 0; 0; 0; 0; 0;
              0; 0; 0; 0; 0; 0; 0; 0; 0; 0]%Z in
  let odd := [0x42; 0; 0; 0; 0; 0; 0; 0; 0; 0;
              0; 0; 0; 0; 0; 0; 0; 0; 0; 0]%Z in
  Forall (λ m,
    @msg_cmdId spec_header m ≠ @MBCA_CMD_I_AM_ALIVE_FROM_CAN spec_header ∧
    @msg_cmdId spec_header m ≠ @MBCA_CMD_I_AM_ALIVE_FROM_USB spec_header ∧
    @msg_cmdId spec_header m ≠ @MBCA_CMD_RECEIVE_MESSAGE spec_header)
    [ack; odd; ack] ∧
  process_all (hdr := spec_header) [ack; odd; ack] example_world =
    (tt, {| priv := example_priv; debug := 0;
            trace := [NetdevWarn "Unsupported msg (0x%hhX)" [0x42]%Z];
            ext := ext example_world; tick := 0 |}).
Proof.
  intros ack odd.
  assert (Forall (λ m,
    @msg_cmdId spec_header m ≠ @MBCA_CMD_I_AM_ALIVE_FROM_CAN spec_header ∧
    @msg_cmdId spec_header m ≠ @MBCA_CMD_I_AM_ALIVE_FROM_USB spec_header ∧
    @msg_cmdId spec_header m ≠ @MBCA_CMD_RECEIVE_MESSAGE spec_header)
    [ack; odd; ack]) as H.
  { repeat first [apply List.Forall_cons | apply List.Forall_nil];
      cbn; lia. }
  split; [exact H|].
  exact (process_all_other_commands (hdr := spec_header) [ack; odd; ack]
           example_world H).
Defined.

Lemma xmit_pool_exhausted_witness :
  let full := (λ i : nat, {| ndx := Z.of_nat i; ctx_priv := true;
                             ctx_dlc := 0; can := false |}) <$> seq 0 32 in
  let w := {| priv := set_tx_context full example_priv; debug := 0;
              trace := []; ext := ext example_world; tick := 0 |} in
  (∀ j c, tx_context (priv w) !! j = Some c →
          ctx_live (hdr := spec_header) c) ∧
  (mcba_usb_xmit (hdr := spec_header) [0xa9; 1]%Z None w).1
    = NETDEV_TX_BUSY ∧
  trace (mcba_usb_xmit (hdr := spec_header) [0xa9; 1]%Z None w).2
    = [NetifStopQueue].
Proof.
  intros full w.
  assert (∀ j c, tx_context (priv w) !! j = Some c →
                 ctx_live (hdr := spec_header) c) as H.
  { intros j c Hl. change (tx_context (priv w)) with full in Hl.
    unfold full in Hl.
    apply list_lookup_fmap_Some in Hl as (i & -> & Hi).
    apply lookup_seq in Hi as [-> Hlt]. unfold ctx_live. cbn. lia. }
  split; [exact H|].
  rewrite (xmit_pool_exhausted (hdr := spec_header) [0xa9; 1]%Z None w H).
  split; reflexivity.
Defined.

Lemma xmit_accepted_witness :
  let c := {| ndx := 32; ctx_priv := false; ctx_dlc := 0; can := false |} in
  let r := mcba_usb_xmit (hdr := spec_header) [0xa9; 1]%Z None
             example_world in
  tx_context (priv example_world) !! 0 = Some c ∧
  ¬ xmit_fails example_world ∧
  r.1 = NETDEV_TX_OK ∧
  tx_submitted (priv r.2) =
    [{| context := 0; transfer_buffer := [0xa9; 1]%Z; actual_length := 0;
        status := 0 |}].
Proof.
  intros c r. split; [reflexivity|]. split; [exact example_world_not_fails|].
  assert (∀ j cj, j < 0 → tx_context (priv example_world) !! j = Some cj →
                  ndx cj ≠ @MCBA_CTX_FREE spec_header) as Hlow
    by (intros; lia).
  assert (0 < @MCBA_MAX_TX_URBS spec_header) as Hi by (cbn; lia).
  destruct (xmit_accepted (hdr := spec_header) [0xa9; 1]%Z None example_world
              0 c Hi eq_refl eq_refl Hlow example_world_not_fails)
    as (H1 & _ & H3 & _).
  split; [exact H1|exact H3].
Defined.

Lemma write_completion_releases_context_witness :
  let cf := {| can_id := 0x123; can_dlc := 3;
               cf_data := [1; 2; 3; 0; 0; 0; 0; 0]%Z |} in
  let w := (mcba_usb_start_xmit (hdr := spec_header) cf
              example_world_steady).2 in
  let w' := (usb_giveback_tx_urb (hdr := spec_header) 0 0 w).2 in
  ext w (tick w) ≠ 0%Z ∧
  tx_submitted (priv w') = [] ∧
  tx_context (priv w') !! 0 = Some (free_slot (hdr := spec_header)) ∧
  tx_packets (stats (priv w')) = 1%Z ∧
  tx_bytes (stats (priv w')) = 3%Z.
Proof.
  intros cf w w'.
  assert (ext w (tick w) ≠ 0%Z) as He by (cbn; lia).
  split; [exact He|].
  destruct (write_completion_releases_context (hdr := spec_header) 0 0 w
              (tx_urb (hdr := spec_header) 0
                 (msg_of_can (start_xmit_msg (hdr := spec_header) cf)))
              {| ndx := 0; ctx_priv := true; ctx_dlc := 3; can := true |}
              eq_refl eq_refl (or_intror He))
    as (H1 & H2 & H3 & H4 & _).
  split; [exact H1|]. split; [unfold w'; by rewrite H2|].
  split; [exact H3|exact H4].
Defined.

Lemma write_completion_absent_device_leaks_witness :
  let cf := {| can_id := 0x123; can_dlc := 3;
               cf_data := [1; 2; 3; 0; 0; 0; 0; 0]%Z |} in
  let w := (mcba_usb_start_xmit (hdr := spec_header) cf example_world).2 in
  let w' := (usb_giveback_tx_urb (hdr := spec_header) 0 0 w).2 in
  driver_inv (hdr := spec_header) w ∧
  ext w (tick w) = 0%Z ∧
  stats (priv w') = stats (priv w) ∧
  leaked (hdr := spec_header) 0 w'.
Proof.
  intros cf w w'.
  assert (driver_inv (hdr := spec_header) w) as Hinv.
  { apply xmit_preserves_inv;
      [exact spec_free_marker_ok|exact example_world_inv]. }
  split; [exact Hinv|]. split; [reflexivity|].
  destruct (write_completion_absent_device_leaks (hdr := spec_header) 0 w
              (tx_urb (hdr := spec_header) 0
                 (msg_of_can (start_xmit_msg (hdr := spec_header) cf)))
              {| ndx := 0; ctx_priv := true; ctx_dlc := 3; can := true |}
              0 Hinv eq_refl eq_refl eq_refl eq_refl)
    as (_ & H2 & _ & H4).
  split; [exact H2|exact H4].
Defined.

Lemma start_xmit_process_can_round_trip_witness :
  let cf := {| can_id := 0x40000123; can_dlc := 3;
               cf_data := [1; 2; 3; 4; 5; 6; 7; 8]%Z |} in
  let usb_msg := @msg_of_can spec_header
                   (start_xmit_msg (hdr := spec_header) cf) in
  @can_record_layout_ok spec_header ∧
  Z.land (@MCBA_DLC_RTR_MASK spec_header) (@MCBA_DLC_MASK spec_header)
    = 0%Z ∧
  @sizeof_usb_msg_data spec_header = CAN_MAX_DLEN ∧
  ∃ cf',
    trace (mcba_usb_process_can (hdr := spec_header)
             (@cast_msg_can spec_header usb_msg) example_world).2
      = trace example_world ++ [NetifRx cf'] ∧
    can_dlc cf' = 3%Z ∧
    cf_data cf' = [1; 2; 3; 0; 0; 0; 0; 0]%Z.
Proof.
  intros cf usb_msg.
  split; [exact spec_can_record_layout_ok|]. split; [reflexivity|].
  split; [reflexivity|].
  assert (0 ≤ @MCBA_DLC_RTR_MASK spec_header < 256)%Z as Hr by (cbn; lia).
  assert (0 ≤ can_dlc cf ≤ 8)%Z as Hd by (cbn; lia).
  assert (ext example_world (tick example_world) ≠ 0%Z) as He
    by (cbn; lia).
  exact (proj2 (start_xmit_process_can_round_trip (hdr := spec_header) cf
                  example_world spec_can_record_layout_ok spec_dlc_mask_ok
                  eq_refl Hr eq_refl Hd eq_refl He)).
Defined.

Lemma start_xmit_completion_round_trip_witness :
  let cf := {| can_id := 0x40000123; can_dlc := 2;
               cf_data := [0; 0; 0; 0; 0; 0; 0; 0]%Z |} in
  let c := {| ndx := 32; ctx_priv := false; ctx_dlc := 0; can := false |} in
  let r := mcba_usb_start_xmit (hdr := spec_header) cf
             example_world_steady in
  let w' := (usb_giveback_tx_urb (hdr := spec_header) 0 0 r.2).2 in
  @can_record_layout_ok spec_header ∧
  tx_context (priv example_world_steady) !! 0 = Some c ∧
  ¬ xmit_fails example_world_steady ∧
  ext example_world_steady (3 + tick example_world_steady) ≠ 0%Z ∧
  @MCBA_TX_IS_RTR spec_header cf = true ∧
  (get_free_ctx (hdr := spec_header) (tx_context (priv w'))).1 = Some 0 ∧
  tx_packets (stats (priv w')) = 1%Z ∧
  tx_bytes (stats (priv w')) = 66%Z.
Proof.
  intros cf c r w'.
  assert (ext example_world_steady (3 + tick example_world_steady) ≠ 0%Z)
    as He by (cbn; lia).
  assert (∀ j cj, j < 0 →
            tx_context (priv example_world_steady) !! j = Some cj →
            ndx cj ≠ @MCBA_CTX_FREE spec_header) as Hlow
    by (intros; lia).
  assert (@sizeof_usb_msg_data spec_header ≤ length (cf_data cf)) as Hsz
    by (cbn; lia).
  assert (0 < @MCBA_MAX_TX_URBS spec_header) as Hi by (cbn; lia).
  split; [exact spec_can_record_layout_ok|]. split; [reflexivity|].
  split; [exact example_world_steady_not_fails|]. split; [exact He|].
  split; [reflexivity|].
  destruct (start_xmit_completion_round_trip (hdr := spec_header) cf 0
              example_world_steady 0 c spec_can_record_layout_ok Hsz Hi
              eq_refl eq_refl Hlow example_world_steady_not_fails He)
    as (_ & _ & _ & H4 & H5 & H6 & _).
  split; [exact H4|]. split; [exact H5|exact H6].
Defined.

Lemma set_bittiming_stored_bitrate_witness :
  let w := example_world_bitrate 175000 in
  let w1 := (mcba_net_set_bittiming (hdr := spec_header) w).2 in
  bitrate (bittiming (priv w)) ∈ supported_bitrates ∧
  bitrate (bittiming (priv w1)) = 175438%Z ∧
  ((bitrate (bittiming (priv w1)) = bitrate (bittiming (priv w)) ∧
    (bitrate (bittiming (priv w))
       ∉ [150000; 175000; 225000; 275000; 300000]%Z) ∧
    (mcba_net_set_bittiming (hdr := spec_header) w1).1 = 0%Z) ∨
   ((bitrate (bittiming (priv w)), bitrate (bittiming (priv w1)))
      ∈ [(150000, 150375); (175000, 175438); (225000, 227272);
         (275000, 277777); (300000, 303030)]%Z ∧
    (mcba_net_set_bittiming (hdr := spec_header) w1).1 = (- EINVAL)%Z)).
Proof.
  intros w w1.
  assert (bitrate (bittiming (priv w)) ∈ supported_bitrates) as H.
  { apply (bool_decide_unpack _). vm_compute. reflexivity. }
  split; [exact H|]. split; [reflexivity|].
  exact (set_bittiming_stored_bitrate (hdr := spec_header) w H).
Defined.



Lemma mcba_usb_start_reachable_witness :
  let rx := {| can_dev_state := CAN_STATE_STOPPED; rx_submitted := [] |} in
  let r := mcba_usb_start (hdr := spec_header) 2 (λ _, []) rx
             example_world in
  @free_marker_ok spec_header ∧
  length (tx_context (priv example_world)) = @MCBA_MAX_TX_URBS spec_header ∧
  tx_submitted (priv example_world) = [] ∧
  rx_submitted r.1.2 ≠ rx_submitted rx ∧
  r.1.1 = Some (- ENOMEM)%Z ∧
  driver_reachable (hdr := spec_header) r.2 ∧
  driver_inv (hdr := spec_header) r.2 ∧
  length (tx_submitted (priv r.2)) ≤ 2.
Proof.
  intros rx r.
  assert (rx_submitted r.1.2 ≠ rx_submitted rx) as Hne
    by (intros Heq; vm_compute in Heq; discriminate Heq).
  split; [exact spec_free_marker_ok|]. split; [reflexivity|].
  split; [reflexivity|]. split; [exact Hne|]. split; [reflexivity|].
  exact (mcba_usb_start_reachable (hdr := spec_header) 2 (λ _, []) rx
           example_world spec_free_marker_ok eq_refl eq_refl Hne).
Defined.

Lemma mcba_usb_start_all_ok_witness :
  let rx := {| can_dev_state := CAN_STATE_STOPPED; rx_submitted := [] |} in
  let w := example_world_steady in
  let r := mcba_usb_start (hdr := spec_header) 2 (λ _, []) rx w in
  (∀ j, j < 2 + 2 → transfer_ok (ext w) (tick w + 3 * j)) ∧
  r.1.1 = Some 0%Z ∧
  can_dev_state r.1.2 = CAN_STATE_ERROR_ACTIVE ∧
  length (rx_submitted r.1.2) = 2 ∧
  context <$> tx_submitted (priv r.2) = [0; 1].
Proof.
  intros rx w r.
  assert (∀ j, j < 2 + 2 → transfer_ok (ext w) (tick w + 3 * j)) as Hok.
  { intros j Hj.
    assert (j = 0 ∨ j = 1 ∨ j = 2 ∨ j = 3) as Hc by lia.
    destruct Hc as [->|[->|[->| ->]]]; repeat split; cbn; lia. }
  assert (2 ≤ @MCBA_MAX_TX_URBS spec_header) as HN by (cbn; lia).
  assert (0 < 2) as Hmax by lia.
  split; [exact Hok|].
  destruct (mcba_usb_start_all_ok (hdr := spec_header) 2 (λ _, []) rx w
              spec_free_marker_ok HN Hmax eq_refl eq_refl Hok)
    as (H1 & H2 & H3 & H4 & _).
  split; [exact H1|]. split; [exact H2|].
  split; [unfold r; by rewrite H3|unfold r; by rewrite H4].
Defined.

Lemma keep_alive_can_debug_line_witness :
  let msg := {| tx_err_cnt := 0; rx_err_cnt := 0; rx_buff_ovfl := 0;
                tx_bus_off := 0; can_bitrate_hi := 1; can_bitrate_lo := 244;
                rx_lost_hi := 2; rx_lost_lo := 7; can_stat := 0;
                soft_ver_major := 2; soft_ver_minor := 3; debug_mode := 0;
                test_complete := 0; test_result := 0 |} in
  let w := {| priv := example_priv; debug := 2; trace := [];
              ext := ext example_world; tick := 0 |} in
  @MCBA_IS_CAN_DEBUG spec_header (debug w) = true ∧
  (0 ≤ rx_lost_hi msg < 256)%Z ∧
  ∃ rest,
    trace (mcba_usb_process_keep_alive_can (hdr := spec_header) msg w).2 =
      NetdevInfo
        ("CAN_KA: tx_err_cnt %hhu, rx_err_cnt %hhu, " +:+
         "rx_buff_ovfl %hhu, tx_bus_off %hhu, can_bitrate %hu, " +:+
         "rx_lost %hu, can_stat %hhu, soft_ver %hhu.%hhu, " +:+
         "debug_mode %hhu, test_complete %hhu, test_result %hhu")
        [0; 0; 0; 0; 500; 7; 0; 2; 3; 0; 0; 0]%Z
      :: rest.
Proof.
  intros msg w.
  assert (0 ≤ rx_lost_hi msg < 256)%Z as Hhi by (cbn; lia).
  split; [reflexivity|]. split; [exact Hhi|].
  exact (keep_alive_can_debug_line (hdr := spec_header) msg w eq_refl Hhi).
Defined.

Lemma urb_unlink_releases_contexts_witness :
  let cf := {| can_id := 0x123; can_dlc := 3;
               cf_data := [1; 2; 3; 0; 0; 0; 0; 0]%Z |} in
  let w1 := (mcba_usb_start_xmit (hdr := spec_header) cf
               example_world_steady).2 in
  let w := {| priv := priv w1; debug := 0; trace := [];
              ext := λ _, 1%Z; tick := 0 |} in
  let rx := {| can_dev_state := CAN_STATE_ERROR_ACTIVE;
               rx_submitted := [rx_urb (λ _, []) 0; rx_urb (λ _, []) 1] |} in
  let r := mcba_urb_unlink (hdr := spec_header) rx w in
  (∀ u, u ∈ tx_submitted (priv w) →
        context u < length (tx_context (priv w))) ∧
  (∀ t, ext w t ≠ 0%Z) ∧
  length (tx_submitted (priv w)) = 1 ∧
  rx_submitted r.1 = [] ∧
  tx_submitted (priv r.2) = [] ∧
  rx_packets (stats (priv r.2)) = 0%Z ∧
  trace r.2 = [CanGetEchoSkb 0; NetifWakeQueue;
               NetdevInfo "Tx URB aborted (%d)" [-2]%Z] ∧
  tick r.2 = 3.
Proof.
  intros cf w1 w rx r.
  assert (∀ u, u ∈ tx_submitted (priv w) →
               context u < length (tx_context (priv w))) as Hctx.
  { intros u Hu.
    change (tx_submitted (priv w))
      with [tx_urb (hdr := spec_header) 0
              (@msg_of_can spec_header
                 (start_xmit_msg (hdr := spec_header) cf))] in Hu.
    apply list_elem_of_singleton in Hu as ->. cbn. lia. }
  assert (∀ t, ext w t ≠ 0%Z) as Hext by (intros t; cbn; lia).
  split; [exact Hctx|]. split; [exact Hext|]. split; [reflexivity|].
  destruct (urb_unlink_releases_contexts (hdr := spec_header) rx w Hctx Hext)
    as (H1 & H2 & _ & _ & _ & _ & H7 & _).
  split; [exact H1|]. split; [exact H2|]. split; [exact H7|].
  split; vm_compute; reflexivity.
Defined.

(** ** A pool of leaked contexts *)

Section exhaustion_facts.
Context `{hdr : mcba_usb_h}.

Lemma driver_steps_preserve_inv w w' :
  free_marker_ok → rtc driver_step w w' → driver_inv w → driver_inv w'.
Proof.
  intros Hm. induction 1 as [|x y z Hstep _ IH]; [done|]. intros Hinv.
  apply IH. by eapply driver_step_preserves_inv.
Qed.

(** X22: once every slot of the context array is taken with no URB in
    flight that refers to it, the driver transmits nothing any more:
    whatever it does afterwards (transmit calls, commands, completions,
    received buffers), every call of [mcba_usb_xmit] finds no free context,
    stops the queue and returns [NETDEV_TX_BUSY].  Only [mcba_init_ctx], which
    runs when the device is started, frees the slots again. *)
Theorem all_contexts_leaked_blocks_transmit w w' usb_msg skb :
  free_marker_ok → driver_reachable w →
  (∀ i, i < MCBA_MAX_TX_URBS → leaked i w) →
  rtc driver_step w w' →
  mcba_usb_xmit usb_msg skb w' =
    (NETDEV_TX_BUSY,
     {| priv := priv w'; debug := debug w';
        trace := trace w' ++ [NetifStopQueue];
        ext := ext w'; tick := tick w' |}).
Proof.
  intros Hm Hr Hleak Hsteps.
  pose proof (driver_steps_preserve_inv w w' Hm Hsteps
                (driver_reachable_inv w Hm Hr)) as ([Hlen _] & _).
  apply xmit_exhausted_world. intros j c Hc.
  assert (j < MCBA_MAX_TX_URBS) as Hj
    by (rewrite <- Hlen; by eapply lookup_lt_Some).
  destruct (driver_steps_preserve_leak j w w' Hsteps (Hleak j Hj))
    as [(c' & Hc' & Hlive) _].
  by simplify_eq.
Qed.

End exhaustion_facts.

Lemma driver_reachable_iter_xmit_cmd `{hdr : mcba_usb_h} usb_msg n w :
  driver_reachable w →
  driver_reachable (Nat.iter n (λ v, (mcba_usb_xmit_cmd usb_msg v).2) w).
Proof.
  intros Hr. induction n as [|n IH]; [done|]. cbn [Nat.iter].
  eapply reach_step; [exact IH|apply step_xmit_cmd].
Qed.

Lemma all_contexts_leaked_blocks_transmit_witness :
  let cf := {| can_id := 0x123; can_dlc := 3;
               cf_data := [1; 2; 3; 0; 0; 0; 0; 0]%Z |} in
  let w := Nat.iter 32
             (λ v, (mcba_usb_xmit_cmd (hdr := spec_header) [0xa9; 1]%Z v).2)
             (mcba_init_ctx (hdr := spec_header) example_world_nomem).2 in
  let w' := (usb_giveback_tx_urb (hdr := spec_header) 0 0 w).2 in
  @free_marker_ok spec_header ∧
  driver_reachable (hdr := spec_header) w ∧
  (∀ i, i < @MCBA_MAX_TX_URBS spec_header →
        leaked (hdr := spec_header) i w) ∧
  rtc (driver_step (hdr := spec_header)) w w' ∧
  (mcba_usb_start_xmit (hdr := spec_header) cf w').1 = NETDEV_TX_BUSY.
Proof.
  intros cf w w'.
  assert (driver_reachable (hdr := spec_header) w) as Hr.
  { apply driver_reachable_iter_xmit_cmd. apply reach_start; reflexivity. }
  assert (tx_submitted (priv w) = []) as Hsub by (vm_compute; reflexivity).
  assert (Forall (λ c, ndx c ≠ @MCBA_CTX_FREE spec_header)
            (tx_context (priv w))) as Hall.
  { apply (bool_decide_unpack _). vm_compute. reflexivity. }
  assert (length (tx_context (priv w)) = 32) as Hlen
    by (vm_compute; reflexivity).
  assert (∀ i, i < @MCBA_MAX_TX_URBS spec_header →
               leaked (hdr := spec_header) i w) as Hleak.
  { intros i Hi. split.
    - destruct (lookup_lt_is_Some_2 (tx_context (priv w)) i) as [c Hc];
        [rewrite Hlen; exact Hi|].
      exists c. split; [exact Hc|].
      exact (proj1 (Forall_lookup _ _) Hall i c Hc).
    - intros u Hu. rewrite Hsub in Hu.
      destruct (proj1 (elem_of_nil _) Hu). }
  assert (tx_context (priv w') = tx_context (priv w)) as E1
    by (vm_compute; reflexivity).
  assert (tx_submitted (priv w') = tx_submitted (priv w)) as E2
    by (vm_compute; reflexivity).
  assert (rtc (driver_step (hdr := spec_header)) w w') as Hsteps.
  { apply rtc_once. apply step_kernel; assumption. }
  split; [exact spec_free_marker_ok|]. split; [exact Hr|].
  split; [exact Hleak|]. split; [exact Hsteps|].
  exact (f_equal fst
           (all_contexts_leaked_blocks_transmit (hdr := spec_header) w w'
              (@msg_of_can spec_header
                 (start_xmit_msg (hdr := spec_header) cf))
              (Some cf) spec_free_marker_ok Hr Hleak Hsteps)).
Defined.

(** The bound is reached: 32 commands in a row on a freshly started device,
    each accepted by the USB core, are all in flight, one on each slot. *)
Lemma inflight_urbs_bounded_witness :
  let w := Nat.iter 32
             (λ v, (mcba_usb_xmit_cmd (hdr := spec_header) [0xa9; 1]%Z v).2)
             (mcba_init_ctx (hdr := spec_header) example_world_steady).2 in
  @free_marker_ok spec_header ∧
  driver_reachable (hdr := spec_header) w ∧
  context <$> tx_submitted (priv w) = seq 0 32 ∧
  NoDup (context <$> tx_submitted (priv w)) ∧
  (∀ u, u ∈ tx_submitted (priv w) →
        slot_occupied (hdr := spec_header) (context u)
          (tx_context (priv w))) ∧
  length (tx_submitted (priv w)) ≤ @MCBA_MAX_TX_URBS spec_header.
Proof.
  intros w.
  assert (driver_reachable (hdr := spec_header) w) as Hr.
  { apply driver_reachable_iter_xmit_cmd. apply reach_start; reflexivity. }
  assert (context <$> tx_submitted (priv w) = seq 0 32) as Hc
    by (vm_compute; reflexivity).
  split; [exact spec_free_marker_ok|]. split; [exact Hr|].
  split; [exact Hc|].
  exact (inflight_urbs_bounded (hdr := spec_header) w
           spec_free_marker_ok Hr).
Defined.
